(** * FantasyBlock: draft turn engine, roster analyzer and recommendation engine

    A shallow embedding of the parts of the FantasyBlock sources that the
    specification talks about:

    - the draft room's snake board ([DraftRoomPage], client side);
    - the roster analyzer and the recommendation fallbacks ([lib/draft-ai]);
    - the pick routes [POST] / [DELETE] of [/api/drafts/[id]/picks] over the
      [drafts], [players] and [draft_picks] tables of [lib/db/schema.ts].

    JavaScript numbers that hold integers are modelled by [Z]; nullable
    columns by [option]; arrays by [list]; the [Record<string, number>]
    used as a counter by a [gmap string nat]. *)

From Stdlib Require Import ZArith Lia List Bool Ascii String.
From Stdlib Require Import Sorted Permutation.
From Stdlib Require Import DecimalString DecimalZ DecimalN.
From stdpp Require Import base option list gmap strings.
Import ListNotations.

Local Open Scope string_scope.
Local Open Scope Z_scope.

(* ===================================================================== *)
(** * The snake board of the draft room *)
(* ===================================================================== *)

Module Board.

(** [interface DraftPick { round; pick; teamIndex; player? }].  The board
    is built before any player is attached, so [player] is left out. *)
Record DraftPick : Type := mkDraftPick
  { round : Z;        (* 1-based round *)
    pick : Z;         (* overall pick, 1-based *)
    teamIndex : Z }.  (* 0-based seat *)

(** The values [lo, lo+1, ..., lo+n-1] a counting [for] loop runs over. *)
Definition upfrom (lo : Z) (n : nat) : list Z :=
  List.map (fun i => lo + Z.of_nat i) (seq 0 n).

(** The loop variable of [for (let v = 1; v <= hi; v++)]. *)
Definition loop1 (hi : Z) : list Z := upfrom 1 (Z.to_nat hi).

(** [round % 2 === 1 ? pick - 1 : numTeams - pick] *)
Definition snakeTeamIndex (numTeams round pick : Z) : Z :=
  if Z.rem round 2 =? 1 then pick - 1 else numTeams - pick.

(** The inner loop: one round of the board. *)
Definition boardRound (numTeams round : Z) : list DraftPick :=
  List.map
    (fun pick =>
       {| round := round;
          pick := (round - 1) * numTeams + pick;
          teamIndex := snakeTeamIndex numTeams round pick |})
    (loop1 numTeams).

(** The [useEffect] that initialises the board: rounds outside, picks
    inside, every entry pushed in loop order. *)
Definition buildBoard (numTeams numRounds : Z) : list DraftPick :=
  List.flat_map (boardRound numTeams) (loop1 numRounds).

(** The page's constants ("mock data"). *)
Definition numTeams : Z := 12.
Definition numRounds : Z := 16.
Definition userTeamIndex : Z := 5.

Definition draftBoard : list DraftPick := buildBoard numTeams numRounds.

(** [draftBoard.find(pick => pick.pick === currentPick)] *)
Definition findPick (board : list DraftPick) (currentPick : Z)
  : option DraftPick :=
  List.find (fun p => pick p =? currentPick) board.

(** The seat shown to the user: ["Team " + (teamIndex + 1)]. *)
Definition seatNumber (p : DraftPick) : Z := teamIndex p + 1.

(** [draftBoard.find(...)?.teamIndex === userTeamIndex] *)
Definition isUserTurn (board : list DraftPick) (user currentPick : Z) : bool :=
  match findPick board currentPick with
  | Some p => teamIndex p =? user
  | None => false
  end.

(** The seats of one round, in board order. *)
Definition roundSeats (board : list DraftPick) (r : Z) : list Z :=
  List.map seatNumber (List.filter (fun p => round p =? r) board).

(** [ceil(pickNumber / numTeams)] on positive integers. *)
Definition roundOf (numTeams pickNumber : Z) : Z :=
  (pickNumber + numTeams - 1) / numTeams.

Definition pickInRoundOf (numTeams pickNumber : Z) : Z :=
  pickNumber - (roundOf numTeams pickNumber - 1) * numTeams.

End Board.

(* ===================================================================== *)
(** * Rows of the schema ([lib/db/schema.ts]) *)
(* ===================================================================== *)

Inductive Sport : Type := NBA | NFL | MLB.
Inductive DraftType : Type := snake | auction | linear.
Inductive DraftStatus : Type := setup | in_progress | completed | abandoned.

Definition Sport_eqb (a b : Sport) : bool :=
  match a, b with
  | NBA, NBA | NFL, NFL | MLB, MLB => true
  | _, _ => false
  end.

Definition DraftStatus_eqb (a b : DraftStatus) : bool :=
  match a, b with
  | setup, setup | in_progress, in_progress
  | completed, completed | abandoned, abandoned => true
  | _, _ => false
  end.

(** Ids.  A [uuid] column holds a value, not a text: Postgres reads the
    text of a request into the value it denotes before it compares, so
    upper-case and lower-case hexadecimal digits name the same id.  Here
    an id is the canonical (lower-case) text of the value, in the tables
    and in the requests alike, and [String.eqb] on such texts is the
    comparison of the values. *)

(** [players]: the columns the engine reads.  [team], [position] and [adp]
    are nullable. *)
Module Player.
Record t : Type := mk
  { id : string;
    sport : Sport;
    fullName : string;
    team : option string;
    position : option string;
    adp : option Z }.
End Player.

(** [drafts]: [current_round] and [current_pick] are nullable with default
    1; the other columns used here are [NOT NULL].  The league name, the
    scoring type, the settings bag and the timestamps are not read by the
    pick routes and are left out. *)
Module Draft.
Record t : Type := mk
  { id : string;
    userId : string;
    sport : Sport;
    draftType : DraftType;
    numTeams : Z;
    draftPosition : Z;
    rosterSize : Z;
    currentRound : option Z;
    currentPick : option Z;
    status : DraftStatus }.
End Draft.

(** [draft_picks].  The primary key is a random UUID in the source; here it
    is a number handed out by the store, which keeps it unique.
    [is_user_pick] is a nullable boolean. *)
Module DraftPick.
Record t : Type := mk
  { id : nat;
    draftId : string;
    playerId : string;
    teamNumber : Z;
    round : Z;
    pickNumber : Z;
    pickInRound : Z;
    isUserPick : option bool }.
End DraftPick.

(* ===================================================================== *)
(** * JavaScript helpers *)
(* ===================================================================== *)

Module Js.

(** [s || dflt] on a nullable string: [null] and the empty string are
    falsy. *)
Definition strOr (s : option string) (dflt : string) : string :=
  match s with
  | Some EmptyString | None => dflt
  | Some v => v
  end.

(** [n || dflt] on a nullable number: [null] and [0] are falsy. *)
Definition numOr (n : option Z) (dflt : Z) : Z :=
  match n with
  | Some 0 | None => dflt
  | Some v => v
  end.

(** Truthiness of a nullable boolean. *)
Definition truthy (b : option bool) : bool :=
  match b with
  | Some true => true
  | _ => false
  end.

(** An integer inside a template literal: decimal digits, with a leading
    minus sign when negative. *)
Definition showZ (z : Z) : string := NilZero.string_of_int (Z.to_int z).

(** The characters [showZ] can print: digits and the minus sign. *)
Definition numeric (c : ascii) : Prop :=
  In c (list_ascii_of_string "0123456789-").

(** A nullable value inside a template literal: [null] prints as the
    word. *)
Definition showStrNull (s : option string) : string :=
  match s with Some v => v | None => "null" end.

Definition showZNull (n : option Z) : string :=
  match n with Some v => showZ v | None => "null" end.

(** [Array.prototype.sort(cmp)] for a comparator that orders by a key
    ([cmp a b = key a - key b]): the sort is stable (ECMAScript 2019), so
    it is the insertion of each element in front of the first later
    element that does not compare below it. *)
Section Sort.
Context {A : Type} (cmp : A -> A -> Z).

Fixpoint insert (x : A) (l : list A) : list A :=
  match l with
  | [] => [x]
  | y :: l' => if cmp x y <=? 0 then x :: y :: l' else y :: insert x l'
  end.

Fixpoint sort (l : list A) : list A :=
  match l with
  | [] => []
  | x :: l' => insert x (sort l')
  end.
End Sort.

(** The order a sort by [key] produces. *)
Definition keyLe {A : Type} (key : A -> Z) (a b : A) : Prop := key a <= key b.

(** [arr.slice(0, n)] *)
Definition slice0 {A : Type} (n : nat) (l : list A) : list A := firstn n l.

(** [arr.map((x, index) => f x index)] *)
Fixpoint mapi_from {A B : Type} (f : A -> Z -> B) (i : Z) (l : list A) : list B :=
  match l with
  | [] => []
  | x :: l' => f x i :: mapi_from f (i + 1) l'
  end.

Definition mapi {A B : Type} (f : A -> Z -> B) (l : list A) : list B :=
  mapi_from f 0 l.

(** [toLowerCase].  A string is kept as the bytes of its text, and the
    letters [A] to [Z] are the only bytes lowered: this is what
    [String.prototype.toLowerCase] does on text whose capitals are ASCII,
    which covers the constants of the sources ([SENSITIVE_FIELDS], the
    position names).  JavaScript also lowers capitals outside ASCII; what
    is proved about name matching and about sensitive keys is therefore
    proved for every matcher ([Recs.parseAIResponseWith]) and for every
    choice of sensitive keys ([Logger.redactWith]), and does not rest on
    this function. *)
Definition lowerAscii (c : ascii) : ascii :=
  let n := nat_of_ascii c in
  if (Nat.leb 65 n && Nat.leb n 90)%bool then ascii_of_nat (n + 32) else c.

Fixpoint toLowerCase (s : string) : string :=
  match s with
  | EmptyString => EmptyString
  | String c s' => String (lowerAscii c) (toLowerCase s')
  end.

(** [s.includes(sub)] *)
Fixpoint includes (s sub : string) : bool :=
  if String.prefix sub s then true
  else match s with
       | EmptyString => false
       | String _ s' => includes s' sub
       end.

End Js.

(* ===================================================================== *)
(** * Roster analyzer ([analyzeRoster] of [lib/draft-ai]) *)
(* ===================================================================== *)

Module Roster.

Record RosterAnalysis : Type := mkAnalysis
  { strengths : list string;
    needs : list string }.

(** [const IDEAL_ROSTER_COMPOSITION = { PG: 2, SG: 2, SF: 2, PF: 2, C: 2 }],
    as [Object.entries] lists it (insertion order). *)
Definition IDEAL_ROSTER_COMPOSITION : list (string * Z) :=
  [("PG", 2); ("SG", 2); ("SF", 2); ("PF", 2); ("C", 2)].

(** [player.position || 'UTIL'] *)
Definition primaryPosition (player : Player.t) : string :=
  Js.strOr (Player.position player) "UTIL".

(** The first loop: [positionCounts[pos] = (positionCounts[pos] || 0) + 1].
    The counter is a plain object, so the map is exact at every label that
    is not the name of a property all objects inherit (["constructor"],
    ["toString"], ...); the five keys of the table are such labels. *)
Definition countPosition (counts : gmap string Z) (player : Player.t)
  : gmap string Z :=
  let pos := primaryPosition player in
  <[pos := default 0 (counts !! pos) + 1]> counts.

Definition positionCounts (roster : list Player.t) : gmap string Z :=
  fold_left countPosition roster ∅.

(** [`${pos} (${count})`] *)
Definition strengthLabel (pos : string) (count : Z) : string :=
  pos +:+ " (" +:+ Js.showZ count +:+ ")".

(** [`${pos} (have ${count}, need ${ideal})`] *)
Definition needLabel (pos : string) (count ideal : Z) : string :=
  pos +:+ " (have " +:+ Js.showZ count +:+ ", need " +:+ Js.showZ ideal +:+ ")".

(** One turn of the second loop, over a [[pos, ideal]] entry. *)
Definition classify (counts : gmap string Z)
    (acc : list string * list string) (entry : string * Z)
  : list string * list string :=
  let '(strengths, needs) := acc in
  let '(pos, ideal) := entry in
  let count := default 0 (counts !! pos) in
  if count >=? ideal then ((strengths ++ [strengthLabel pos count])%list, needs)
  else if count <? ideal - 1 then (strengths, (needs ++ [needLabel pos count ideal])%list)
  else (strengths, needs).

Definition balanced : string := "Roster is well-balanced".

(** The body of [analyzeRoster], with the composition table it walks
    over as an argument. *)
Definition analyzeRosterWith (ideal : list (string * Z))
    (roster : list Player.t) : RosterAnalysis :=
  let counts := positionCounts roster in
  let '(strengths, needs) := fold_left (classify counts) ideal ([], []) in
  let needs := if (length needs =? 0)%nat then (needs ++ [balanced])%list else needs in
  {| strengths := strengths; needs := needs |}.

Definition analyzeRoster (roster : list Player.t) : RosterAnalysis :=
  analyzeRosterWith IDEAL_ROSTER_COMPOSITION roster.

(** How many players of the roster have [pos] as primary position. *)
Definition countAt (roster : list Player.t) (pos : string) : Z :=
  Z.of_nat (length (List.filter
                      (fun p => String.eqb (primaryPosition p) pos) roster)).

(** The branch conditions of the second loop, on an entry of the table. *)
Definition meetsIdeal (roster : list Player.t) (entry : string * Z) : bool :=
  countAt roster (fst entry) >=? snd entry.

Definition wellShort (roster : list Player.t) (entry : string * Z) : bool :=
  negb (meetsIdeal roster entry) && (countAt roster (fst entry) <? snd entry - 1).

(** The label pushed for an entry in either branch. *)
Definition strengthOf (roster : list Player.t) (entry : string * Z) : string :=
  strengthLabel (fst entry) (countAt roster (fst entry)).

Definition needOf (roster : list Player.t) (entry : string * Z) : string :=
  needLabel (fst entry) (countAt roster (fst entry)) (snd entry).

(** The positions of the fixed table. *)
Definition corePositions : list string := List.map fst IDEAL_ROSTER_COMPOSITION.

Definition isCore (player : Player.t) : bool :=
  existsb (String.eqb (primaryPosition player)) corePositions.

End Roster.

(* ===================================================================== *)
(** * Recommendation engine ([lib/draft-ai]) *)
(* ===================================================================== *)

Module Recs.

(** [interface DraftContext] *)
Record DraftContext : Type := mkContext
  { draft : Draft.t;
    picks : list (DraftPick.t * option Player.t);
    availablePlayers : list Player.t;
    userRoster : list Player.t;
    currentPick : Z;
    userTeamNumber : Z }.

(** [interface PlayerRecommendation] *)
Record PlayerRecommendation : Type := mkRec
  { playerId : string;
    playerName : string;
    position : string;
    team : option string;
    reasoning : string;
    score : Z;
    tags : list string }.

(** [interface RecommendationsResult] *)
Record RecommendationsResult : Type := mkResult
  { recommendations : list PlayerRecommendation;
    strategy : string;
    rosterAnalysis : Roster.RosterAnalysis }.

(** [p => p.adp !== null] *)
Definition hasAdp (p : Player.t) : bool :=
  match Player.adp p with Some _ => true | None => false end.

(** [a.adp || 999] *)
Definition adpKey (p : Player.t) : Z := Js.numOr (Player.adp p) 999.

(** [(a, b) => (a.adp || 999) - (b.adp || 999)] *)
Definition byAdp (a b : Player.t) : Z := adpKey a - adpKey b.

(** [.filter(p => p.adp !== null).sort(byAdp)], the chain that the prompt
    builder and all three fallbacks start with. *)
Definition sortedByAdp (players : list Player.t) : list Player.t :=
  Js.sort byAdp (List.filter hasAdp players).

(** [topAvailable] of [buildRecommendationPrompt]: the candidates put
    into the prompt. *)
Definition topAvailable (context : DraftContext) : list Player.t :=
  Js.slice0 30 (sortedByAdp (availablePlayers context)).

(** One line of the "TOP 30 AVAILABLE PLAYERS" block:
    [`${i + 1}. ${p.fullName} (${p.position}) - ${p.team} - ADP: ${p.adp}`] *)
Definition candidateLine (p : Player.t) (i : Z) : string :=
  Js.showZ (i + 1) +:+ ". " +:+ Player.fullName p +:+ " (" +:+
  Js.showStrNull (Player.position p) +:+ ") - " +:+
  Js.showStrNull (Player.team p) +:+ " - ADP: " +:+ Js.showZNull (Player.adp p).

(** The candidate block of the prompt, [topAvailable.map(...).join('\n')],
    kept as its list of lines. *)
Definition candidateLines (context : DraftContext) : list string :=
  Js.mapi candidateLine (topAvailable context).

(** [getFallbackRecommendations] *)
Definition getFallbackRecommendations (context : DraftContext)
  : RecommendationsResult :=
  let rosterAnalysis := Roster.analyzeRoster (userRoster context) in
  let sortedPlayers := sortedByAdp (availablePlayers context) in
  let recommendations :=
    Js.mapi
      (fun player index =>
         {| playerId := Player.id player;
            playerName := Player.fullName player;
            position := Js.strOr (Player.position player) "UTIL";
            team := Player.team player;
            reasoning :=
              if index =? 0 then "Best available player by ADP"
              else "Strong value at pick " +:+ Js.showZ (currentPick context);
            score := 80 - index * 5;
            tags := if index =? 0 then ["best available"] else ["value pick"] |})
      (Js.slice0 5 sortedPlayers) in
  {| recommendations := recommendations;
     strategy := "Draft the best available player based on ADP rankings";
     rosterAnalysis := rosterAnalysis |}.

(** What [JSON.parse] hands to [parseAIResponse]: one entry of
    [parsed.recommendations].  [score] and [tags] may be missing. *)
Record ParsedRec : Type := mkParsedRec
  { rec_playerName : string;
    rec_position : string;
    rec_reasoning : string;
    rec_score : option Z;
    rec_tags : option (list string) }.

Record Parsed : Type := mkParsed
  { parsed_recommendations : option (list ParsedRec);
    parsed_strategy : option string;
    parsed_rosterNeeds : option (list string) }.

(** The predicate of [availablePlayers.find]: either name contains the
    other, case-insensitively. *)
Definition nameMatches (rec : ParsedRec) (p : Player.t) : bool :=
  (Js.includes (Js.toLowerCase (Player.fullName p))
               (Js.toLowerCase (rec_playerName rec))
   || Js.includes (Js.toLowerCase (rec_playerName rec))
                  (Js.toLowerCase (Player.fullName p)))%bool.

(** The entry both fallbacks inside [parseAIResponse] build. *)
Definition bestAvailableRec (player : Player.t) : PlayerRecommendation :=
  {| playerId := Player.id player;
     playerName := Player.fullName player;
     position := Js.strOr (Player.position player) "UTIL";
     team := Player.team player;
     reasoning := "Best available player by ADP";
     score := 70;
     tags := ["best available"] |}.

(** How one call of [generateRecommendations] goes on the provider side:
    [getAIProvider] returns [null]; [generateText] throws; or it returns a
    text, seen here through its decoding. *)
Inductive ProviderRun : Type :=
| NoProvider
| GenerateThrows
| Generated (decoded : option Parsed).

Section Matching.
Variable matches : ParsedRec -> Player.t -> bool.

(** One turn of the loop over [parsed.recommendations], with the
    predicate of [availablePlayers.find] as an argument. *)
Definition resolveRecWith (availablePlayers : list Player.t)
    (acc : list PlayerRecommendation) (rec : ParsedRec)
  : list PlayerRecommendation :=
  match List.find (matches rec) availablePlayers with
  | Some player =>
      (acc ++ [ {| playerId := Player.id player;
                   playerName := Player.fullName player;
                   position := Js.strOr (Player.position player) (rec_position rec);
                   team := Player.team player;
                   reasoning := rec_reasoning rec;
                   score := Js.numOr (rec_score rec) 75;
                   tags := default [] (rec_tags rec) |} ])%list
  | None => acc
  end.

(** [parseAIResponse].  The argument [decoded] is the outcome of the
    fence stripping and [JSON.parse]: [None] when the [try] block throws
    (the text is not JSON, or an entry has no usable [playerName]),
    otherwise the decoded object. *)
Definition parseAIResponseWith (decoded : option Parsed)
    (availablePlayers : list Player.t) : RecommendationsResult :=
  match decoded with
  | Some parsed =>
      let recommendations :=
        fold_left (resolveRecWith availablePlayers)
                  (default [] (parsed_recommendations parsed)) [] in
      let recommendations :=
        if (length recommendations =? 0)%nat then
          let topPlayers := Js.slice0 5 (sortedByAdp availablePlayers) in
          fold_left (fun acc player => (acc ++ [bestAvailableRec player])%list)
                    topPlayers recommendations
        else recommendations in
      {| recommendations := Js.slice0 5 recommendations;
         strategy := Js.strOr (parsed_strategy parsed)
                              "Draft the best available player";
         rosterAnalysis :=
           {| Roster.strengths := [];
              Roster.needs := default [] (parsed_rosterNeeds parsed) |} |}
  | None =>
      let topPlayers := Js.slice0 5 (sortedByAdp availablePlayers) in
      {| recommendations := List.map bestAvailableRec topPlayers;
         strategy := "Draft the best available player";
         rosterAnalysis := {| Roster.strengths := []; Roster.needs := [] |} |}
  end.

(** [generateRecommendations] *)
Definition generateRecommendationsWith (run : ProviderRun) (context : DraftContext)
  : RecommendationsResult :=
  match run with
  | NoProvider => getFallbackRecommendations context
  | GenerateThrows => getFallbackRecommendations context
  | Generated decoded => parseAIResponseWith decoded (availablePlayers context)
  end.

(** The parse gave nothing to recommend: the [try] block threw, or no
    entry of the decoded answer resolved to an available player. *)
Definition zeroUsableWith (decoded : option Parsed)
    (availablePlayers : list Player.t) : Prop :=
  match decoded with
  | None => True
  | Some parsed =>
      fold_left (resolveRecWith availablePlayers)
                (default [] (parsed_recommendations parsed)) [] = []
  end.

End Matching.

(** The functions of the source: the matcher is [nameMatches]. *)
Definition resolveRec := resolveRecWith nameMatches.
Definition parseAIResponse := parseAIResponseWith nameMatches.
Definition generateRecommendations := generateRecommendationsWith nameMatches.
Definition zeroUsable := zeroUsableWith nameMatches.

(** The candidate list as the specification words it: every available
    player, ascending by ADP with the players without ADP after all the
    others, cut at 30. *)
Definition nullsLastAdp (a b : Player.t) : Z :=
  match Player.adp a, Player.adp b with
  | Some x, Some y => x - y
  | Some _, None => -1
  | None, Some _ => 1
  | None, None => 0
  end.

Definition spec_candidates (context : DraftContext) : list Player.t :=
  Js.slice0 30 (Js.sort nullsLastAdp (availablePlayers context)).

(** The players every fallback recommends: the first five of the sorted
    chain. *)
Definition topFive (context : DraftContext) : list Player.t :=
  Js.slice0 5 (sortedByAdp (availablePlayers context)).

(** Ascending order on the sort key. *)
Definition adpLe (a b : Player.t) : Prop := adpKey a <= adpKey b.

End Recs.

(* ===================================================================== *)
(** * The store and its statements *)
(* ===================================================================== *)

Module Store.

(** The three tables.  [nextPickId] is the source of primary keys for
    [draft_picks]. *)
Record t : Type := mk
  { drafts : list Draft.t;
    players : list Player.t;
    draftPicks : list DraftPick.t;
    nextPickId : nat }.

(** The columns a [db.update(drafts).set({...})] writes; [None] leaves the
    column alone. *)
Record DraftSet : Type := mkSet
  { set_status : option DraftStatus;
    set_currentRound : option Z;
    set_currentPick : option Z }.

(** The values of [db.insert(draftPicks).values({...})]. *)
Record NewPick : Type := mkNewPick
  { new_draftId : string;
    new_playerId : string;
    new_teamNumber : Z;
    new_round : Z;
    new_pickNumber : Z;
    new_pickInRound : Z;
    new_isUserPick : bool }.

(** The range of an [integer] column (32 bits, signed).  A statement
    that carries a value outside of it is refused by the database
    ("integer out of range") and throws. *)
Definition int4 (z : Z) : bool := (-2147483648 <=? z) && (z <=? 2147483647).

(** A nullable [integer]. *)
Definition int4Null (z : option Z) : bool :=
  match z with Some v => int4 v | None => true end.

(** One awaited statement, indexed by what it resolves to. *)
Inductive Query : Type -> Type :=
| SelectDraft (draftId userId : string) : Query (option Draft.t)
| SelectPlayer (playerId : string) : Query (option Player.t)
| SelectPickOfPlayer (draftId playerId : string) : Query (option DraftPick.t)
| SelectLastPick (draftId : string) : Query (option DraftPick.t)
| InsertPick (values : NewPick) : Query DraftPick.t
| DeletePick (pickId : nat) : Query unit
| UpdateDraft (draftId : string) (set : DraftSet) : Query unit.

Definition applySet (set : DraftSet) (d : Draft.t) : Draft.t :=
  {| Draft.id := Draft.id d;
     Draft.userId := Draft.userId d;
     Draft.sport := Draft.sport d;
     Draft.draftType := Draft.draftType d;
     Draft.numTeams := Draft.numTeams d;
     Draft.draftPosition := Draft.draftPosition d;
     Draft.rosterSize := Draft.rosterSize d;
     Draft.currentRound :=
       match set_currentRound set with
       | Some r => Some r
       | None => Draft.currentRound d
       end;
     Draft.currentPick :=
       match set_currentPick set with
       | Some p => Some p
       | None => Draft.currentPick d
       end;
     Draft.status := default (Draft.status d) (set_status set) |}.

(** [.orderBy(desc(draftPicks.pickNumber)).limit(1)]: a row with the
    greatest pick number; among equal ones the earliest stored. *)
Fixpoint maxPick (best : DraftPick.t) (rows : list DraftPick.t) : DraftPick.t :=
  match rows with
  | [] => best
  | r :: rows' =>
      maxPick (if DraftPick.pickNumber best <? DraftPick.pickNumber r
               then r else best) rows'
  end.

Definition lastPick (rows : list DraftPick.t) : option DraftPick.t :=
  match rows with
  | [] => None
  | r :: rows' => Some (maxPick r rows')
  end.

Definition picksOf (draftId : string) (db : t) : list DraftPick.t :=
  List.filter (fun p => String.eqb (DraftPick.draftId p) draftId) (draftPicks db).

(** [.where(and(eq(drafts.id, draftId), eq(drafts.userId, userId)))],
    first row. *)
Definition findDraft (draftId userId : string) (db : t) : option Draft.t :=
  List.find (fun d => String.eqb (Draft.id d) draftId
                      && String.eqb (Draft.userId d) userId)%bool
            (drafts db).

(** [.where(eq(players.id, playerId))], first row. *)
Definition findPlayer (playerId : string) (db : t) : option Player.t :=
  List.find (fun p => String.eqb (Player.id p) playerId) (players db).

(** [.where(and(eq(draftPicks.draftId, draftId),
                eq(draftPicks.playerId, playerId)))], first row. *)
Definition findPickOfPlayer (draftId playerId : string) (db : t)
  : option DraftPick.t :=
  List.find (fun p => String.eqb (DraftPick.draftId p) draftId
                      && String.eqb (DraftPick.playerId p) playerId)%bool
            (draftPicks db).

(** The foreign keys of a new [draft_picks] row have their targets. *)
Definition referencesHold (v : NewPick) (db : t) : bool :=
  (existsb (fun d => String.eqb (Draft.id d) (new_draftId v)) (drafts db)
   && existsb (fun p => String.eqb (Player.id p) (new_playerId v)) (players db))%bool.

Definition newRow (v : NewPick) (db : t) : DraftPick.t :=
  {| DraftPick.id := nextPickId db;
     DraftPick.draftId := new_draftId v;
     DraftPick.playerId := new_playerId v;
     DraftPick.teamNumber := new_teamNumber v;
     DraftPick.round := new_round v;
     DraftPick.pickNumber := new_pickNumber v;
     DraftPick.pickInRound := new_pickInRound v;
     DraftPick.isUserPick := Some (new_isUserPick v) |}.

(** [db.insert(draftPicks).values(v)] once the references hold. *)
Definition insertPick (v : NewPick) (db : t) : t :=
  {| drafts := drafts db;
     players := players db;
     draftPicks := (draftPicks db ++ [newRow v db])%list;
     nextPickId := S (nextPickId db) |}.

(** [db.delete(draftPicks).where(eq(draftPicks.id, pickId))] *)
Definition deletePick (pickId : nat) (db : t) : t :=
  {| drafts := drafts db;
     players := players db;
     draftPicks :=
       List.filter (fun p => negb (Nat.eqb (DraftPick.id p) pickId)) (draftPicks db);
     nextPickId := nextPickId db |}.

(** [db.update(drafts).set(set).where(eq(drafts.id, draftId))] *)
Definition updateDraft (draftId : string) (set : DraftSet) (db : t) : t :=
  {| drafts :=
       List.map (fun d => if String.eqb (Draft.id d) draftId
                          then applySet set d else d) (drafts db);
     players := players db;
     draftPicks := draftPicks db;
     nextPickId := nextPickId db |}.

(** The values of an insert fit the [integer] columns [team_number],
    [round], [pick_number] and [pick_in_round]. *)
Definition insertable (v : NewPick) : bool :=
  int4 (new_teamNumber v) && int4 (new_round v)
  && int4 (new_pickNumber v) && int4 (new_pickInRound v).

(** The values of an update fit [current_round] and [current_pick]. *)
Definition settable (set : DraftSet) : bool :=
  int4Null (set_currentRound set) && int4Null (set_currentPick set).

(** Runs one statement.  The first component is [None] when the statement
    throws: a foreign key of [draft_picks] has no target, or a value does
    not fit its [integer] column.  The store is then as before; what
    earlier statements of the same handler wrote stays written, the
    handlers open no transaction. *)
Definition exec {R : Type} (q : Query R) (db : t) : option R * t :=
  match q in Query R0 return option R0 * t with
  | SelectDraft draftId userId => (Some (findDraft draftId userId db), db)
  | SelectPlayer playerId => (Some (findPlayer playerId db), db)
  | SelectPickOfPlayer draftId playerId =>
      (Some (findPickOfPlayer draftId playerId db), db)
  | SelectLastPick draftId => (Some (lastPick (picksOf draftId db)), db)
  | InsertPick v =>
      if referencesHold v db && insertable v
      then (Some (newRow v db), insertPick v db)
      else (None, db)
  | DeletePick pickId => (Some tt, deletePick pickId db)
  | UpdateDraft draftId set =>
      if settable set then (Some tt, updateDraft draftId set db)
      else (None, db)
  end.

(** The rows hold what their columns can hold: every [integer] of
    [draft_picks] and of [drafts] lies in the 32-bit range.  Every state of
    the database is such a store. *)
Definition pickTyped (p : DraftPick.t) : bool :=
  int4 (DraftPick.teamNumber p) && int4 (DraftPick.round p)
  && int4 (DraftPick.pickNumber p) && int4 (DraftPick.pickInRound p).

Definition draftTyped (d : Draft.t) : bool :=
  int4 (Draft.numTeams d) && int4 (Draft.draftPosition d)
  && int4 (Draft.rosterSize d)
  && int4Null (Draft.currentRound d) && int4Null (Draft.currentPick d).

Definition typed (db : t) : bool :=
  forallb pickTyped (draftPicks db) && forallb draftTyped (drafts db).

(** Primary keys handed out so far lie below the next one. *)
Definition keysBelowNext (db : t) : Prop :=
  Forall (fun p => (DraftPick.id p < nextPickId db)%nat) (draftPicks db).

End Store.

(* ===================================================================== *)
(** * Route handlers as programs over the store *)
(* ===================================================================== *)

Module Route.

(** What a handler answers. *)
Inductive Response : Type :=
| JsonError (error : string) (status : Z)
| JsonPick (pick : DraftPick.t) (player : Player.t)      (* status 201 *)
| JsonUndone (undonePickId : nat).                       (* status 200 *)

Definition httpStatus (r : Response) : Z :=
  match r with
  | JsonError _ status => status
  | JsonPick _ _ => 201
  | JsonUndone _ => 200
  end.

(** A handler body: it answers, throws into its [catch], or awaits a
    statement and goes on with the result. *)
Inductive Handler : Type :=
| Answer (r : Response)
| Throw
| Await {R : Type} (q : Store.Query R) (k : R -> Handler).

(** One scheduling step of a handler whose [catch] answers [failed]. *)
Definition step (failed : Response) (h : Handler) (db : Store.t)
  : Handler * Store.t :=
  match h with
  | Answer r => (Answer r, db)
  | Throw => (Answer failed, db)
  | Await q k =>
      match Store.exec q db with
      | (Some r, db') => (k r, db')
      | (None, _) => (Answer failed, db)
      end
  end.

(** A handler run from start to end with nothing in between. *)
Fixpoint run (failed : Response) (h : Handler) (db : Store.t)
  : Response * Store.t :=
  match h with
  | Answer r => (r, db)
  | Throw => (failed, db)
  | Await q k =>
      match Store.exec q db with
      | (Some r, db') => run failed (k r) db'
      | (None, _) => (failed, db)
      end
  end.

(** ** Request validation *)

Definition isHex (c : ascii) : bool :=
  let n := nat_of_ascii c in
  ((Nat.leb 48 n && Nat.leb n 57)        (* 0-9 *)
   || (Nat.leb 97 n && Nat.leb n 102)    (* a-f *)
   || (Nat.leb 65 n && Nat.leb n 70))%bool.  (* A-F, by the /i flag *)

(** [n] hexadecimal digits at the head of [s]; the rest on success. *)
Fixpoint hexRun (n : nat) (s : string) : option string :=
  match n with
  | O => Some s
  | S n' =>
      match s with
      | String c s' => if isHex c then hexRun n' s' else None
      | EmptyString => None
      end
  end.

Definition dash (s : string) : option string :=
  match s with
  | String "-"%char s' => Some s'
  | _ => None
  end.

(** [/^[0-9a-f]{8}-[0-9a-f]{4}-[0-9a-f]{4}-[0-9a-f]{4}-[0-9a-f]{12}$/i] *)
Fixpoint hexGroups (groups : list nat) (s : string) : option string :=
  match groups with
  | [] => Some s
  | [n] => hexRun n s
  | n :: rest =>
      match hexRun n s with
      | Some s' =>
          match dash s' with
          | Some s'' => hexGroups rest s''
          | None => None
          end
      | None => None
      end
  end.

Definition isUuid (s : string) : bool :=
  match hexGroups [8; 4; 4; 4; 12]%nat s with
  | Some EmptyString => true
  | _ => false
  end.

(** The JSON body of a pick request, before validation.  [isUserPick] may
    be absent. *)
Record PickBody : Type := mkBody
  { body_playerId : string;
    body_teamNumber : Z;
    body_round : Z;
    body_pickNumber : Z;
    body_pickInRound : Z;
    body_isUserPick : option bool }.

(** [pickData], the validated body. *)
Record PickData : Type := mkPickData
  { playerId : string;
    teamNumber : Z;
    round : Z;
    pickNumber : Z;
    pickInRound : Z;
    isUserPick : bool }.

(** [makePickSchema.safeParse(body)]; [z.string().uuid()] is taken to
    accept the same shape as the route's own pattern. *)
Definition makePickSchema (b : PickBody) : option PickData :=
  if (isUuid (body_playerId b)
      && (1 <=? body_teamNumber b) && (body_teamNumber b <=? 20)
      && (1 <=? body_round b)
      && (1 <=? body_pickNumber b)
      && (1 <=? body_pickInRound b))%bool
  then Some {| playerId := body_playerId b;
               teamNumber := body_teamNumber b;
               round := body_round b;
               pickNumber := body_pickNumber b;
               pickInRound := body_pickInRound b;
               isUserPick := default false (body_isUserPick b) |}
  else None.

(** A request: the user id of the session, if any, and the body:
    [None] when [request.json()] throws. *)
Record Request : Type := mkRequest
  { sessionUserId : option string;
    body : option PickBody }.

(** [!session?.user?.id] *)
Definition unauthorized (req : Request) : bool :=
  match sessionUserId req with
  | Some (String _ _) => false
  | _ => true
  end.

Definition userIdOf (req : Request) : string := default "" (sessionUserId req).

(** ** [POST /api/drafts/[id]/picks] *)

Definition POST_failed : Response := JsonError "Failed to make draft pick" 500.

Definition POST_handler (req : Request) (draftId : string) : Handler :=
  if unauthorized req then Answer (JsonError "Unauthorized" 401)
  else if negb (isUuid draftId) then Answer (JsonError "Invalid draft ID" 400)
  else
    Await (Store.SelectDraft draftId (userIdOf req)) (fun draft =>
    match draft with
    | None => Answer (JsonError "Draft not found" 404)
    | Some draft =>
    if DraftStatus_eqb (Draft.status draft) completed
    then Answer (JsonError "Draft is already completed" 400)
    else
    match body req with
    | None => Throw
    | Some b =>
    match makePickSchema b with
    | None => Answer (JsonError "Invalid request" 400)
    | Some pickData =>
    Await (Store.SelectPlayer (playerId pickData)) (fun player =>
    match player with
    | None => Answer (JsonError "Player not found" 404)
    | Some player =>
    Await (Store.SelectPickOfPlayer draftId (playerId pickData))
      (fun existingPick =>
    match existingPick with
    | Some _ => Answer (JsonError "Player already drafted" 400)
    | None =>
    Await (Store.InsertPick
             {| Store.new_draftId := draftId;
                Store.new_playerId := playerId pickData;
                Store.new_teamNumber := teamNumber pickData;
                Store.new_round := round pickData;
                Store.new_pickNumber := pickNumber pickData;
                Store.new_pickInRound := pickInRound pickData;
                Store.new_isUserPick := isUserPick pickData |})
      (fun newPick =>
    Await (Store.UpdateDraft draftId
             {| Store.set_status := Some in_progress;
                Store.set_currentRound := Some (round pickData);
                Store.set_currentPick := Some (pickNumber pickData + 1) |})
      (fun _ =>
    let totalPicks := Draft.numTeams draft * Draft.rosterSize draft in
    if pickNumber pickData >=? totalPicks
    then
      Await (Store.UpdateDraft draftId
               {| Store.set_status := Some completed;
                  Store.set_currentRound := None;
                  Store.set_currentPick := None |})
        (fun _ => Answer (JsonPick newPick player))
    else Answer (JsonPick newPick player)))
    end)
    end)
    end
    end
    end).

Definition POST (req : Request) (draftId : string) (db : Store.t)
  : Response * Store.t :=
  run POST_failed (POST_handler req draftId) db.

(** ** [DELETE /api/drafts/[id]/picks] *)

Definition DELETE_failed : Response := JsonError "Failed to undo draft pick" 500.

Definition DELETE_handler (req : Request) (draftId : string) : Handler :=
  if unauthorized req then Answer (JsonError "Unauthorized" 401)
  else if negb (isUuid draftId) then Answer (JsonError "Invalid draft ID" 400)
  else
    Await (Store.SelectDraft draftId (userIdOf req)) (fun draft =>
    match draft with
    | None => Answer (JsonError "Draft not found" 404)
    | Some draft =>
    Await (Store.SelectLastPick draftId) (fun lastPick =>
    match lastPick with
    | None => Answer (JsonError "No picks to undo" 400)
    | Some lastPick =>
    if negb (Js.truthy (DraftPick.isUserPick lastPick))
    then Answer (JsonError "Can only undo your own picks" 403)
    else
    Await (Store.DeletePick (DraftPick.id lastPick)) (fun _ =>
    Await (Store.UpdateDraft draftId
             {| Store.set_status :=
                  Some (if DraftPick.pickNumber lastPick =? 1
                        then setup else in_progress);
                Store.set_currentRound := Some (DraftPick.round lastPick);
                Store.set_currentPick := Some (DraftPick.pickNumber lastPick) |})
      (fun _ => Answer (JsonUndone (DraftPick.id lastPick))))
    end)
    end).

Definition DELETE (req : Request) (draftId : string) (db : Store.t)
  : Response * Store.t :=
  run DELETE_failed (DELETE_handler req draftId) db.

(** The values a pick request inserts. *)
Definition valuesOf (draftId : string) (pickData : PickData) : Store.NewPick :=
  {| Store.new_draftId := draftId;
     Store.new_playerId := playerId pickData;
     Store.new_teamNumber := teamNumber pickData;
     Store.new_round := round pickData;
     Store.new_pickNumber := pickNumber pickData;
     Store.new_pickInRound := pickInRound pickData;
     Store.new_isUserPick := isUserPick pickData |}.

(** The two [set] clauses of [POST] and the one of [DELETE]. *)
Definition advance (pickData : PickData) : Store.DraftSet :=
  {| Store.set_status := Some in_progress;
     Store.set_currentRound := Some (round pickData);
     Store.set_currentPick := Some (pickNumber pickData + 1) |}.

Definition complete : Store.DraftSet :=
  {| Store.set_status := Some completed;
     Store.set_currentRound := None;
     Store.set_currentPick := None |}.

Definition rewind (lastPick : DraftPick.t) : Store.DraftSet :=
  {| Store.set_status :=
       Some (if DraftPick.pickNumber lastPick =? 1 then setup else in_progress);
     Store.set_currentRound := Some (DraftPick.round lastPick);
     Store.set_currentPick := Some (DraftPick.pickNumber lastPick) |}.

(** The store a request that gets through leaves behind. *)
Definition afterPick (draft : Draft.t) (draftId : string) (pickData : PickData)
    (db : Store.t) : Store.t :=
  let db1 := Store.insertPick (valuesOf draftId pickData) db in
  let db2 := Store.updateDraft draftId (advance pickData) db1 in
  if pickNumber pickData >=? Draft.numTeams draft * Draft.rosterSize draft
  then Store.updateDraft draftId complete db2
  else db2.

Definition afterUndo (draftId : string) (lastPick : DraftPick.t)
    (db : Store.t) : Store.t :=
  Store.updateDraft draftId (rewind lastPick)
    (Store.deletePick (DraftPick.id lastPick) db).

(** What a request needs to get as far as the insert: every check of the
    handler passed. *)
Definition admitted (req : Request) (draftId : string) (db : Store.t)
    (draft : Draft.t) (pickData : PickData) (player : Player.t) : Prop :=
  unauthorized req = false /\
  isUuid draftId = true /\
  Store.findDraft draftId (userIdOf req) db = Some draft /\
  Draft.status draft <> completed /\
  (exists b, body req = Some b /\ makePickSchema b = Some pickData) /\
  Store.findPlayer (playerId pickData) db = Some player /\
  Store.findPickOfPlayer draftId (playerId pickData) db = None.

(** The numbers of a validated body fit the columns they are written to:
    [round], [pick_number] and [pick_in_round] of the new row and, one
    above the pick number, [current_pick] of the draft.  The schema bounds
    them from below only ([teamNumber] also from above). *)
Definition fits (pickData : PickData) : bool :=
  Store.int4 (round pickData) && Store.int4 (pickNumber pickData + 1)
  && Store.int4 (pickInRound pickData).

(** The same request with another team number in its body. *)
Definition withTeamNumber (teamNumber : Z) (req : Request) : Request :=
  {| sessionUserId := sessionUserId req;
     body :=
       option_map
         (fun b => {| body_playerId := body_playerId b;
                      body_teamNumber := teamNumber;
                      body_round := body_round b;
                      body_pickNumber := body_pickNumber b;
                      body_pickInRound := body_pickInRound b;
                      body_isUserPick := body_isUserPick b |})
         (body req) |}.

(** What an undo needs to get as far as the delete. *)
Definition undoable (req : Request) (draftId : string) (db : Store.t)
    (draft : Draft.t) (lastPick : DraftPick.t) : Prop :=
  unauthorized req = false /\
  isUuid draftId = true /\
  Store.findDraft draftId (userIdOf req) db = Some draft /\
  Store.lastPick (Store.picksOf draftId db) = Some lastPick /\
  Js.truthy (DraftPick.isUserPick lastPick) = true.

(** ** Two requests in flight *)

(** Which of the two handlers takes the next step. *)
Inductive Turn : Type := First | Second.

(** Two [POST] handlers advanced one awaited statement at a time, in the
    order the schedule gives. *)
Fixpoint interleave (schedule : list Turn) (h1 h2 : Handler) (db : Store.t)
  : Handler * Handler * Store.t :=
  match schedule with
  | [] => (h1, h2, db)
  | First :: rest =>
      let '(h1', db') := step POST_failed h1 db in interleave rest h1' h2 db'
  | Second :: rest =>
      let '(h2', db') := step POST_failed h2 db in interleave rest h1 h2' db'
  end.

(** ** The engine's error kinds, as the routes answer them *)

Inductive ErrorKind : Type :=
| NotFound | AlreadyDrafted | DraftComplete | OutOfTurn | Conflict
| NoPicksToUndo | ForbiddenUndo | InvalidInput | Other.

Definition errorKind (r : Response) : option ErrorKind :=
  match r with
  | JsonError msg _ =>
      Some (if String.eqb msg "Draft not found" then NotFound
            else if String.eqb msg "Player not found" then NotFound
            else if String.eqb msg "Player already drafted" then AlreadyDrafted
            else if String.eqb msg "Draft is already completed" then DraftComplete
            else if String.eqb msg "No picks to undo" then NoPicksToUndo
            else if String.eqb msg "Can only undo your own picks" then ForbiddenUndo
            else if String.eqb msg "Invalid request" then InvalidInput
            else if String.eqb msg "Invalid draft ID" then InvalidInput
            else Other)
  | _ => None
  end.

(** [seat(draft, pickNumber).teamNumber] as the specification defines it
    for the two draft types with a fixed order; the routes have no such
    function. *)
Definition spec_seat (draftType : DraftType) (numTeams pickNumber : Z) : option Z :=
  let round := Board.roundOf numTeams pickNumber in
  let pickInRound := Board.pickInRoundOf numTeams pickNumber in
  match draftType with
  | snake => Some (if Z.odd round then pickInRound else numTeams - pickInRound + 1)
  | linear => Some pickInRound
  | auction => None
  end.

End Route.

(* ===================================================================== *)
(** * A small league used in the examples *)
(* ===================================================================== *)

Module League.

Definition draftId : string := "11111111-1111-4111-8111-111111111111".
Definition owner : string := "user-1".

Definition playerA : string := "aaaaaaaa-aaaa-4aaa-8aaa-aaaaaaaaaaaa".
Definition playerB : string := "bbbbbbbb-bbbb-4bbb-8bbb-bbbbbbbbbbbb".
Definition playerC : string := "cccccccc-cccc-4ccc-8ccc-cccccccccccc".
Definition playerD : string := "dddddddd-dddd-4ddd-8ddd-dddddddddddd".
Definition playerE : string := "eeeeeeee-eeee-4eee-8eee-eeeeeeeeeeee".

Definition nba (id name pos : string) (adp : Z) : Player.t :=
  {| Player.id := id; Player.sport := NBA; Player.fullName := name;
     Player.team := None; Player.position := Some pos; Player.adp := Some adp |}.

(** A fresh four-team snake draft; the user sits at seat 4. *)
Definition fresh : Draft.t :=
  {| Draft.id := draftId; Draft.userId := owner; Draft.sport := NBA;
     Draft.draftType := snake; Draft.numTeams := 4; Draft.draftPosition := 4;
     Draft.rosterSize := 5; Draft.currentRound := Some 1;
     Draft.currentPick := Some 1; Draft.status := setup |}.

Definition start : Store.t :=
  {| Store.drafts := [fresh];
     Store.players :=
       [nba playerA "Ann Able" "PG" 1; nba playerB "Bob Baker" "SG" 2;
        nba playerC "Cy Clark" "SF" 3; nba playerD "Di Dunn" "PF" 4;
        nba playerE "Ed Eads" "C" 5];
     Store.draftPicks := [];
     Store.nextPickId := 0 |}.

(** A pick request of the draft's owner. *)
Definition pickRequest (player : string)
    (teamNumber round pickNumber pickInRound : Z) (isUserPick : bool)
  : Route.Request :=
  {| Route.sessionUserId := Some owner;
     Route.body :=
       Some {| Route.body_playerId := player;
               Route.body_teamNumber := teamNumber;
               Route.body_round := round;
               Route.body_pickNumber := pickNumber;
               Route.body_pickInRound := pickInRound;
               Route.body_isUserPick := Some isUserPick |} |}.

(** An undo request of the draft's owner; it carries no body. *)
Definition undoRequest : Route.Request :=
  {| Route.sessionUserId := Some owner; Route.body := None |}.

(** The store after a list of requests handled one after the other. *)
Definition after (requests : list Route.Request) (db : Store.t) : Store.t :=
  fold_left (fun db req => snd (Route.POST req draftId db)) requests db.

(** The first round played in seat order; the fourth pick is the
    user's. *)
Definition afterRoundOne : Store.t :=
  after [pickRequest playerA 1 1 1 1 false; pickRequest playerB 2 1 2 2 false;
         pickRequest playerC 3 1 3 3 false; pickRequest playerD 4 1 4 4 true]
        start.

(** The draft row of the example, as its owner reads it. *)
Definition draftIn (db : Store.t) : option Draft.t :=
  Store.findDraft draftId owner db.

End League.

(* ===================================================================== *)
(** * Structured logger ([lib/logger]) *)
(* ===================================================================== *)

Module Logger.

(** The values a log record holds: what [JSON] can carry.  An object is
    the list of its own entries as [Object.entries] gives them, each key
    once.  An object read from JSON text can have an own key
    ["__proto__"]. *)
#[local] Unset Elimination Schemes.
Inductive Json : Type :=
| JNull
| JBool (b : bool)
| JNum (n : Z)
| JStr (s : string)
| JArr (items : list Json)
| JObj (fields : list (string * Json)).
#[local] Set Elimination Schemes.

(** [const SENSITIVE_FIELDS] *)
Definition SENSITIVE_FIELDS : list string :=
  ["password"; "token"; "secret"; "authorization"; "cookie"; "apiKey";
   "api_key"; "accessToken"; "access_token"; "refreshToken"; "refresh_token"].

(** [SENSITIVE_FIELDS.some(field => lowerKey.includes(field.toLowerCase()))] *)
Definition isSensitive (key : string) : bool :=
  let lowerKey := Js.toLowerCase key in
  existsb (fun field => Js.includes lowerKey (Js.toLowerCase field)) SENSITIVE_FIELDS.

Definition REDACTED : Json := JStr "[REDACTED]".

(** [redacted[key] = value] on the object literal the function builds.
    The key ["__proto__"] is not stored: the assignment goes to the setter
    the literal inherits from [Object.prototype], which replaces the
    prototype of [redacted] (or does nothing, for a value that is neither
    an object nor [null]) and adds no own entry.  Every other key is new,
    the keys of [data] being distinct, and is added after the entries
    written so far. *)
Definition isProto (key : string) : bool := String.eqb key "__proto__".

Section Redact.
Variable sensitive : string -> bool.

(** The body of [redactSensitiveData], with the test on the key as an
    argument.  The loop over the entries is the inner function; the
    recursive call is made on a value that is an object, not [null] and
    not an array. *)
Fixpoint redactObjectWith (value : Json) : Json :=
  match value with
  | JObj fields =>
      JObj ((fix entries (l : list (string * Json)) : list (string * Json) :=
               match l with
               | [] => []
               | (key, v) :: rest =>
                   let written :=
                     if sensitive key then REDACTED
                     else match v with
                          | JObj _ => redactObjectWith v
                          | _ => v
                          end in
                   if isProto key then entries rest
                   else (key, written) :: entries rest
               end) fields)
  | other => other
  end.

Definition redactWith (data : list (string * Json)) : list (string * Json) :=
  match redactObjectWith (JObj data) with
  | JObj redacted => redacted
  | _ => []
  end.
End Redact.

(** [redactSensitiveData(data)] *)
Definition redactSensitiveData (data : list (string * Json)) : list (string * Json) :=
  redactWith isSensitive data.

(** The entry [(key, value)] sits in [data] or in an object nested in it,
    at any depth. *)
Inductive Holds : list (string * Json) -> string -> Json -> Prop :=
| HoldsHere data key value :
    In (key, value) data -> Holds data key value
| HoldsBelow data outer inner key value :
    In (outer, JObj inner) data -> Holds inner key value ->
    Holds data key value.

(** [type LogLevel] and [const LOG_LEVELS] *)
Inductive LogLevel : Type := debug | info | warn | error.

Definition LOG_LEVELS (level : LogLevel) : Z :=
  match level with
  | debug => 0
  | info => 1
  | warn => 2
  | error => 3
  end.

End Logger.

(* ===================================================================== *)
(** * The draft room page ([DraftRoomPage]) *)
(* ===================================================================== *)

Module DraftRoom.

(** [interface Player] of the page. *)
Record Player : Type := mkPlayer
  { id : string;
    name : string;
    position : string;
    team : string;
    rank : Z;
    projected : Z;
    drafted : bool }.

(** The [useState] cells of the page. *)
Record State : Type := mkState
  { currentPick : Z;
    currentRound : Z;
    timeRemaining : Z;
    searchTerm : string;
    selectedPosition : string;
    players : list Player;
    draftBoard : list Board.DraftPick;
    userRoster : list Player }.

(** The mock players the page starts with. *)
Definition mockPlayers : list Player :=
  [mkPlayer "1" "Christian McCaffrey" "RB" "SF" 1 285 false;
   mkPlayer "2" "Austin Ekeler" "RB" "LAC" 2 265 false;
   mkPlayer "3" "Josh Allen" "QB" "BUF" 3 315 false;
   mkPlayer "4" "Cooper Kupp" "WR" "LAR" 4 245 false;
   mkPlayer "5" "Derrick Henry" "RB" "TEN" 5 255 false;
   mkPlayer "6" "Stefon Diggs" "WR" "BUF" 6 235 false;
   mkPlayer "7" "Davante Adams" "WR" "LV" 7 230 false;
   mkPlayer "8" "Travis Kelce" "TE" "KC" 8 195 false;
   mkPlayer "9" "Nick Chubb" "RB" "CLE" 9 225 false;
   mkPlayer "10" "Alvin Kamara" "RB" "NO" 10 220 false].

(** The state of the first render, before any effect has run. *)
Definition initial : State :=
  {| currentPick := 1;
     currentRound := 1;
     timeRemaining := 90;
     searchTerm := "";
     selectedPosition := "ALL";
     players := mockPlayers;
     draftBoard := [];
     userRoster := [] |}.

(** The mount effect: [setDraftBoard(board)]. *)
Definition mount (st : State) : State :=
  {| currentPick := currentPick st;
     currentRound := currentRound st;
     timeRemaining := timeRemaining st;
     searchTerm := searchTerm st;
     selectedPosition := selectedPosition st;
     players := players st;
     draftBoard := Board.draftBoard;
     userRoster := userRoster st |}.

(** One firing of the timer: [setTimeRemaining(prev => prev > 0 ? prev - 1 : 90)]. *)
Definition countdown (prev : Z) : Z := if prev >? 0 then prev - 1 else 90.

Definition tick (st : State) : State :=
  {| currentPick := currentPick st;
     currentRound := currentRound st;
     timeRemaining := countdown (timeRemaining st);
     searchTerm := searchTerm st;
     selectedPosition := selectedPosition st;
     players := players st;
     draftBoard := draftBoard st;
     userRoster := userRoster st |}.

(** [setSearchTerm] and [setSelectedPosition]. *)
Definition setSearchTerm (term : string) (st : State) : State :=
  {| currentPick := currentPick st;
     currentRound := currentRound st;
     timeRemaining := timeRemaining st;
     searchTerm := term;
     selectedPosition := selectedPosition st;
     players := players st;
     draftBoard := draftBoard st;
     userRoster := userRoster st |}.

Definition setSelectedPosition (pos : string) (st : State) : State :=
  {| currentPick := currentPick st;
     currentRound := currentRound st;
     timeRemaining := timeRemaining st;
     searchTerm := searchTerm st;
     selectedPosition := pos;
     players := players st;
     draftBoard := draftBoard st;
     userRoster := userRoster st |}.

(** [const isUserTurn = draftBoard.find(...)?.teamIndex === userTeamIndex] *)
Definition isUserTurn (st : State) : bool :=
  Board.isUserTurn (draftBoard st) Board.userTeamIndex (currentPick st).

(** The predicate of [players.filter] in [filteredPlayers]. *)
Definition shown (st : State) (player : Player) : bool :=
  let matchesSearch :=
    (Js.includes (Js.toLowerCase (name player)) (Js.toLowerCase (searchTerm st))
     || Js.includes (Js.toLowerCase (team player)) (Js.toLowerCase (searchTerm st)))%bool in
  let matchesPosition :=
    (String.eqb (selectedPosition st) "ALL"
     || String.eqb (position player) (selectedPosition st))%bool in
  (negb (drafted player) && matchesSearch && matchesPosition)%bool.

Definition filteredPlayers (st : State) : list Player :=
  List.filter (shown st) (players st).

(** [filteredPlayers.slice(0, 3)] *)
Definition aiRecommendations (st : State) : list Player :=
  Js.slice0 3 (filteredPlayers st).

(** [{ ...p, drafted: true }] *)
Definition markDrafted (p : Player) : Player :=
  {| id := id p; name := name p; position := position p; team := team p;
     rank := rank p; projected := projected p; drafted := true |}.

(** [handleDraftPlayer] *)
Definition handleDraftPlayer (player : Player) (st : State) : State :=
  if negb (isUserTurn st) then st
  else
    {| currentPick := currentPick st + 1;
       currentRound := currentRound st;
       timeRemaining := 90;
       searchTerm := searchTerm st;
       selectedPosition := selectedPosition st;
       players :=
         List.map (fun p => if String.eqb (id p) (id player) then markDrafted p else p)
                  (players st);
       draftBoard := draftBoard st;
       userRoster := (userRoster st ++ [player])%list |}.

(** [secs.toString().padStart(2, '0')] *)
Definition padStart2 (s : string) : string :=
  match String.length s with
  | 0%nat => "00"
  | 1%nat => "0" +:+ s
  | _ => s
  end.

(** [formatTime] *)
Definition formatTime (seconds : Z) : string :=
  let mins := seconds / 60 in
  let secs := Z.rem seconds 60 in
  Js.showZ mins +:+ ":" +:+ padStart2 (Js.showZ secs).

(** What can happen to the page: the mount effect, a firing of the timer,
    typing in the search box, choosing a position, and a click on a player
    (in the recommendations or in the list; both call
    [handleDraftPlayer], the list only when it is the user's turn). *)
Inductive Event : Type :=
| Mount
| Tick
| Search (term : string)
| SelectPosition (pos : string)
| Click (player : Player).

Definition dispatch (st : State) (e : Event) : State :=
  match e with
  | Mount => mount st
  | Tick => tick st
  | Search term => setSearchTerm term st
  | SelectPosition pos => setSelectedPosition pos st
  | Click player => handleDraftPlayer player st
  end.

Definition play (events : list Event) (st : State) : State :=
  fold_left dispatch events st.

End DraftRoom.


(* ===================================================================== *)
(** * The draft resource routes ([/api/drafts/[id]] and its picks listing) *)
(* ===================================================================== *)

Module DraftsRoute.

Inductive ScoringType : Type := standard | ppr | half_ppr | points | categories.

(** What these handlers answer. *)
Inductive Response : Type :=
| JsonError (error : string) (status : Z)
| JsonDraft (draft : Draft.t)                                (* status 200 *)
| JsonDeleted (deletedId : string)                           (* status 200 *)
| JsonPicks (picks : list (DraftPick.t * option Player.t)).  (* status 200 *)

(** The JSON body of an update, every key optional.  [settings] is an
    opaque bag: only its presence matters here. *)
Record UpdateBody : Type := mkUpdate
  { leagueName : option string;
    numTeams : option Z;
    draftPosition : option Z;
    scoringType : option ScoringType;
    rosterSize : option Z;
    status : option DraftStatus;
    currentRound : option Z;
    currentPick : option Z;
    settings : option unit }.

(** An absent key passes; a present one must satisfy its rule. *)
Definition optional {A : Type} (rule : A -> bool) (field : option A) : bool :=
  match field with
  | Some v => rule v
  | None => true
  end.

(** [updateDraftSchema.safeParse(body).success] *)
Definition updateDraftSchema (b : UpdateBody) : bool :=
  (optional (fun s => Nat.leb (String.length s) 100) (leagueName b)
   && optional (fun n => (4 <=? n) && (n <=? 20)) (numTeams b)
   && optional (fun n => (1 <=? n) && (n <=? 20)) (draftPosition b)
   && optional (fun n => (5 <=? n) && (n <=? 25)) (rosterSize b)
   && optional (fun n => 1 <=? n) (currentRound b)
   && optional (fun n => 1 <=? n) (currentPick b))%bool.

(** No key at all is present. *)
Definition noValues (b : UpdateBody) : bool :=
  match leagueName b, numTeams b, draftPosition b, scoringType b, rosterSize b,
        status b, currentRound b, currentPick b, settings b with
  | None, None, None, None, None, None, None, None, None => true
  | _, _, _, _, _, _, _, _, _ => false
  end.

(** [.set(updateData)] on a row, for the columns kept in [Draft.t]; the
    league name, the scoring type and the settings go to columns that are
    not. *)
Definition applyUpdate (b : UpdateBody) (d : Draft.t) : Draft.t :=
  {| Draft.id := Draft.id d;
     Draft.userId := Draft.userId d;
     Draft.sport := Draft.sport d;
     Draft.draftType := Draft.draftType d;
     Draft.numTeams := default (Draft.numTeams d) (numTeams b);
     Draft.draftPosition := default (Draft.draftPosition d) (draftPosition b);
     Draft.rosterSize := default (Draft.rosterSize d) (rosterSize b);
     Draft.currentRound :=
       match currentRound b with Some r => Some r | None => Draft.currentRound d end;
     Draft.currentPick :=
       match currentPick b with Some p => Some p | None => Draft.currentPick d end;
     Draft.status := default (Draft.status d) (status b) |}.

(** [.where(and(eq(drafts.id, draftId), eq(drafts.userId, userId)))] *)
Definition owned (draftId userId : string) (d : Draft.t) : bool :=
  (String.eqb (Draft.id d) draftId && String.eqb (Draft.userId d) userId)%bool.

(** [db.update(drafts).set(updateData).where(...)] *)
Definition updateOwned (draftId userId : string) (b : UpdateBody) (db : Store.t)
  : Store.t :=
  {| Store.drafts :=
       List.map (fun d => if owned draftId userId d then applyUpdate b d else d)
                (Store.drafts db);
     Store.players := Store.players db;
     Store.draftPicks := Store.draftPicks db;
     Store.nextPickId := Store.nextPickId db |}.

(** [db.delete(drafts).where(...)] when it deletes a row, with the
    [onDelete: 'cascade'] of [draft_picks.draft_id]: the picks that
    reference the deleted draft go with it. *)
Definition deleteOwned (draftId userId : string) (db : Store.t) : Store.t :=
  {| Store.drafts :=
       List.filter (fun d => negb (owned draftId userId d)) (Store.drafts db);
     Store.players := Store.players db;
     Store.draftPicks :=
       List.filter (fun p => negb (String.eqb (DraftPick.draftId p) draftId))
                   (Store.draftPicks db);
     Store.nextPickId := Store.nextPickId db |}.

(** [GET /api/drafts/[id]] *)
Definition GET (req : Route.Request) (draftId : string) (db : Store.t) : Response :=
  if Route.unauthorized req then JsonError "Unauthorized" 401
  else if negb (Route.isUuid draftId) then JsonError "Invalid draft ID" 400
  else match Store.findDraft draftId (Route.userIdOf req) db with
       | None => JsonError "Draft not found" 404
       | Some draft => JsonDraft draft
       end.

(** [PATCH /api/drafts/[id]].  [body] is [None] when [request.json()]
    throws.  An update without any value is refused by the query builder
    ("No values to set") and ends in the [catch]; so does one whose
    [currentRound] or [currentPick], which the schema bounds from below
    only, does not fit its [integer] column.  The answer carries the first
    row [.returning()] gives, the updated [existingDraft]. *)
Definition PATCH (req : Route.Request) (body : option UpdateBody)
    (draftId : string) (db : Store.t) : Response * Store.t :=
  if Route.unauthorized req then (JsonError "Unauthorized" 401, db)
  else if negb (Route.isUuid draftId) then (JsonError "Invalid draft ID" 400, db)
  else
    let userId := Route.userIdOf req in
    match Store.findDraft draftId userId db with
    | None => (JsonError "Draft not found" 404, db)
    | Some existingDraft =>
        match body with
        | None => (JsonError "Failed to update draft" 500, db)
        | Some updateData =>
            if negb (updateDraftSchema updateData)
            then (JsonError "Invalid request" 400, db)
            else
              let numTeams := default (Draft.numTeams existingDraft) (numTeams updateData) in
              let draftPosition :=
                default (Draft.draftPosition existingDraft) (draftPosition updateData) in
              if draftPosition >? numTeams
              then (JsonError "Draft position cannot exceed number of teams" 400, db)
              else if noValues updateData
              then (JsonError "Failed to update draft" 500, db)
              else if negb (Store.int4Null (currentRound updateData)
                            && Store.int4Null (currentPick updateData))
              then (JsonError "Failed to update draft" 500, db)
              else
                (JsonDraft (applyUpdate updateData existingDraft),
                 updateOwned draftId userId updateData db)
        end
    end.

(** [DELETE /api/drafts/[id]] *)
Definition DELETE (req : Route.Request) (draftId : string) (db : Store.t)
  : Response * Store.t :=
  if Route.unauthorized req then (JsonError "Unauthorized" 401, db)
  else if negb (Route.isUuid draftId) then (JsonError "Invalid draft ID" 400, db)
  else
    match Store.findDraft draftId (Route.userIdOf req) db with
    | None => (JsonError "Draft not found" 404, db)
    | Some _ => (JsonDeleted draftId, deleteOwned draftId (Route.userIdOf req) db)
    end.

(** [.leftJoin(players, eq(draftPicks.playerId, players.id))] for one
    pick: a row per matching player, and one row without player when there
    is none. *)
Definition joinPlayer (players : list Player.t) (pick : DraftPick.t)
  : list (DraftPick.t * option Player.t) :=
  match List.filter (fun p => String.eqb (Player.id p) (DraftPick.playerId pick)) players with
  | [] => [(pick, None)]
  | matches => List.map (fun p => (pick, Some p)) matches
  end.

(** [(a, b) => a.pickNumber - b.pickNumber], the order of
    [.orderBy(draftPicks.pickNumber)]; rows with the same pick number are
    kept in stored order. *)
Definition byPickNumber (a b : DraftPick.t * option Player.t) : Z :=
  DraftPick.pickNumber (fst a) - DraftPick.pickNumber (fst b).

(** The query of the picks listing. *)
Definition picksWithPlayers (draftId : string) (db : Store.t)
  : list (DraftPick.t * option Player.t) :=
  Js.sort byPickNumber
    (List.flat_map (joinPlayer (Store.players db)) (Store.picksOf draftId db)).

(** [GET /api/drafts/[id]/picks] *)
Definition GET_picks (req : Route.Request) (draftId : string) (db : Store.t)
  : Response :=
  if Route.unauthorized req then JsonError "Unauthorized" 401
  else if negb (Route.isUuid draftId) then JsonError "Invalid draft ID" 400
  else match Store.findDraft draftId (Route.userIdOf req) db with
       | None => JsonError "Draft not found" 404
       | Some _ => JsonPicks (picksWithPlayers draftId db)
       end.

(** [drafts.id] and [players.id] are primary keys. *)
Definition draftKeysUnique (db : Store.t) : Prop :=
  List.NoDup (List.map Draft.id (Store.drafts db)).

Definition playerKeysUnique (db : Store.t) : Prop :=
  List.NoDup (List.map Player.id (Store.players db)).

End DraftsRoute.


(* ===================================================================== *)
(** * Rate limiting ([lib/rate-limit]) *)
(* ===================================================================== *)

Module RateLimit.

(** [interface RateLimitConfig] *)
Record Config : Type := mkConfig
  { windowMs : Z;
    maxRequests : Z;
    keyPrefix : option string }.

(** A value of [rateLimitStore]. *)
Record Entry : Type := mkEntry
  { count : Z;
    resetTime : Z }.

(** [interface RateLimitResult] *)
Record Result : Type := mkResult
  { success : bool;
    remaining : Z;
    retryAfter : option Z }.

(** [config.keyPrefix ? `${config.keyPrefix}:${identifier}` : identifier] *)
Definition keyOf (config : Config) (identifier : string) : string :=
  match keyPrefix config with
  | Some (String c p) => String c p +:+ ":" +:+ identifier
  | _ => identifier
  end.

(** [Math.ceil(ms / 1000)] on an integer number of milliseconds. *)
Definition ceilSeconds (ms : Z) : Z := (ms + 999) / 1000.

(** [!current || current.resetTime < now]: no window is running. *)
Definition expired (current : option Entry) (now : Z) : bool :=
  match current with
  | None => true
  | Some e => resetTime e <? now
  end.

(** [checkRateLimit], with [Date.now()] and the module's map passed in. *)
Definition checkRateLimit (config : Config) (identifier : string) (now : Z)
    (store : gmap string Entry) : Result * gmap string Entry :=
  let key := keyOf config identifier in
  let current := store !! key in
  match current with
  | Some e =>
      if resetTime e <? now then
        ({| success := true; remaining := maxRequests config - 1; retryAfter := None |},
         <[key := {| count := 1; resetTime := now + windowMs config |}]> store)
      else if count e >=? maxRequests config then
        ({| success := false; remaining := 0;
            retryAfter := Some (ceilSeconds (resetTime e - now)) |},
         store)
      else
        ({| success := true; remaining := maxRequests config - (count e + 1);
            retryAfter := None |},
         <[key := {| count := count e + 1; resetTime := resetTime e |}]> store)
  | None =>
      ({| success := true; remaining := maxRequests config - 1; retryAfter := None |},
       <[key := {| count := 1; resetTime := now + windowMs config |}]> store)
  end.

(** [new RateLimitError(message, retryAfter)] *)
Record RateLimitError : Type := mkError
  { message : string;
    error_retryAfter : Z }.

(** The limiter [createRateLimit(config)] returns: it resolves ([None]) or
    throws. *)
Definition createRateLimit (config : Config) (identifier : string) (now : Z)
    (store : gmap string Entry) : option RateLimitError * gmap string Entry :=
  let key := keyOf config identifier in
  match store !! key with
  | Some e =>
      if resetTime e <? now then
        (None, <[key := {| count := 1; resetTime := now + windowMs config |}]> store)
      else if count e >=? maxRequests config then
        let retryAfter := ceilSeconds (resetTime e - now) in
        (Some {| message := "Rate limit exceeded. Try again in "
                            +:+ Js.showZ retryAfter +:+ " seconds.";
                 error_retryAfter := retryAfter |},
         store)
      else
        (None, <[key := {| count := count e + 1; resetTime := resetTime e |}]> store)
  | None =>
      (None, <[key := {| count := 1; resetTime := now + windowMs config |}]> store)
  end.

(** The periodic cleanup: entries whose window is over are deleted. *)
Definition cleanup (now : Z) (store : gmap string Entry) : gmap string Entry :=
  filter (fun kv => ¬ (resetTime (snd kv) < now)) store.

(** The pre-configured limiters. *)
Definition apiRateLimit : Config := mkConfig 60000 100 (Some "api").
Definition authRateLimit : Config := mkConfig 900000 5 (Some "auth").
Definition draftRateLimit : Config := mkConfig 3600000 10 (Some "draft").
Definition aiRateLimit : Config := mkConfig 60000 20 (Some "ai").

(** Calls for one identifier at the given times, in order; the outcome of
    each. *)
Fixpoint calls (config : Config) (identifier : string) (times : list Z)
    (store : gmap string Entry) : list bool * gmap string Entry :=
  match times with
  | [] => ([], store)
  | now :: rest =>
      let '(r, store') := checkRateLimit config identifier now store in
      let '(rs, store'') := calls config identifier rest store' in
      (success r :: rs, store'')
  end.

End RateLimit.

(* ===================================================================== *)
(** * Plan checks ([lib/subscription]) *)
(* ===================================================================== *)

Module Subscription.

(** [interface UserPlan]; the limits come from [PLAN_LIMITS], [-1] standing
    for no limit on drafts. *)
Record UserPlan : Type := mkPlan
  { planId : string;
    planName : string;
    isProPlan : bool;
    draftsPerMonth : Z;
    aiRecommendationsPerDraft : Z }.

(** [interface DraftAccessResult] *)
Record DraftAccessResult : Type := mkDraftAccess
  { allowed : bool;
    reason : option string;
    draftsUsedThisMonth : Z;
    draftsLimit : Z }.

(** [checkDraftAccess], for the plan [getUserPlan] returned and the count
    [getDraftsCreatedThisMonth] returned. *)
Definition checkDraftAccess (plan : UserPlan) (used : Z) : DraftAccessResult :=
  if draftsPerMonth plan =? -1 then
    {| allowed := true; reason := None;
       draftsUsedThisMonth := used; draftsLimit := -1 |}
  else if used >=? draftsPerMonth plan then
    {| allowed := false;
       reason := Some ("You've reached your monthly limit of "
                       +:+ Js.showZ (draftsPerMonth plan)
                       +:+ " draft(s). Upgrade to Pro for unlimited drafts.");
       draftsUsedThisMonth := used; draftsLimit := draftsPerMonth plan |}
  else
    {| allowed := true; reason := None;
       draftsUsedThisMonth := used; draftsLimit := draftsPerMonth plan |}.

(** [interface AIAccessResult], without the plan it echoes. *)
Record AIAccessResult : Type := mkAIAccess
  { ai_allowed : bool;
    ai_reason : option string }.

(** [checkAIAccess] *)
Definition checkAIAccess (plan : UserPlan) : AIAccessResult :=
  if isProPlan plan then {| ai_allowed := true; ai_reason := None |}
  else {| ai_allowed := false;
          ai_reason := Some "AI draft recommendations are available on the Pro plan. Upgrade to get intelligent player suggestions." |}.

(** The [usage] part of [getSubscriptionStatus]. *)
Record Usage : Type := mkUsage
  { draftsThisMonth : Z;
    usage_draftsLimit : Z;
    draftsRemaining : Z }.

Definition usage (plan : UserPlan) (used : Z) : Usage :=
  {| draftsThisMonth := used;
     usage_draftsLimit := draftsPerMonth plan;
     draftsRemaining :=
       if draftsPerMonth plan =? -1 then -1
       else Z.max 0 (draftsPerMonth plan - used) |}.

End Subscription.

(* ===================================================================== *)
(** * The recommendations route ([/api/drafts/[id]/recommendations]) *)
(* ===================================================================== *)

Module RecsRoute.

(** What the route answers. *)
Inductive Response : Type :=
| JsonError (error : string) (status : Z)
| JsonRateLimited (error : string) (retryAfterHeader : Z)      (* status 429 *)
| JsonRecommendations (result : Recs.RecommendationsResult)
    (currentPick : Z) (userRosterSize availablePlayersCount : nat).  (* status 200 *)

(** [picksWithPlayers.map(p => p.pick.playerId)] *)
Definition draftedPlayerIds (picks : list (DraftPick.t * option Player.t))
  : list string :=
  List.map (fun p => DraftPick.playerId (fst p)) picks.

(** The two selects of available players: those of the draft's sport whose
    id is not among the drafted ones. *)
Definition availablePlayers (draft : Draft.t) (drafted : list string)
    (db : Store.t) : list Player.t :=
  List.filter
    (fun p => Sport_eqb (Player.sport p) (Draft.sport draft)
              && negb (existsb (String.eqb (Player.id p)) drafted))%bool
    (Store.players db).

(** [.filter(p => p.pick.teamNumber === draft.draftPosition && p.player)
     .map(p => p.player!)] *)
Definition userRoster (draft : Draft.t)
    (picks : list (DraftPick.t * option Player.t)) : list Player.t :=
  List.flat_map
    (fun p => match snd p with
              | Some player =>
                  if DraftPick.teamNumber (fst p) =? Draft.draftPosition draft
                  then [player] else []
              | None => []
              end)
    picks.

(** The picks of the draft joined with their players, in stored order (the
    query has no [orderBy]). *)
Definition picksWithPlayers (draftId : string) (db : Store.t)
  : list (DraftPick.t * option Player.t) :=
  List.flat_map (DraftsRoute.joinPlayer (Store.players db)) (Store.picksOf draftId db).

(** [const context: DraftContext = {...}] *)
Definition buildContext (draft : Draft.t) (draftId : string) (db : Store.t)
  : Recs.DraftContext :=
  let picks := picksWithPlayers draftId db in
  {| Recs.draft := draft;
     Recs.picks := picks;
     Recs.availablePlayers := availablePlayers draft (draftedPlayerIds picks) db;
     Recs.userRoster := userRoster draft picks;
     Recs.currentPick := Js.numOr (Draft.currentPick draft) 1;
     Recs.userTeamNumber := Draft.draftPosition draft |}.

(** [GET /api/drafts/[id]/recommendations].  [plan] is what [getUserPlan]
    gives for the user, [now] is [Date.now()], [limits] the limiter's map
    and [run] how the provider behaves. *)
Definition GET (req : Route.Request) (draftId : string)
    (plan : Subscription.UserPlan) (now : Z) (run : Recs.ProviderRun)
    (limits : gmap string RateLimit.Entry) (db : Store.t)
  : Response * gmap string RateLimit.Entry :=
  if Route.unauthorized req then (JsonError "Unauthorized" 401, limits)
  else if negb (Route.isUuid draftId) then (JsonError "Invalid draft ID" 400, limits)
  else
    let userId := Route.userIdOf req in
    if negb (Subscription.ai_allowed (Subscription.checkAIAccess plan))
    then (JsonError "Upgrade required" 403, limits)
    else
      match RateLimit.createRateLimit RateLimit.aiRateLimit userId now limits with
      | (Some rateLimitError, limits') =>
          (JsonRateLimited (RateLimit.message rateLimitError)
             (Js.numOr (Some (RateLimit.error_retryAfter rateLimitError)) 60),
           limits')
      | (None, limits') =>
          match Store.findDraft draftId userId db with
          | None => (JsonError "Draft not found" 404, limits')
          | Some draft =>
              let context := buildContext draft draftId db in
              let result := Recs.generateRecommendations run context in
              (JsonRecommendations result (Recs.currentPick context)
                 (length (Recs.userRoster context))
                 (length (Recs.availablePlayers context)),
               limits')
          end
      end.

End RecsRoute.


(* ===================================================================== *)
(** * Creating a draft ([POST /api/drafts]) and the routes together *)
(* ===================================================================== *)

Module CreateRoute.

(** The JSON body of a creation, every key optional. *)
Record CreateBody : Type := mkCreate
  { sport : option Sport;
    draftType : option DraftType;
    leagueName : option string;
    numTeams : option Z;
    draftPosition : option Z;
    scoringType : option DraftsRoute.ScoringType;
    rosterSize : option Z;
    settings : option unit }.

(** [draftData], the validated body with the defaults filled in; the
    league name, the scoring type and the settings go to columns that
    [Draft.t] does not keep. *)
Record DraftData : Type := mkData
  { data_sport : Sport;
    data_draftType : DraftType;
    data_numTeams : Z;
    data_draftPosition : Z;
    data_rosterSize : Z }.

(** [createDraftSchema.safeParse(body)] *)
Definition createDraftSchema (b : CreateBody) : option DraftData :=
  if (DraftsRoute.optional (fun s => Nat.leb (String.length s) 100) (leagueName b)
      && DraftsRoute.optional (fun n => (4 <=? n) && (n <=? 20)) (numTeams b)
      && DraftsRoute.optional (fun n => (1 <=? n) && (n <=? 20)) (draftPosition b)
      && DraftsRoute.optional (fun n => (5 <=? n) && (n <=? 25)) (rosterSize b))%bool
  then Some {| data_sport := default NBA (sport b);
               data_draftType := default snake (draftType b);
               data_numTeams := default 12 (numTeams b);
               data_draftPosition := default 1 (draftPosition b);
               data_rosterSize := default 13 (rosterSize b) |}
  else None.

(** The row [db.insert(drafts).values({...})] stores: the given columns,
    [status: 'setup'], and the defaults of the table for the round and the
    pick.  [newId] is the primary key the database draws. *)
Definition newDraft (newId userId : string) (d : DraftData) : Draft.t :=
  {| Draft.id := newId;
     Draft.userId := userId;
     Draft.sport := data_sport d;
     Draft.draftType := data_draftType d;
     Draft.numTeams := data_numTeams d;
     Draft.draftPosition := data_draftPosition d;
     Draft.rosterSize := data_rosterSize d;
     Draft.currentRound := Some 1;
     Draft.currentPick := Some 1;
     Draft.status := setup |}.

Definition insertDraft (draft : Draft.t) (db : Store.t) : Store.t :=
  {| Store.drafts := (Store.drafts db ++ [draft])%list;
     Store.players := Store.players db;
     Store.draftPicks := Store.draftPicks db;
     Store.nextPickId := Store.nextPickId db |}.

Inductive Response : Type :=
| JsonError (error : string) (status : Z)
| JsonRateLimited (error : string) (retryAfterHeader : Z)   (* status 429 *)
| JsonLimitReached (message : option string)               (* status 403 *)
| JsonCreated (draft : Draft.t).                           (* status 201 *)

(** [POST /api/drafts].  [plan] and [used] are what [getUserPlan] and
    [getDraftsCreatedThisMonth] give for the user, [now] is [Date.now()],
    [limits] the limiter's map, [body] is [None] when [request.json()]
    throws.  An insert whose key is taken violates the primary key and
    ends in the [catch]. *)
Definition POST (req : Route.Request) (body : option CreateBody)
    (plan : Subscription.UserPlan) (used : Z) (now : Z) (newId : string)
    (limits : gmap string RateLimit.Entry) (db : Store.t)
  : Response * gmap string RateLimit.Entry * Store.t :=
  if Route.unauthorized req then (JsonError "Unauthorized" 401, limits, db)
  else
    let userId := Route.userIdOf req in
    match RateLimit.createRateLimit RateLimit.draftRateLimit userId now limits with
    | (Some rateLimitError, limits') =>
        (JsonRateLimited (RateLimit.message rateLimitError)
           (Js.numOr (Some (RateLimit.error_retryAfter rateLimitError)) 3600),
         limits', db)
    | (None, limits') =>
        let accessCheck := Subscription.checkDraftAccess plan used in
        if negb (Subscription.allowed accessCheck)
        then (JsonLimitReached (Subscription.reason accessCheck), limits', db)
        else
          match body with
          | None => (JsonError "Failed to create draft" 500, limits', db)
          | Some b =>
              match createDraftSchema b with
              | None => (JsonError "Invalid request" 400, limits', db)
              | Some draftData =>
                  if data_draftPosition draftData >? data_numTeams draftData
                  then (JsonError "Draft position cannot exceed number of teams" 400,
                        limits', db)
                  else if existsb (fun d => String.eqb (Draft.id d) newId)
                                  (Store.drafts db)
                  then (JsonError "Failed to create draft" 500, limits', db)
                  else
                    let draft := newDraft newId userId draftData in
                    (JsonCreated draft, limits', insertDraft draft db)
              end
          end
    end.

End CreateRoute.

Module Api.

(** One request to one of the routes that write. *)
Inductive Call : Type :=
| CreateDraft (req : Route.Request) (body : option CreateRoute.CreateBody)
    (plan : Subscription.UserPlan) (used now : Z) (newId : string)
| UpdateDraft (req : Route.Request) (body : option DraftsRoute.UpdateBody)
    (draftId : string)
| DeleteDraft (req : Route.Request) (draftId : string)
| MakePick (req : Route.Request) (draftId : string)
| UndoLastPick (req : Route.Request) (draftId : string).

(** The tables and the draft limiter's map after a call. *)
Definition handle (state : gmap string RateLimit.Entry * Store.t) (call : Call)
  : gmap string RateLimit.Entry * Store.t :=
  let '(limits, db) := state in
  match call with
  | CreateDraft req body plan used now newId =>
      let '(_, limits', db') :=
        CreateRoute.POST req body plan used now newId limits db in
      (limits', db')
  | UpdateDraft req body draftId => (limits, snd (DraftsRoute.PATCH req body draftId db))
  | DeleteDraft req draftId => (limits, snd (DraftsRoute.DELETE req draftId db))
  | MakePick req draftId => (limits, snd (Route.POST req draftId db))
  | UndoLastPick req draftId => (limits, snd (Route.DELETE req draftId db))
  end.

Definition serve (calls : list Call) (state : gmap string RateLimit.Entry * Store.t)
  : gmap string RateLimit.Entry * Store.t :=
  fold_left handle calls state.

(** The configuration of a draft is within the bounds of the schemas. *)
Definition configured (d : Draft.t) : Prop :=
  4 <= Draft.numTeams d <= 20 /\
  1 <= Draft.draftPosition d <= Draft.numTeams d /\
  5 <= Draft.rosterSize d <= 25.

(** Every draft is configured and no two drafts share an id. *)
Definition sound (db : Store.t) : Prop :=
  Forall configured (Store.drafts db) /\ DraftsRoute.draftKeysUnique db.

(** No tables yet, nobody limited. *)
Definition empty : gmap string RateLimit.Entry * Store.t :=
  (∅, {| Store.drafts := []; Store.players := [];
         Store.draftPicks := []; Store.nextPickId := 0 |}).

End Api.


(* ===================================================================== *)
(** * Facts about the snake board *)
(* ===================================================================== *)

Section BoardFacts.
Import Board.

Lemma upfrom_succ_head lo n : upfrom lo (S n) = lo :: upfrom (lo + 1) n.
Proof.
  unfold upfrom. simpl. f_equal; [lia|].
  rewrite <- seq_shift, List.map_map.
  apply List.map_ext. intros i. lia.
Qed.

Lemma upfrom_succ_last lo n :
  upfrom lo (S n) = (upfrom lo n ++ [lo + Z.of_nat n])%list.
Proof.
  unfold upfrom. rewrite seq_S, List.map_app. reflexivity.
Qed.

Lemma in_upfrom lo n x : In x (upfrom lo n) <-> lo <= x < lo + Z.of_nat n.
Proof.
  unfold upfrom. rewrite in_map_iff. split.
  - intros (i & <- & Hi). apply in_seq in Hi. lia.
  - intros H. exists (Z.to_nat (x - lo)). split; [lia|].
    apply in_seq. lia.
Qed.

Lemma in_loop1 hi x : In x (loop1 hi) <-> 1 <= x <= hi.
Proof. unfold loop1. rewrite in_upfrom. lia. Qed.

(** Mirroring an ascending run gives the run backwards. *)
Lemma mirror_upfrom c lo n :
  List.map (fun p => c - p) (upfrom lo n)
  = rev (upfrom (c - lo - Z.of_nat n + 1) n).
Proof.
  revert lo. induction n as [|n IH]; intros lo; [reflexivity|].
  rewrite upfrom_succ_head. simpl List.map. rewrite IH.
  rewrite upfrom_succ_last, rev_app_distr. simpl.
  f_equal; [lia|]. f_equal. f_equal. lia.
Qed.

Lemma mirror_loop1 n :
  List.map (fun p => n - p + 1) (loop1 n) = rev (loop1 n).
Proof.
  unfold loop1.
  rewrite (List.map_ext _ (fun p => (n + 1) - p)) by (intros; lia).
  rewrite mirror_upfrom.
  destruct (Z.le_gt_cases 0 n) as [Hn|Hn].
  - do 2 f_equal. lia.
  - replace (Z.to_nat n) with 0%nat by lia. reflexivity.
Qed.

Lemma find_the_only {A} (f : A -> bool) (l : list A) (x : A) :
  In x l -> f x = true ->
  (forall y, In y l -> f y = true -> y = x) ->
  List.find f l = Some x.
Proof.
  induction l as [|a l IH]; simpl; [tauto|].
  intros Hin Hfx Huniq. destruct (f a) eqn:Ha.
  - f_equal. apply Huniq; auto.
  - destruct Hin as [->|Hin]; [congruence|].
    apply IH; auto.
Qed.

Lemma in_buildBoard numTeams numRounds p :
  In p (buildBoard numTeams numRounds) <->
  exists r k, 1 <= r <= numRounds /\ 1 <= k <= numTeams /\
    p = {| round := r; pick := (r - 1) * numTeams + k;
           teamIndex := snakeTeamIndex numTeams r k |}.
Proof.
  unfold buildBoard, boardRound. rewrite in_flat_map. split.
  - intros (r & Hr & Hp). apply in_map_iff in Hp as (k & <- & Hk).
    exists r, k. rewrite in_loop1 in Hr, Hk. auto.
  - intros (r & k & Hr & Hk & ->). exists r. rewrite in_loop1. split; [auto|].
    apply in_map_iff. exists k. rewrite in_loop1. auto.
Qed.

(** A pick number splits in one way into a round and a place in it. *)
Lemma split_pick numTeams r k pickNumber :
  1 <= k <= numTeams -> (r - 1) * numTeams + k = pickNumber ->
  r = roundOf numTeams pickNumber /\ k = pickInRoundOf numTeams pickNumber.
Proof.
  intros Hk <-. unfold pickInRoundOf, roundOf.
  assert (((r - 1) * numTeams + k + numTeams - 1) / numTeams = r) as ->.
  { replace ((r - 1) * numTeams + k + numTeams - 1)
      with (r * numTeams + (k - 1)) by lia.
    rewrite Z.div_add_l by lia. rewrite Z.div_small; lia. }
  lia.
Qed.

Lemma roundOf_range numTeams numRounds pickNumber :
  1 <= numTeams -> 1 <= pickNumber <= numTeams * numRounds ->
  1 <= roundOf numTeams pickNumber <= numRounds /\
  1 <= pickInRoundOf numTeams pickNumber <= numTeams.
Proof.
  intros Hn Hp. unfold pickInRoundOf, roundOf.
  set (q := (pickNumber + numTeams - 1) / numTeams).
  pose proof (Z.div_mod (pickNumber + numTeams - 1) numTeams ltac:(lia)) as Hdm.
  pose proof (Z.mod_pos_bound (pickNumber + numTeams - 1) numTeams ltac:(lia)) as Hm.
  fold q in Hdm. nia.
Qed.

Lemma snakeTeamIndex_seat numTeams r k :
  1 <= r ->
  snakeTeamIndex numTeams r k + 1 = if Z.odd r then k else numTeams - k + 1.
Proof.
  intros Hr. unfold snakeTeamIndex.
  rewrite Z.rem_mod_nonneg by lia.
  rewrite Zmod_odd. destruct (Z.odd r); simpl; lia.
Qed.

Lemma filter_boardRound numTeams r x :
  List.filter (fun p => round p =? r) (boardRound numTeams x)
  = if x =? r then boardRound numTeams x else [].
Proof.
  unfold boardRound. induction (loop1 numTeams) as [|k ks IHk].
  - destruct (x =? r); reflexivity.
  - simpl. rewrite IHk. destruct (x =? r); reflexivity.
Qed.

Lemma filter_rounds numTeams r rounds :
  List.filter (fun p => round p =? r) (List.flat_map (boardRound numTeams) rounds)
  = List.flat_map (boardRound numTeams) (List.filter (fun x => x =? r) rounds).
Proof.
  induction rounds as [|x rounds IH]; [reflexivity|].
  simpl. rewrite List.filter_app, IH, filter_boardRound.
  destruct (x =? r); reflexivity.
Qed.

Lemma filter_upfrom_eq lo n r :
  lo <= r < lo + Z.of_nat n ->
  List.filter (fun x => x =? r) (upfrom lo n) = [r].
Proof.
  revert lo. induction n as [|n IH]; intros lo Hr; [lia|].
  rewrite upfrom_succ_head. simpl.
  destruct (lo =? r) eqn:Hlo.
  - apply Z.eqb_eq in Hlo. subst lo. f_equal.
    clear IH. assert (forall m lo', r < lo' ->
      List.filter (fun x => x =? r) (upfrom lo' m) = []) as Hnone.
    { induction m as [|m IHm]; intros lo' Hlt; [reflexivity|].
      rewrite upfrom_succ_head. simpl.
      destruct (lo' =? r) eqn:E; [lia|]. apply IHm. lia. }
    apply Hnone. lia.
  - apply IH. lia.
Qed.

Lemma roundSeats_round numTeams numRounds r :
  1 <= r <= numRounds ->
  roundSeats (buildBoard numTeams numRounds) r
  = if Z.odd r then loop1 numTeams else rev (loop1 numTeams).
Proof.
  intros Hr. unfold roundSeats, buildBoard.
  rewrite filter_rounds. unfold loop1 at 1.
  rewrite filter_upfrom_eq by lia. simpl. rewrite List.app_nil_r.
  unfold boardRound. rewrite List.map_map. unfold seatNumber. simpl.
  rewrite (List.map_ext _ (fun k => if Z.odd r then k else numTeams - k + 1))
    by (intros; apply snakeTeamIndex_seat; lia).
  destruct (Z.odd r).
  - apply List.map_id.
  - apply mirror_loop1.
Qed.

End BoardFacts.

(** C3 — snake seats.  In a board of [numTeams] seats, the entry found for a
    valid pick number sits in round [ceil(pickNumber / numTeams)] and its
    seat is the place in the round when the round is odd and
    [numTeams - place + 1] when it is even; an odd round runs through seats
    [1..numTeams] upwards, an even round runs through them downwards, and
    two consecutive rounds read the same forwards and backwards. *)
Theorem snake_board_seats (numTeams numRounds : Z) :
  1 <= numTeams ->
  let board := Board.buildBoard numTeams numRounds in
  (forall pickNumber, 1 <= pickNumber <= numTeams * numRounds ->
     let r := Board.roundOf numTeams pickNumber in
     let k := Board.pickInRoundOf numTeams pickNumber in
     exists entry,
       Board.findPick board pickNumber = Some entry /\
       Board.round entry = r /\
       Board.pick entry = pickNumber /\
       Board.seatNumber entry = if Z.odd r then k else numTeams - k + 1) /\
  (forall r, 1 <= r <= numRounds ->
     Board.roundSeats board r
     = if Z.odd r then Board.loop1 numTeams else rev (Board.loop1 numTeams)) /\
  (forall r, 1 <= r < numRounds ->
     let twoRounds := (Board.roundSeats board r ++ Board.roundSeats board (r + 1))%list in
     rev twoRounds = twoRounds).
Proof.
  intros Hn board. split; [|split].
  - intros pickNumber Hp r k.
    destruct (roundOf_range numTeams numRounds pickNumber Hn Hp) as [Hr Hk].
    fold r in Hr. fold k in Hk.
    exists {| Board.round := r; Board.pick := pickNumber;
              Board.teamIndex := Board.snakeTeamIndex numTeams r k |}.
    assert ((r - 1) * numTeams + k = pickNumber) as Hsplit
      by (unfold k, Board.pickInRoundOf; fold r; lia).
    split; [|split; [reflexivity|split; [reflexivity|]]].
    + apply find_the_only.
      * apply in_buildBoard. exists r, k. rewrite Hsplit. auto.
      * simpl. apply Z.eqb_refl.
      * intros y Hy Hpick. apply in_buildBoard in Hy as (r' & k' & Hr' & Hk' & ->).
        simpl in Hpick. apply Z.eqb_eq in Hpick.
        destruct (split_pick numTeams r' k' pickNumber Hk' Hpick) as [-> ->].
        fold r. fold k. rewrite Hsplit. reflexivity.
    + unfold Board.seatNumber. simpl. apply snakeTeamIndex_seat. lia.
  - intros r Hr. apply roundSeats_round. exact Hr.
  - intros r Hr twoRounds. unfold twoRounds, board.
    rewrite !roundSeats_round by lia.
    replace (Z.odd (r + 1)) with (negb (Z.odd r))
      by (rewrite Z.add_1_r, Z.odd_succ, <- Z.negb_odd; reflexivity).
    destruct (Z.odd r); simpl; rewrite rev_app_distr, ?rev_involutive; reflexivity.
Qed.

Lemma snake_board_seats_witness :
  1 <= 12 /\
  exists entry,
    Board.findPick Board.draftBoard 19 = Some entry /\
    Board.round entry = 2 /\
    Board.pick entry = 19 /\
    Board.seatNumber entry = 6.
Proof.
  split; [lia|].
  exact (proj1 (snake_board_seats 12 16 ltac:(lia)) 19 ltac:(lia)).
Defined.

(** The specification's scenario: twelve teams, pick 19 is seat 6. *)
Example board_pick19 :
  option_map Board.seatNumber (Board.findPick Board.draftBoard 19) = Some 6.
Proof. vm_compute. reflexivity. Qed.

(* ===================================================================== *)
(** * Facts about labels *)
(* ===================================================================== *)

Section LabelFacts.

Lemma chars_app (a b : string) :
  list_ascii_of_string (a +:+ b)
  = (list_ascii_of_string a ++ list_ascii_of_string b)%list.
Proof. induction a as [|c a IH]; simpl; [reflexivity|]. now rewrite IH. Qed.

Lemma chars_inj (a b : string) :
  list_ascii_of_string a = list_ascii_of_string b -> a = b.
Proof.
  intros H. rewrite <- (string_of_list_ascii_of_string a),
    <- (string_of_list_ascii_of_string b). now rewrite H.
Qed.

Lemma uint_chars d : Forall Js.numeric (list_ascii_of_string (NilEmpty.string_of_uint d)).
Proof.
  induction d; simpl; constructor; try assumption;
    unfold Js.numeric; simpl; tauto.
Qed.

Lemma showZ_chars z : Forall Js.numeric (list_ascii_of_string (Js.showZ z)).
Proof.
  unfold Js.showZ, NilZero.string_of_int.
  assert (forall d, Forall Js.numeric (list_ascii_of_string (NilZero.string_of_uint d))) as Hu.
  { intros d. destruct d; try apply uint_chars.
    simpl. constructor; [unfold Js.numeric; simpl; tauto | constructor]. }
  destruct (Z.to_int z); simpl; [apply Hu|].
  constructor; [unfold Js.numeric; simpl; tauto | apply Hu].
Qed.

(** Two lists cut at the first occurrence of [x] agree on both sides. *)
Lemma cut_at_first {A} (x : A) (l1 l2 r1 r2 : list A) :
  ~ In x l1 -> ~ In x l2 ->
  (l1 ++ x :: r1 = l2 ++ x :: r2)%list -> l1 = l2 /\ r1 = r2.
Proof.
  revert l2. induction l1 as [|a l1 IH]; intros [|b l2] H1 H2 E; simpl in *.
  - inversion E. auto.
  - inversion E; subst. tauto.
  - inversion E; subst. tauto.
  - inversion E; subst. destruct (IH l2) as [-> ->]; auto.
Qed.

Lemma numeric_not_paren l : Forall Js.numeric l -> ~ In "("%char l.
Proof.
  intros H Hin. rewrite List.Forall_forall in H. specialize (H _ Hin).
  unfold Js.numeric in H. simpl in H.
  repeat (destruct H as [H|H]; [discriminate H|]). exact H.
Qed.

Lemma strengthLabel_chars pos c :
  rev (list_ascii_of_string (Roster.strengthLabel pos c))
  = ((")"%char :: rev (list_ascii_of_string (Js.showZ c)))
     ++ "("%char :: " "%char :: rev (list_ascii_of_string pos))%list.
Proof.
  unfold Roster.strengthLabel. rewrite !chars_app.
  repeat (rewrite rev_app_distr; simpl).
  rewrite <- ?List.app_assoc. reflexivity.
Qed.

Lemma strengthLabel_pos pos pos' c c' :
  Roster.strengthLabel pos c = Roster.strengthLabel pos' c' -> pos = pos'.
Proof.
  intros E. apply (f_equal (fun s => rev (list_ascii_of_string s))) in E.
  rewrite !strengthLabel_chars in E.
  apply cut_at_first in E as [_ E].
  - inversion E as [E']. apply chars_inj.
    rewrite <- (rev_involutive (list_ascii_of_string pos)), E'.
    apply rev_involutive.
  - intros [H|H]; [discriminate|].
    apply in_rev in H. revert H. apply numeric_not_paren, showZ_chars.
  - intros [H|H]; [discriminate|].
    apply in_rev in H. revert H. apply numeric_not_paren, showZ_chars.
Qed.

Lemma needLabel_chars pos c i :
  rev (list_ascii_of_string (Roster.needLabel pos c i))
  = ((")"%char :: rev (list_ascii_of_string (Js.showZ i))
      ++ list_ascii_of_string " deen ,"
      ++ rev (list_ascii_of_string (Js.showZ c))
      ++ list_ascii_of_string " evah")
     ++ "("%char :: " "%char :: rev (list_ascii_of_string pos))%list.
Proof.
  unfold Roster.needLabel. rewrite !chars_app.
  repeat (rewrite rev_app_distr; simpl).
  rewrite <- ?List.app_assoc. simpl. rewrite <- ?List.app_assoc. reflexivity.
Qed.

Lemma needLabel_no_paren c i :
  ~ In "("%char
      (")"%char :: rev (list_ascii_of_string (Js.showZ i))
       ++ list_ascii_of_string " deen ,"
       ++ rev (list_ascii_of_string (Js.showZ c))
       ++ list_ascii_of_string " evah")%list.
Proof.
  intros [H|H]; [discriminate|].
  rewrite !in_app_iff in H. destruct H as [H|[H|[H|H]]].
  - apply in_rev in H. revert H. apply numeric_not_paren, showZ_chars.
  - simpl in H. repeat (destruct H as [H|H]; [discriminate H|]). exact H.
  - apply in_rev in H. revert H. apply numeric_not_paren, showZ_chars.
  - simpl in H. repeat (destruct H as [H|H]; [discriminate H|]). exact H.
Qed.

Lemma needLabel_pos pos pos' c c' i i' :
  Roster.needLabel pos c i = Roster.needLabel pos' c' i' -> pos = pos'.
Proof.
  intros E. apply (f_equal (fun s => rev (list_ascii_of_string s))) in E.
  rewrite !needLabel_chars in E.
  apply cut_at_first in E as [_ E]; try apply needLabel_no_paren.
  inversion E as [E']. apply chars_inj.
  rewrite <- (rev_involutive (list_ascii_of_string pos)), E'.
  apply rev_involutive.
Qed.

(** A need label ends with a closing parenthesis; the sentinel does not. *)
Lemma needLabel_not_balanced pos c i : Roster.needLabel pos c i <> Roster.balanced.
Proof.
  intros E. apply (f_equal (fun s => rev (list_ascii_of_string s))) in E.
  rewrite needLabel_chars in E. simpl in E. discriminate E.
Qed.

End LabelFacts.

(* ===================================================================== *)
(** * Facts about the roster analyzer *)
(* ===================================================================== *)

Section RosterFacts.
Import Roster.

Lemma countPosition_lookup (counts : gmap string Z) player pos :
  default 0 (countPosition counts player !! pos)
  = default 0 (counts !! pos)
    + (if String.eqb (primaryPosition player) pos then 1 else 0).
Proof.
  unfold countPosition.
  destruct (String.eqb_spec (primaryPosition player) pos) as [->|Hne].
  - rewrite lookup_insert_eq. reflexivity.
  - rewrite lookup_insert_ne by exact Hne. simpl. lia.
Qed.

Lemma fold_countPosition_lookup roster (counts : gmap string Z) pos :
  default 0 (fold_left countPosition roster counts !! pos)
  = default 0 (counts !! pos) + countAt roster pos.
Proof.
  revert counts. unfold countAt.
  induction roster as [|player roster IH]; intros counts; simpl; [lia|].
  rewrite IH, countPosition_lookup.
  destruct (String.eqb (primaryPosition player) pos); simpl length; lia.
Qed.

(** The counter holds, for every label, the number of players there. *)
Lemma positionCounts_lookup roster pos :
  default 0 (positionCounts roster !! pos) = countAt roster pos.
Proof.
  unfold positionCounts. rewrite fold_countPosition_lookup.
  rewrite lookup_empty. reflexivity.
Qed.

Lemma classify_step roster strengths0 needs0 entry :
  classify (positionCounts roster) (strengths0, needs0) entry
  = ((strengths0 ++ (if meetsIdeal roster entry
                     then [strengthOf roster entry] else []))%list,
     (needs0 ++ (if wellShort roster entry
                 then [needOf roster entry] else []))%list).
Proof.
  destruct entry as [pos i].
  unfold classify, wellShort, meetsIdeal, strengthOf, needOf.
  rewrite positionCounts_lookup. simpl.
  destruct (countAt roster pos >=? i); simpl.
  - rewrite ?List.app_nil_r. reflexivity.
  - destruct (countAt roster pos <? i - 1); rewrite ?List.app_nil_r; reflexivity.
Qed.

(** The second loop, in closed form. *)
Lemma fold_classify roster ideal strengths0 needs0 :
  fold_left (classify (positionCounts roster)) ideal (strengths0, needs0)
  = ((strengths0 ++ List.map (strengthOf roster)
                      (List.filter (meetsIdeal roster) ideal))%list,
     (needs0 ++ List.map (needOf roster)
                  (List.filter (wellShort roster) ideal))%list).
Proof.
  revert strengths0 needs0.
  induction ideal as [|entry ideal IH]; intros strengths0 needs0.
  - simpl. now rewrite !List.app_nil_r.
  - cbn [fold_left List.filter]. rewrite classify_step, IH.
    destruct (meetsIdeal roster entry), (wellShort roster entry);
      cbn [List.map]; rewrite <- ?List.app_assoc, ?List.app_nil_r; reflexivity.
Qed.

Lemma analyzeRosterWith_closed ideal roster :
  analyzeRosterWith ideal roster
  = {| strengths := List.map (strengthOf roster)
                      (List.filter (meetsIdeal roster) ideal);
       needs :=
         match List.filter (wellShort roster) ideal with
         | [] => [balanced]
         | flagged => List.map (needOf roster) flagged
         end |}.
Proof.
  unfold analyzeRosterWith. rewrite fold_classify. simpl.
  destruct (List.filter (wellShort roster) ideal); reflexivity.
Qed.

(** The analysis looks at the roster only through the counts at the
    positions of the table. *)
Lemma analyzeRosterWith_counts ideal roster1 roster2 :
  (forall pos i, In (pos, i) ideal -> countAt roster1 pos = countAt roster2 pos) ->
  analyzeRosterWith ideal roster1 = analyzeRosterWith ideal roster2.
Proof.
  intros Hc. rewrite !analyzeRosterWith_closed.
  assert (List.filter (meetsIdeal roster1) ideal
          = List.filter (meetsIdeal roster2) ideal) as ->.
  { apply List.filter_ext_in. intros [pos i] Hin.
    unfold meetsIdeal. simpl. now rewrite (Hc pos i Hin). }
  assert (List.filter (wellShort roster1) ideal
          = List.filter (wellShort roster2) ideal) as ->.
  { apply List.filter_ext_in. intros [pos i] Hin.
    unfold wellShort, meetsIdeal. simpl. now rewrite (Hc pos i Hin). }
  f_equal.
  - apply List.map_ext_in. intros [pos i] Hin.
    apply filter_In in Hin as [Hin _].
    unfold strengthOf. simpl. now rewrite (Hc pos i Hin).
  - destruct (List.filter (wellShort roster2) ideal) as [|e flagged] eqn:Hf;
      [reflexivity|].
    apply List.map_ext_in. intros [pos i] Hin.
    rewrite <- Hf in Hin. apply filter_In in Hin as [Hin _].
    unfold needOf. simpl. now rewrite (Hc pos i Hin).
Qed.

Lemma key_unique (ideal : list (string * Z)) pos i i' :
  List.NoDup (List.map fst ideal) -> In (pos, i) ideal -> In (pos, i') ideal -> i = i'.
Proof.
  induction ideal as [|[p j] ideal IH]; simpl; [tauto|].
  intros Hnd [E|Hin] [E'|Hin']; inversion Hnd as [|? ? Hnotin Hnd']; subst.
  - congruence.
  - inversion E; subst. exfalso. apply Hnotin.
    apply in_map_iff. exists (pos, i'). auto.
  - inversion E'; subst. exfalso. apply Hnotin.
    apply in_map_iff. exists (pos, i). auto.
  - auto.
Qed.

Lemma countAt_core roster pos :
  In pos corePositions ->
  countAt (List.filter isCore roster) pos = countAt roster pos.
Proof.
  intros Hpos. unfold countAt. f_equal. f_equal.
  induction roster as [|p roster IH]; [reflexivity|].
  simpl. destruct (isCore p) eqn:Hcore; simpl.
  - now rewrite IH.
  - rewrite IH. destruct (String.eqb_spec (primaryPosition p) pos) as [E|]; [|reflexivity].
    exfalso. unfold isCore in Hcore.
    assert (existsb (String.eqb (primaryPosition p)) corePositions = true) as Ht.
    { apply existsb_exists. exists pos. split; [exact Hpos|].
      rewrite E. apply String.eqb_refl. }
    congruence.
Qed.

Lemma countAt_no_core roster pos :
  (forall p, In p roster -> isCore p = false) ->
  In pos corePositions -> countAt roster pos = 0.
Proof.
  intros Hnone Hpos. rewrite <- countAt_core by exact Hpos.
  replace (List.filter isCore roster) with (@nil Player.t); [reflexivity|].
  symmetry. induction roster as [|p roster IH]; [reflexivity|].
  simpl. rewrite (Hnone p) by (left; reflexivity).
  apply IH. intros q Hq. apply Hnone. right. exact Hq.
Qed.

End RosterFacts.

(** C8 — roster analysis.  For a composition table with distinct positions
    and any roster, with players counted by primary position: the strengths
    are the labels of the entries whose count reaches the ideal, in table
    order; the needs are the labels of the entries whose count is below the
    ideal minus one, and the single sentinel when there is no such entry;
    so a position is reported as a strength exactly when its count is at
    least the ideal, as a need exactly when its count is below the ideal
    minus one, and a position exactly one short is in neither list. *)
Theorem analyzeRoster_strengths_and_needs
    (ideal : list (string * Z)) (roster : list Player.t) :
  List.NoDup (List.map fst ideal) ->
  let analysis := Roster.analyzeRosterWith ideal roster in
  let count := Roster.countAt roster in
  let flagged := List.filter (fun e => count (fst e) <? snd e - 1) ideal in
  Roster.strengths analysis
  = List.map (fun e => Roster.strengthLabel (fst e) (count (fst e)))
             (List.filter (fun e => count (fst e) >=? snd e) ideal) /\
  Roster.needs analysis
  = match flagged with
    | [] => [Roster.balanced]
    | _ => List.map (fun e => Roster.needLabel (fst e) (count (fst e)) (snd e)) flagged
    end /\
  (forall pos i, In (pos, i) ideal ->
     (In (Roster.strengthLabel pos (count pos)) (Roster.strengths analysis)
      <-> count pos >= i) /\
     (In (Roster.needLabel pos (count pos) i) (Roster.needs analysis)
      <-> count pos < i - 1) /\
     (count pos = i - 1 ->
      ~ In (Roster.strengthLabel pos (count pos)) (Roster.strengths analysis) /\
      ~ In (Roster.needLabel pos (count pos) i) (Roster.needs analysis))) /\
  ((forall pos i, In (pos, i) ideal -> ~ count pos < i - 1) ->
   Roster.needs analysis = [Roster.balanced]).
Proof.
  intros Hnd analysis count flagged.
  assert (List.filter (Roster.wellShort roster) ideal = flagged) as Hflag.
  { apply List.filter_ext. intros [pos i]. unfold Roster.wellShort, Roster.meetsIdeal.
    simpl. fold count.
    destruct (Z.geb_spec (count pos) i), (Z.ltb_spec (count pos) (i - 1));
      simpl; try reflexivity; lia. }
  assert (Roster.strengths analysis
          = List.map (fun e => Roster.strengthLabel (fst e) (count (fst e)))
              (List.filter (fun e => count (fst e) >=? snd e) ideal)) as Hs.
  { unfold analysis. rewrite analyzeRosterWith_closed. reflexivity. }
  assert (Roster.needs analysis
          = match flagged with
            | [] => [Roster.balanced]
            | _ => List.map
                     (fun e => Roster.needLabel (fst e) (count (fst e)) (snd e)) flagged
            end) as Hn.
  { unfold analysis. rewrite analyzeRosterWith_closed. cbn [Roster.needs].
    rewrite Hflag. destruct flagged; reflexivity. }
  assert (forall pos i, In (pos, i) ideal ->
            (In (Roster.strengthLabel pos (count pos)) (Roster.strengths analysis)
             <-> count pos >= i)) as Hstrength.
  { intros pos i Hin. rewrite Hs, in_map_iff. split.
    - intros ([pos' i'] & E & Hf). simpl in E.
      apply strengthLabel_pos in E. subst pos'.
      apply filter_In in Hf as [Hin' Hge]. simpl in Hge.
      rewrite (key_unique ideal pos i i' Hnd Hin Hin').
      apply Z.geb_le in Hge. lia.
    - intros Hge. exists (pos, i). split; [reflexivity|].
      apply filter_In. split; [exact Hin|]. simpl. apply Z.geb_le. lia. }
  assert (forall pos i, In (pos, i) ideal ->
            (In (Roster.needLabel pos (count pos) i) (Roster.needs analysis)
             <-> count pos < i - 1)) as Hneed.
  { intros pos i Hin. rewrite Hn. split.
    - intros Hl. destruct flagged as [|e fl] eqn:Hfl.
      + destruct Hl as [E|[]]. symmetry in E.
        exfalso. exact (needLabel_not_balanced _ _ _ E).
      + rewrite <- Hfl in Hl. apply in_map_iff in Hl as ([pos' i'] & E & Hf).
        simpl in E. apply needLabel_pos in E. subst pos'.
        unfold flagged in Hf. apply filter_In in Hf as [Hin' Hlt]. simpl in Hlt.
        rewrite (key_unique ideal pos i i' Hnd Hin Hin').
        apply Z.ltb_lt in Hlt. exact Hlt.
    - intros Hlt.
      assert (In (pos, i) flagged) as Hf.
      { apply filter_In. split; [exact Hin|]. simpl. apply Z.ltb_lt. exact Hlt. }
      destruct flagged as [|e fl] eqn:Hfl; [destruct Hf|].
      rewrite <- Hfl. apply in_map_iff. exists (pos, i). split; [reflexivity|].
      rewrite Hfl. exact Hf. }
  split; [exact Hs|]. split; [exact Hn|]. split.
  - intros pos i Hin. split; [apply Hstrength; exact Hin|].
    split; [apply Hneed; exact Hin|].
    intros Hone. rewrite (Hstrength pos i Hin), (Hneed pos i Hin). lia.
  - intros Hnone. rewrite Hn.
    destruct flagged as [|[pos i] fl] eqn:Hfl; [reflexivity|].
    exfalso. assert (In (pos, i) flagged) as Hf by (rewrite Hfl; left; reflexivity).
    unfold flagged in Hf. apply filter_In in Hf as [Hin Hlt]. simpl in Hlt.
    apply Z.ltb_lt in Hlt. exact (Hnone pos i Hin Hlt).
Qed.

Lemma analyzeRoster_strengths_and_needs_witness :
  let pg := Player.mk "p1" NBA "Guard One" (Some "BOS") (Some "PG") (Some 4) in
  let c := Player.mk "p2" NBA "Big Man" (Some "DEN") (Some "C") (Some 9) in
  List.NoDup (List.map fst Roster.IDEAL_ROSTER_COMPOSITION) /\
  Roster.strengths (Roster.analyzeRoster [pg; c; pg]) = ["PG (2)"] /\
  Roster.needs (Roster.analyzeRoster [pg; c; pg])
  = ["SG (have 0, need 2)"; "SF (have 0, need 2)"; "PF (have 0, need 2)"].
Proof.
  intros pg c.
  assert (List.NoDup (List.map fst Roster.IDEAL_ROSTER_COMPOSITION)) as Hnd.
  { repeat constructor; simpl; intuition discriminate. }
  split; [exact Hnd|].
  pose proof (analyzeRoster_strengths_and_needs
                Roster.IDEAL_ROSTER_COMPOSITION [pg; c; pg] Hnd) as H.
  split; [exact (proj1 H) | exact (proj1 (proj2 H))].
Defined.

(** C10 (as the code has it) — the table is the five positions PG, SG, SF,
    PF, C with ideal 2 each; players at other positions change nothing in
    the analysis; and a roster without any player at the five positions has
    no strengths and all five positions as needs, each "have 0, need 2". *)
Theorem analyzeRoster_fixed_table (roster : list Player.t) :
  Roster.IDEAL_ROSTER_COMPOSITION
  = [("PG", 2); ("SG", 2); ("SF", 2); ("PF", 2); ("C", 2)] /\
  Roster.analyzeRoster roster
  = Roster.analyzeRoster (List.filter Roster.isCore roster) /\
  ((forall p, In p roster -> Roster.isCore p = false) ->
   Roster.analyzeRoster roster
   = {| Roster.strengths := [];
        Roster.needs := ["PG (have 0, need 2)"; "SG (have 0, need 2)";
                         "SF (have 0, need 2)"; "PF (have 0, need 2)";
                         "C (have 0, need 2)"] |}).
Proof.
  assert (forall pos i, In (pos, i) Roster.IDEAL_ROSTER_COMPOSITION ->
                        In pos Roster.corePositions) as Hcore.
  { intros pos i Hin. unfold Roster.corePositions.
    apply in_map_iff. exists (pos, i). auto. }
  split; [reflexivity|]. split.
  - unfold Roster.analyzeRoster. apply analyzeRosterWith_counts.
    intros pos i Hin. symmetry. apply countAt_core. exact (Hcore pos i Hin).
  - intros Hnone.
    transitivity (Roster.analyzeRoster []); [|vm_compute; reflexivity].
    unfold Roster.analyzeRoster. apply analyzeRosterWith_counts.
    intros pos i Hin. rewrite countAt_no_core; [reflexivity|exact Hnone|].
    exact (Hcore pos i Hin).
Qed.

Lemma analyzeRoster_fixed_table_witness :
  let qb := Player.mk "p7" NFL "Field General" (Some "KC") (Some "QB") (Some 12) in
  (forall p, In p [qb] -> Roster.isCore p = false) /\
  Roster.analyzeRoster [qb]
  = {| Roster.strengths := [];
       Roster.needs := ["PG (have 0, need 2)"; "SG (have 0, need 2)";
                        "SF (have 0, need 2)"; "PF (have 0, need 2)";
                        "C (have 0, need 2)"] |}.
Proof.
  intros qb.
  assert (forall p, In p [qb] -> Roster.isCore p = false) as Hnone.
  { intros p [<-|[]]. reflexivity. }
  split; [exact Hnone|].
  exact (proj2 (proj2 (analyzeRoster_fixed_table [qb])) Hnone).
Defined.

(** C10 as stated fails: a roster with a single quarterback has no player
    at the five positions, yet its needs are not the balanced sentinel. *)
Lemma nfl_roster_is_not_balanced :
  let qb := Player.mk "p7" NFL "Field General" (Some "KC") (Some "QB") (Some 12) in
  (forall p, In p [qb] -> ~ In (Roster.primaryPosition p) ["PG"; "SG"; "SF"; "PF"; "C"]) /\
  Roster.strengths (Roster.analyzeRoster [qb]) = [] /\
  Roster.needs (Roster.analyzeRoster [qb]) <> [Roster.balanced].
Proof.
  intros qb. split; [|split].
  - intros p [<-|[]]. simpl. intuition discriminate.
  - vm_compute. reflexivity.
  - vm_compute. discriminate.
Qed.

(* ===================================================================== *)
(** * Facts about sorting and the recommendation fallbacks *)
(* ===================================================================== *)

Lemma in_firstn_in {A} (n : nat) (l : list A) x : In x (firstn n l) -> In x l.
Proof.
  intros H. rewrite <- (firstn_skipn n l). apply in_or_app. now left.
Qed.

Lemma in_skipn_in {A} (n : nat) (l : list A) x : In x (skipn n l) -> In x l.
Proof.
  intros H. rewrite <- (firstn_skipn n l). apply in_or_app. now right.
Qed.

Section SortFacts.
Context {A : Type} (cmp : A -> A -> Z) (key : A -> Z).
Hypothesis cmp_key : forall a b, cmp a b = key a - key b.

Local Abbreviation le := (Js.keyLe key).

Lemma insert_perm x l : Permutation (Js.insert cmp x l) (x :: l).
Proof.
  induction l as [|y l IH]; simpl; [reflexivity|].
  destruct (cmp x y <=? 0); [reflexivity|].
  rewrite IH. apply perm_swap.
Qed.

Lemma sort_perm l : Permutation (Js.sort cmp l) l.
Proof.
  induction l as [|x l IH]; simpl; [reflexivity|].
  rewrite insert_perm. now apply perm_skip.
Qed.

Lemma insert_sorted x l :
  StronglySorted le l -> StronglySorted le (Js.insert cmp x l).
Proof.
  induction 1 as [|y l Hs IH Hy]; simpl.
  - repeat constructor.
  - destruct (Z.leb_spec (cmp x y) 0) as [Hle|Hgt]; rewrite cmp_key in *.
    + constructor; [constructor; assumption|].
      constructor; [unfold Js.keyLe; lia|].
      eapply List.Forall_impl; [|exact Hy]. unfold Js.keyLe. intros; lia.
    + constructor; [exact IH|].
      eapply Permutation_Forall; [symmetry; apply insert_perm|].
      constructor; [unfold Js.keyLe; lia | exact Hy].
Qed.

Lemma sort_sorted l : StronglySorted le (Js.sort cmp l).
Proof.
  induction l as [|x l IH]; simpl; [constructor|].
  now apply insert_sorted.
Qed.

(** Elements with the same key keep the order they came in. *)
Lemma insert_stable v x l :
  List.filter (fun a => key a =? v) (Js.insert cmp x l)
  = List.filter (fun a => key a =? v) (x :: l).
Proof.
  induction l as [|y l IH]; simpl; [reflexivity|].
  destruct (Z.leb_spec (cmp x y) 0) as [Hle|Hgt]; [reflexivity|].
  rewrite cmp_key in Hgt. simpl. rewrite IH. simpl.
  destruct (Z.eqb_spec (key x) v), (Z.eqb_spec (key y) v); try reflexivity; lia.
Qed.

Lemma sort_stable v l :
  List.filter (fun a => key a =? v) (Js.sort cmp l)
  = List.filter (fun a => key a =? v) l.
Proof.
  induction l as [|x l IH]; simpl; [reflexivity|].
  rewrite insert_stable. simpl. now rewrite IH.
Qed.

(** In a sorted list nothing after a cut is below anything before it. *)
Lemma sorted_cut n l p q :
  StronglySorted le l -> In p (firstn n l) -> In q (skipn n l) -> key p <= key q.
Proof.
  intros Hs. revert n. induction Hs as [|x l Hs IH Hx]; intros n Hp Hq.
  - destruct n; destruct Hp.
  - destruct n as [|n]; [destruct Hp|]. simpl in Hp, Hq.
    destruct Hp as [->|Hp].
    + rewrite List.Forall_forall in Hx.
      apply Hx. eapply in_skipn_in; eauto.
    + eapply IH; eauto.
Qed.

Lemma sorted_firstn n l : StronglySorted le l -> StronglySorted le (firstn n l).
Proof.
  intros Hs. revert n. induction Hs as [|x l Hs IH Hx]; intros [|n]; simpl;
    try constructor.
  - apply IH.
  - rewrite List.Forall_forall in *. intros y Hy. apply Hx.
    eapply in_firstn_in; eauto.
Qed.

(** A list in ascending order of the key is determined by the elements it
    has under each key, in their order: there is one stable ascending
    arrangement of a list. *)
Lemma sorted_by_keys_unique l1 l2 :
  StronglySorted le l1 -> StronglySorted le l2 ->
  (forall v, List.filter (fun a => key a =? v) l1
             = List.filter (fun a => key a =? v) l2) ->
  l1 = l2.
Proof.
  intros Hs1. revert l2. induction Hs1 as [|x l1 Hs1 IH Hx]; intros l2 Hs2 Hsame.
  - destruct l2 as [|y l2]; [reflexivity|].
    specialize (Hsame (key y)). simpl in Hsame.
    rewrite Z.eqb_refl in Hsame. discriminate.
  - destruct l2 as [|y l2].
    { specialize (Hsame (key x)). simpl in Hsame.
      rewrite Z.eqb_refl in Hsame. discriminate. }
    inversion Hs2 as [|? ? Hs2' Hy]; subst.
    rewrite List.Forall_forall in Hx, Hy.
    destruct (Z.eq_dec (key y) (key x)) as [E|Hne].
    + pose proof (Hsame (key x)) as Hk. simpl in Hk.
      rewrite Z.eqb_refl in Hk. rewrite (proj2 (Z.eqb_eq _ _) E) in Hk.
      injection Hk as -> Hk. f_equal. apply IH; [exact Hs2'|].
      intros v. specialize (Hsame v). simpl in Hsame.
      destruct (key y =? v); [injection Hsame as Hsame|]; exact Hsame.
    + exfalso.
      assert (In y l1) as Hy1.
      { pose proof (Hsame (key y)) as Hk. simpl in Hk.
        rewrite Z.eqb_refl in Hk.
        rewrite (proj2 (Z.eqb_neq _ _) (fun E => Hne (eq_sym E))) in Hk.
        assert (In y (List.filter (fun a => key a =? key y) l1)) as Hin
          by (rewrite Hk; left; reflexivity).
        apply filter_In in Hin. tauto. }
      assert (In x l2) as Hx2.
      { pose proof (Hsame (key x)) as Hk. simpl in Hk.
        rewrite Z.eqb_refl in Hk.
        rewrite (proj2 (Z.eqb_neq _ _) Hne) in Hk.
        assert (In x (List.filter (fun a => key a =? key x) l2)) as Hin
          by (rewrite <- Hk; left; reflexivity).
        apply filter_In in Hin. tauto. }
      specialize (Hx y Hy1). specialize (Hy x Hx2). unfold Js.keyLe in *. lia.
Qed.

End SortFacts.

Section RecsFacts.
Import Recs.

Lemma byAdp_key a b : byAdp a b = adpKey a - adpKey b.
Proof. reflexivity. Qed.

Lemma sortedByAdp_perm players :
  Permutation (sortedByAdp players) (List.filter hasAdp players).
Proof. apply sort_perm. Qed.

Lemma sortedByAdp_sorted players : StronglySorted adpLe (sortedByAdp players).
Proof. apply (sort_sorted byAdp adpKey byAdp_key). Qed.

Lemma in_sortedByAdp players p :
  In p (sortedByAdp players) <-> In p players /\ hasAdp p = true.
Proof.
  rewrite <- filter_In. split; apply Permutation_in;
    [|symmetry]; apply sortedByAdp_perm.
Qed.

(** What the first [n] of the sorted chain are. *)
Lemma top_by_adp n players :
  let top := Js.slice0 n (sortedByAdp players) in
  length top = Nat.min n (length (List.filter hasAdp players)) /\
  (forall p, In p top -> In p players /\ Player.adp p <> None) /\
  StronglySorted adpLe top /\
  (forall p q, In p top -> In q players -> Player.adp q <> None ->
               ~ In q top -> adpKey p <= adpKey q).
Proof.
  intros top. unfold top, Js.slice0. repeat split.
  - rewrite length_firstn. f_equal.
    apply Permutation_length, sortedByAdp_perm.
  - apply in_firstn_in, in_sortedByAdp in H. tauto.
  - apply in_firstn_in, in_sortedByAdp in H as [_ H].
    unfold hasAdp in H. destruct (Player.adp p); congruence.
  - apply (sorted_firstn adpKey), sortedByAdp_sorted.
  - intros p q Hp Hq Hadp Hnot.
    apply (sorted_cut adpKey n (sortedByAdp players)); auto.
    + apply sortedByAdp_sorted.
    + assert (In q (sortedByAdp players)) as Hin.
      { apply in_sortedByAdp. split; [exact Hq|].
        unfold hasAdp. destruct (Player.adp q); congruence. }
      rewrite <- (firstn_skipn n) in Hin. apply in_app_or in Hin. tauto.
Qed.

Lemma adpKey_adp p a : Player.adp p = Some a -> a <> 0 -> adpKey p = a.
Proof.
  intros E Ha. unfold adpKey. rewrite E. destruct a; simpl; congruence.
Qed.

Lemma nth_error_mapi_from {X Y} (f : X -> Z -> Y) i l (k : nat) :
  nth_error (Js.mapi_from f i l) k
  = option_map (fun x => f x (i + Z.of_nat k)) (nth_error l k).
Proof.
  revert i k. induction l as [|x l IH]; intros i [|k]; simpl; try reflexivity.
  - now rewrite Z.add_0_r.
  - rewrite IH. destruct (nth_error l k); simpl; [|reflexivity].
    do 2 f_equal. lia.
Qed.

Lemma map_mapi_from {X Y W} (f : X -> Z -> Y) (g : Y -> W) (h : X -> W) i l :
  (forall x j, g (f x j) = h x) ->
  List.map g (Js.mapi_from f i l) = List.map h l.
Proof.
  intros Hgf. revert i. induction l as [|x l IH]; intros i; simpl; [reflexivity|].
  now rewrite Hgf, IH.
Qed.

Lemma fold_push {X Y} (f : X -> Y) l acc :
  fold_left (fun acc x => (acc ++ [f x])%list) l acc = (acc ++ List.map f l)%list.
Proof.
  revert acc. induction l as [|x l IH]; intros acc; simpl.
  - now rewrite List.app_nil_r.
  - rewrite IH, <- List.app_assoc. reflexivity.
Qed.

(** When nothing usable came out of the parse, the answer is the
    [bestAvailableRec] of the first five, whatever the matcher. *)
Lemma parseAIResponse_zero matches decoded context :
  zeroUsableWith matches decoded (availablePlayers context) ->
  recommendations (parseAIResponseWith matches decoded (availablePlayers context))
  = List.map bestAvailableRec (topFive context).
Proof.
  unfold zeroUsableWith, parseAIResponseWith, topFive.
  destruct decoded as [parsed|]; [|reflexivity].
  intros ->. cbn [length Nat.eqb recommendations]. rewrite fold_push.
  cbn [app]. unfold Js.slice0. apply firstn_all2.
  rewrite length_map. apply firstn_le_length.
Qed.

Lemma sortedByAdp_stable players key :
  List.filter (fun p => adpKey p =? key) (sortedByAdp players)
  = List.filter (fun p => adpKey p =? key) (List.filter hasAdp players).
Proof. apply (sort_stable byAdp adpKey byAdp_key). Qed.

(** The ranking is the one stable ascending arrangement of the players
    that have an ADP. *)
Lemma sortedByAdp_unique players ranking :
  StronglySorted adpLe ranking ->
  (forall key, List.filter (fun p => adpKey p =? key) ranking
               = List.filter (fun p => adpKey p =? key) (List.filter hasAdp players)) ->
  ranking = sortedByAdp players.
Proof.
  intros Hs Hstable. apply (sorted_by_keys_unique adpKey); [exact Hs| |].
  - apply sortedByAdp_sorted.
  - intros v. rewrite Hstable, sortedByAdp_stable. reflexivity.
Qed.

End RecsFacts.

(** C7 (as the code has it) — the candidates put into the prompt are the
    first 30 (all of them, when there are fewer) of the ranking of the
    available players that have an ADP.  The ranking is a rearrangement of
    exactly those players (a player without ADP is left out, not placed
    last), in ascending order of the sort key, which is the ADP itself
    unless that is 0, and players with the same key keep the order of the
    pool; no other list is such an arrangement.  The prompt has one line
    per candidate, in this order, numbered from 1. *)
Theorem prompt_candidates (context : Recs.DraftContext) :
  let candidates := Recs.topAvailable context in
  let available := Recs.availablePlayers context in
  let eligible := List.filter Recs.hasAdp available in
  (exists ranking,
     Permutation ranking eligible /\
     StronglySorted Recs.adpLe ranking /\
     (forall key, List.filter (fun p => Recs.adpKey p =? key) ranking
                  = List.filter (fun p => Recs.adpKey p =? key) eligible) /\
     candidates = firstn 30 ranking) /\
  (forall ranking,
     StronglySorted Recs.adpLe ranking ->
     (forall key, List.filter (fun p => Recs.adpKey p =? key) ranking
                  = List.filter (fun p => Recs.adpKey p =? key) eligible) ->
     candidates = firstn 30 ranking) /\
  length candidates = Nat.min 30 (length eligible) /\
  (forall p, In p candidates -> In p available /\ Player.adp p <> None) /\
  (forall p q, In p candidates -> In q available -> Player.adp q <> None ->
               ~ In q candidates -> Recs.adpKey p <= Recs.adpKey q) /\
  (forall p a, Player.adp p = Some a -> a <> 0 -> Recs.adpKey p = a) /\
  (forall i : nat,
     nth_error (Recs.candidateLines context) i
     = option_map (fun p => Recs.candidateLine p (Z.of_nat i))
                  (nth_error candidates i)) /\
  length (Recs.candidateLines context) = length candidates.
Proof.
  intros candidates available eligible.
  destruct (top_by_adp 30 available) as (H1 & H2 & H3 & H4).
  split.
  { exists (Recs.sortedByAdp available). split; [apply sortedByAdp_perm|].
    split; [apply sortedByAdp_sorted|]. split; [apply sortedByAdp_stable|].
    reflexivity. }
  split.
  { intros ranking Hs Hstable.
    rewrite (sortedByAdp_unique available ranking Hs Hstable). reflexivity. }
  split; [exact H1|]. split.
  { intros p Hp. apply H2. exact Hp. }
  split; [exact H4|]. split; [apply adpKey_adp|].
  assert (forall i : nat,
            nth_error (Recs.candidateLines context) i
            = option_map (fun p => Recs.candidateLine p (Z.of_nat i))
                         (nth_error candidates i)) as Hlines.
  { intros i. unfold Recs.candidateLines, Js.mapi. fold candidates.
    rewrite nth_error_mapi_from. reflexivity. }
  split; [exact Hlines|].
  unfold Recs.candidateLines, Js.mapi. fold candidates.
  generalize 0. generalize candidates as l.
  induction l as [|c cs IH]; intros i; simpl; [reflexivity|].
  now rewrite IH.
Qed.

Lemma prompt_candidates_witness :
  let d := Draft.mk "11111111-1111-4111-8111-111111111111" "u1" NBA snake
                    12 1 13 (Some 1) (Some 1) setup in
  let rookie := Player.mk "p1" NBA "New Rookie" (Some "SAS") (Some "C") None in
  let star := Player.mk "p2" NBA "Proven Star" (Some "DEN") (Some "C") (Some 3) in
  let ace := Player.mk "p3" NBA "Early Ace" None (Some "PG") (Some 1) in
  let twin := Player.mk "p4" NBA "Other Star" (Some "LAL") None (Some 3) in
  let context := Recs.mkContext d [] [rookie; star; ace; twin] [] 1 1 in
  Recs.topAvailable context = [ace; star; twin] /\
  Recs.candidateLines context
  = ["1. Early Ace (PG) - null - ADP: 1";
     "2. Proven Star (C) - DEN - ADP: 3";
     "3. Other Star (null) - LAL - ADP: 3"].
Proof.
  intros d rookie star ace twin context.
  pose proof (prompt_candidates context) as (_ & Hunique & _ & _ & _ & _ & Hlines & Hlen).
  assert (Recs.topAvailable context = [ace; star; twin]) as Htop.
  { apply (Hunique [ace; star; twin]).
    - repeat constructor; cbv; discriminate.
    - intros key. unfold context, rookie, ace, star, twin.
      cbn [Recs.availablePlayers List.filter Recs.hasAdp Player.adp Recs.adpKey
           Js.numOr].
      destruct (Z.eqb_spec 1 key), (Z.eqb_spec 3 key); try reflexivity; lia. }
  split; [exact Htop|].
  apply nth_error_ext. intros n. rewrite Hlines, Htop.
  destruct n as [|[|[|n]]]; try reflexivity. destruct n; reflexivity.
Defined.

(** C7 as stated fails: a player without ADP is not sorted last, it is
    absent from the candidates. *)
Lemma prompt_candidates_leave_out_null_adp :
  let d := Draft.mk "11111111-1111-4111-8111-111111111111" "u1" NBA snake
                    12 1 13 (Some 1) (Some 1) setup in
  let rookie := Player.mk "p1" NBA "New Rookie" (Some "SAS") (Some "C") None in
  let star := Player.mk "p2" NBA "Proven Star" (Some "DEN") (Some "C") (Some 3) in
  let context := Recs.mkContext d [] [rookie; star] [] 1 1 in
  Recs.spec_candidates context = [star; rookie] /\
  Recs.topAvailable context = [star] /\
  Recs.topAvailable context <> Recs.spec_candidates context.
Proof.
  intros d rookie star context. split; [|split].
  - vm_compute. reflexivity.
  - vm_compute. reflexivity.
  - vm_compute. discriminate.
Qed.

(** C6 (as the code has it) — every fallback recommends the first five
    (all of them, when there are fewer) of the ranking of the available
    players that have an ADP: a rearrangement of exactly those players, in
    ascending order of the sort key, which is the ADP itself unless that
    is 0, players with the same key in the order of the pool; no other
    list is such an arrangement.  When no provider is configured or the
    provider call throws, the entry at rank [i] (from 0) has score
    [80 - 5 i], the first is tagged "best available" and the others "value
    pick".  When the provider answered but nothing usable came out of the
    parse, every entry has score 70 and the tag "best available".  This
    holds however the names of the answer are matched with the players. *)
Theorem fallback_recommendations
    (matches : Recs.ParsedRec -> Player.t -> bool) (context : Recs.DraftContext) :
  let top := Recs.topFive context in
  let available := Recs.availablePlayers context in
  let eligible := List.filter Recs.hasAdp available in
  ((exists ranking,
      Permutation ranking eligible /\
      StronglySorted Recs.adpLe ranking /\
      (forall key, List.filter (fun p => Recs.adpKey p =? key) ranking
                   = List.filter (fun p => Recs.adpKey p =? key) eligible) /\
      top = firstn 5 ranking) /\
   (forall ranking,
      StronglySorted Recs.adpLe ranking ->
      (forall key, List.filter (fun p => Recs.adpKey p =? key) ranking
                   = List.filter (fun p => Recs.adpKey p =? key) eligible) ->
      top = firstn 5 ranking) /\
   length top = Nat.min 5 (length eligible) /\
   (forall p, In p top -> In p available /\ Player.adp p <> None) /\
   (forall p q, In p top -> In q available -> Player.adp q <> None ->
                ~ In q top -> Recs.adpKey p <= Recs.adpKey q) /\
   (forall p a, Player.adp p = Some a -> a <> 0 -> Recs.adpKey p = a)) /\
  (forall run, run = Recs.NoProvider \/ run = Recs.GenerateThrows ->
     let recs := Recs.recommendations
                   (Recs.generateRecommendationsWith matches run context) in
     List.map Recs.playerId recs = List.map Player.id top /\
     List.map Recs.playerName recs = List.map Player.fullName top /\
     (forall (i : nat) r, nth_error recs i = Some r ->
        Recs.score r = 80 - 5 * Z.of_nat i /\
        Recs.tags r = if (i =? 0)%nat then ["best available"] else ["value pick"]) /\
     (forall (i j : nat) ri rj, (i < j)%nat ->
        nth_error recs i = Some ri -> nth_error recs j = Some rj ->
        Recs.score rj < Recs.score ri)) /\
  (forall decoded, Recs.zeroUsableWith matches decoded available ->
     let recs := Recs.recommendations
                   (Recs.generateRecommendationsWith matches
                      (Recs.Generated decoded) context) in
     List.map Recs.playerId recs = List.map Player.id top /\
     List.map Recs.playerName recs = List.map Player.fullName top /\
     (forall r, In r recs ->
        Recs.score r = 70 /\ Recs.tags r = ["best available"])).
Proof.
  intros top available eligible. split.
  { destruct (top_by_adp 5 available) as (H1 & H2 & H3 & H4).
    split.
    { exists (Recs.sortedByAdp available). split; [apply sortedByAdp_perm|].
      split; [apply sortedByAdp_sorted|]. split; [apply sortedByAdp_stable|].
      reflexivity. }
    split.
    { intros ranking Hs Hstable.
      rewrite (sortedByAdp_unique available ranking Hs Hstable). reflexivity. }
    split; [exact H1|]. split.
    { intros p Hp. apply H2. exact Hp. }
    split; [exact H4|]. apply adpKey_adp. }
  split.
  - intros run Hrun recs.
    assert (recs = Recs.recommendations (Recs.getFallbackRecommendations context)) as ->
      by (destruct Hrun as [-> | ->]; reflexivity).
    unfold Recs.getFallbackRecommendations, Js.mapi. cbn [Recs.recommendations].
    fold (Recs.topFive context). fold top.
    assert (forall (i : nat) r,
              nth_error (Js.mapi_from
                (fun player index =>
                   {| Recs.playerId := Player.id player;
                      Recs.playerName := Player.fullName player;
                      Recs.position := Js.strOr (Player.position player) "UTIL";
                      Recs.team := Player.team player;
                      Recs.reasoning :=
                        if index =? 0 then "Best available player by ADP"
                        else "Strong value at pick "
                             +:+ Js.showZ (Recs.currentPick context);
                      Recs.score := 80 - index * 5;
                      Recs.tags := if index =? 0 then ["best available"]
                                   else ["value pick"] |}) 0 top) i = Some r ->
              Recs.score r = 80 - 5 * Z.of_nat i /\
              Recs.tags r = if (i =? 0)%nat then ["best available"]
                            else ["value pick"]) as Hnth.
    { intros i r. rewrite nth_error_mapi_from.
      destruct (nth_error top i); simpl; [|discriminate].
      intros [= <-]. simpl. split; [lia|]. destruct i; reflexivity. }
    split; [|split; [|split]].
    + apply map_mapi_from. reflexivity.
    + apply map_mapi_from. reflexivity.
    + exact Hnth.
    + intros i j ri rj Hij Hi Hj.
      apply Hnth in Hi as [-> _]. apply Hnth in Hj as [-> _]. lia.
  - intros decoded Hzero recs. unfold recs. cbn [Recs.generateRecommendationsWith].
    fold available in Hzero. unfold available in Hzero.
    rewrite (parseAIResponse_zero matches decoded context Hzero). fold top.
    split; [|split].
    + rewrite List.map_map. reflexivity.
    + rewrite List.map_map. reflexivity.
    + intros r Hr. apply in_map_iff in Hr as (p & <- & _). split; reflexivity.
Qed.

Lemma fallback_recommendations_witness :
  let d := Draft.mk "11111111-1111-4111-8111-111111111111" "u1" NBA snake
                    12 1 13 (Some 1) (Some 1) setup in
  let pl (n : Z) (name : string) := Player.mk name NBA name None (Some "PG") (Some n) in
  let context :=
    Recs.mkContext d []
      [pl 4 "four"; pl 2 "two"; pl 6 "six"; pl 1 "one"; pl 5 "five"; pl 3 "three"]
      [] 1 1 in
  let silent := Some (Recs.mkParsed (Some []) None None) in
  Recs.topFive context = [pl 1 "one"; pl 2 "two"; pl 3 "three"; pl 4 "four"; pl 5 "five"] /\
  (Recs.NoProvider = Recs.NoProvider \/ Recs.NoProvider = Recs.GenerateThrows) /\
  List.map Recs.playerId
    (Recs.recommendations (Recs.generateRecommendations Recs.NoProvider context))
  = ["one"; "two"; "three"; "four"; "five"] /\
  Recs.zeroUsable silent (Recs.availablePlayers context) /\
  List.map Recs.playerId
    (Recs.recommendations
       (Recs.generateRecommendations (Recs.Generated silent) context))
  = ["one"; "two"; "three"; "four"; "five"].
Proof.
  intros d pl context silent.
  pose proof (fallback_recommendations Recs.nameMatches context)
    as ((_ & Hunique & _) & Hfall & Hparse).
  assert (Recs.zeroUsable silent (Recs.availablePlayers context)) as Hzero
    by reflexivity.
  assert (Recs.topFive context
          = [pl 1 "one"; pl 2 "two"; pl 3 "three"; pl 4 "four"; pl 5 "five"]) as Htop.
  { apply (Hunique [pl 1 "one"; pl 2 "two"; pl 3 "three"; pl 4 "four";
                    pl 5 "five"; pl 6 "six"]).
    - repeat constructor; cbv; discriminate.
    - intros key. unfold context, pl.
      cbn [Recs.availablePlayers List.filter Recs.hasAdp Player.adp Recs.adpKey
           Js.numOr].
      destruct (Z.eqb_spec 1 key), (Z.eqb_spec 2 key), (Z.eqb_spec 3 key),
        (Z.eqb_spec 4 key), (Z.eqb_spec 5 key), (Z.eqb_spec 6 key);
        try reflexivity; lia. }
  split; [exact Htop|].
  split; [left; reflexivity|].
  split.
  { change (Recs.generateRecommendations Recs.NoProvider context)
      with (Recs.generateRecommendationsWith Recs.nameMatches Recs.NoProvider context).
    rewrite (proj1 (Hfall Recs.NoProvider (or_introl eq_refl))), Htop. reflexivity. }
  split; [exact Hzero|].
  change (Recs.generateRecommendations (Recs.Generated silent) context)
    with (Recs.generateRecommendationsWith Recs.nameMatches
            (Recs.Generated silent) context).
  rewrite (proj1 (Hparse silent Hzero)), Htop. reflexivity.
Defined.

(** The specification's scenario: ADP values 1 to 6, no provider. *)
Example fallback_six_players :
  let d := Draft.mk "11111111-1111-4111-8111-111111111111" "u1" NBA snake
                    12 1 13 (Some 1) (Some 1) setup in
  let pl (n : Z) (name : string) := Player.mk name NBA name None (Some "PG") (Some n) in
  let context :=
    Recs.mkContext d []
      [pl 4 "four"; pl 2 "two"; pl 6 "six"; pl 1 "one"; pl 5 "five"; pl 3 "three"]
      [] 1 1 in
  List.map (fun r => (Recs.playerName r, Recs.score r, Recs.tags r))
    (Recs.recommendations (Recs.generateRecommendations Recs.NoProvider context))
  = [("one", 80, ["best available"]); ("two", 75, ["value pick"]);
     ("three", 70, ["value pick"]); ("four", 65, ["value pick"]);
     ("five", 60, ["value pick"])].
Proof. vm_compute. reflexivity. Qed.

(** C6 as stated fails: when the provider answers with no recommendation,
    the two players come back with score 70 each and both tagged "best
    available", not with scores 80 and 75 and the second tagged "value
    pick". *)
Lemma parse_fallback_is_flat :
  let d := Draft.mk "11111111-1111-4111-8111-111111111111" "u1" NBA snake
                    12 1 13 (Some 1) (Some 1) setup in
  let pl (n : Z) (name : string) := Player.mk name NBA name None (Some "PG") (Some n) in
  let context := Recs.mkContext d [] [pl 2 "two"; pl 1 "one"] [] 1 1 in
  let silent := Some (Recs.mkParsed (Some []) None None) in
  let recs := Recs.recommendations
                (Recs.generateRecommendations (Recs.Generated silent) context) in
  Recs.zeroUsable silent (Recs.availablePlayers context) /\
  List.map Recs.playerName recs = ["one"; "two"] /\
  List.map Recs.score recs = [70; 70] /\
  List.map Recs.score recs <> [80; 75] /\
  List.map Recs.tags recs = [["best available"]; ["best available"]].
Proof.
  intros d pl context silent recs. repeat split; try (vm_compute; congruence).
Qed.

(* ===================================================================== *)
(** * Facts about the store and the pick routes *)
(* ===================================================================== *)

Section StoreFacts.
Import Store.

Lemma find_some_existsb {X} (f g : X -> bool) l x :
  List.find f l = Some x -> (forall y, f y = true -> g y = true) ->
  existsb g l = true.
Proof.
  intros Hfind Hfg. apply find_some in Hfind as [Hin Hf].
  apply existsb_exists. exists x. auto.
Qed.

Lemma referencesHold_found draftId userId v db draft player :
  findDraft draftId userId db = Some draft ->
  findPlayer (new_playerId v) db = Some player ->
  new_draftId v = draftId ->
  referencesHold v db = true.
Proof.
  intros Hd Hp <-. unfold referencesHold. apply andb_true_iff. split.
  - eapply find_some_existsb; [exact Hd|].
    intros d Hm. apply andb_true_iff in Hm. tauto.
  - eapply find_some_existsb; [exact Hp|]. auto.
Qed.

Lemma applySet_id set d : Draft.id (applySet set d) = Draft.id d.
Proof. reflexivity. Qed.

(** An update is seen by the next select of the same draft. *)
Lemma findDraft_updateDraft draftId userId set db :
  findDraft draftId userId (updateDraft draftId set db)
  = option_map (applySet set) (findDraft draftId userId db).
Proof.
  unfold findDraft, updateDraft. simpl.
  induction (drafts db) as [|d ds IH]; simpl; [reflexivity|].
  destruct (String.eqb (Draft.id d) draftId) eqn:Hid; simpl.
  - rewrite Hid. simpl. destruct (String.eqb (Draft.userId d) userId); simpl;
      [reflexivity|exact IH].
  - rewrite Hid. simpl. exact IH.
Qed.

Lemma picksOf_insertPick draftId v db :
  new_draftId v = draftId ->
  picksOf draftId (insertPick v db) = (picksOf draftId db ++ [newRow v db])%list.
Proof.
  intros <-. unfold picksOf, insertPick. simpl.
  rewrite List.filter_app. simpl. now rewrite String.eqb_refl.
Qed.

Lemma maxPick_ge best rows :
  DraftPick.pickNumber best <= DraftPick.pickNumber (maxPick best rows) /\
  Forall (fun r => DraftPick.pickNumber r <= DraftPick.pickNumber (maxPick best rows)) rows /\
  (maxPick best rows = best \/ In (maxPick best rows) rows).
Proof.
  revert best. induction rows as [|r rows IH]; intros best; simpl.
  - split; [lia|]. split; [constructor|]. now left.
  - destruct (Z.ltb_spec (DraftPick.pickNumber best) (DraftPick.pickNumber r)).
    + destruct (IH r) as (H1 & H2 & H3). split; [lia|]. split.
      * constructor; assumption.
      * right. destruct H3 as [-> | H3]; auto.
    + destruct (IH best) as (H1 & H2 & H3). split; [lia|]. split.
      * constructor; [lia|assumption].
      * destruct H3 as [-> | H3]; auto.
Qed.

(** The row an undo looks at has the greatest pick number of the draft. *)
Lemma lastPick_greatest rows p :
  lastPick rows = Some p ->
  In p rows /\ Forall (fun r => DraftPick.pickNumber r <= DraftPick.pickNumber p) rows.
Proof.
  destruct rows as [|r rows]; simpl; [discriminate|].
  intros [= <-]. destruct (maxPick_ge r rows) as (H1 & H2 & H3). split.
  - destruct H3 as [-> | H3]; auto.
  - constructor; assumption.
Qed.

Lemma lastPick_none rows : lastPick rows = None <-> rows = [].
Proof. destruct rows; simpl; split; congruence. Qed.

Lemma maxPick_newest best rows row :
  DraftPick.pickNumber best < DraftPick.pickNumber row ->
  Forall (fun r => DraftPick.pickNumber r < DraftPick.pickNumber row) rows ->
  maxPick best (rows ++ [row]) = row.
Proof.
  revert best. induction rows as [|r rows IH]; intros best Hb Hrows; simpl.
  - destruct (Z.ltb_spec (DraftPick.pickNumber best) (DraftPick.pickNumber row));
      [reflexivity|lia].
  - inversion Hrows; subst. apply IH; [|assumption].
    destruct (DraftPick.pickNumber best <? DraftPick.pickNumber r); assumption.
Qed.

(** A row with a pick number above all others is the one undo finds. *)
Lemma lastPick_newest rows row :
  Forall (fun r => DraftPick.pickNumber r < DraftPick.pickNumber row) rows ->
  lastPick (rows ++ [row]) = Some row.
Proof.
  destruct rows as [|r rows]; simpl; [reflexivity|].
  intros H. inversion H; subst. f_equal. now apply maxPick_newest.
Qed.

Lemma deletePick_newest v db :
  keysBelowNext db ->
  draftPicks (deletePick (nextPickId db) (insertPick v db)) = draftPicks db.
Proof.
  unfold keysBelowNext, deletePick, insertPick. simpl. intros Hk.
  rewrite List.filter_app. simpl. rewrite Nat.eqb_refl. simpl.
  rewrite List.app_nil_r. apply forallb_filter_id.
  apply forallb_forall. rewrite List.Forall_forall in Hk.
  intros p Hp. specialize (Hk p Hp). apply negb_true_iff, Nat.eqb_neq. lia.
Qed.

(** Every statement keeps the handed-out keys below the next one. *)
Lemma exec_keysBelowNext {R} (q : Query R) db :
  keysBelowNext db -> keysBelowNext (snd (exec q db)).
Proof.
  unfold keysBelowNext. intros Hk. destruct q; simpl; try exact Hk.
  - destruct (referencesHold values db && insertable values)%bool; simpl;
      [|exact Hk].
    apply Forall_app. split.
    + eapply List.Forall_impl; [|exact Hk]. simpl. intros; lia.
    + constructor; [simpl; lia|constructor].
  - rewrite List.Forall_forall in *. intros p Hp.
    apply filter_In in Hp as [Hp _]. auto.
  - destruct (settable set); exact Hk.
Qed.

Lemma int4_spec z : int4 z = true <-> -2147483648 <= z <= 2147483647.
Proof. unfold int4. rewrite andb_true_iff, !Z.leb_le. tauto. Qed.

(** Every statement leaves the rows within the range of their columns:
    the stores the routes reach are typed. *)
Lemma exec_typed {R} (q : Query R) db :
  typed db = true -> typed (snd (exec q db)) = true.
Proof.
  unfold typed. intros Ht. apply andb_true_iff in Ht as [Hp Hd].
  destruct q; simpl; try (rewrite Hp, Hd; reflexivity).
  - destruct (referencesHold values db && insertable values)%bool eqn:Hok;
      simpl; [|rewrite Hp, Hd; reflexivity].
    apply andb_true_iff in Hok as [_ Hins].
    rewrite forallb_app, Hp, Hd. simpl. unfold pickTyped. simpl.
    unfold insertable in Hins. rewrite Hins. reflexivity.
  - rewrite Hd, andb_true_r. apply forallb_forall. intros p Hin.
    apply filter_In in Hin as [Hin _].
    rewrite forallb_forall in Hp. auto.
  - destruct (settable set) eqn:Hset; simpl; [|rewrite Hp, Hd; reflexivity].
    rewrite Hp. simpl. apply forallb_forall. intros d Hin.
    apply in_map_iff in Hin as (d0 & <- & Hin).
    rewrite forallb_forall in Hd. specialize (Hd d0 Hin).
    destruct (String.eqb (Draft.id d0) draftId); [|exact Hd].
    unfold draftTyped in *. simpl.
    apply andb_true_iff in Hd as [Hd H5]. apply andb_true_iff in Hd as [Hd H4].
    rewrite Hd. simpl.
    unfold settable in Hset. apply andb_true_iff in Hset as [Hr Hc].
    apply andb_true_iff. split.
    + destruct (set_currentRound set); [exact Hr|exact H4].
    + destruct (set_currentPick set); [exact Hc|exact H5].
Qed.

(** In a typed store the row an undo looks at can be written back to the
    draft. *)
Lemma typed_lastPick draftId db p :
  typed db = true -> lastPick (picksOf draftId db) = Some p -> pickTyped p = true.
Proof.
  unfold typed. intros Ht Hlast. apply andb_true_iff in Ht as [Hp _].
  apply lastPick_greatest in Hlast as [Hin _].
  unfold picksOf in Hin. apply filter_In in Hin as [Hin _].
  rewrite forallb_forall in Hp. auto.
Qed.

End StoreFacts.

Section RouteFacts.
Import Route.

Ltac int4_bounds :=
  repeat match goal with
         | H : (_ && _)%bool = true |- _ => apply andb_true_iff in H; destruct H
         | H : Store.int4 _ = true |- _ => apply int4_spec in H
         end.

Lemma makePickSchema_bounds b pickData :
  makePickSchema b = Some pickData ->
  1 <= teamNumber pickData <= 20 /\ 1 <= round pickData /\
  1 <= pickNumber pickData /\ 1 <= pickInRound pickData.
Proof.
  unfold makePickSchema. destruct (_ && _)%bool eqn:Hok; [|discriminate].
  intros [= <-]. simpl. rewrite !andb_true_iff, !Z.leb_le in Hok. lia.
Qed.

Lemma fits_spec pickData :
  fits pickData = true <->
  -2147483648 <= round pickData <= 2147483647 /\
  -2147483648 <= pickNumber pickData + 1 <= 2147483647 /\
  -2147483648 <= pickInRound pickData <= 2147483647.
Proof.
  unfold fits. rewrite !andb_true_iff, !int4_spec. tauto.
Qed.

(** The values of a validated body that fits can be inserted, and the
    draft can be advanced past them. *)
Lemma fits_insertable b draftId pickData :
  makePickSchema b = Some pickData -> fits pickData = true ->
  Store.insertable (valuesOf draftId pickData) = true /\
  Store.settable (advance pickData) = true.
Proof.
  intros Hvalid Hfits. apply makePickSchema_bounds in Hvalid.
  apply fits_spec in Hfits.
  unfold Store.insertable, Store.settable, Store.int4Null. simpl.
  rewrite !andb_true_iff, !int4_spec. lia.
Qed.

(** A request that is admitted and fits gets through, with the expected
    row and store. *)
Lemma POST_admitted req draftId db draft pickData player :
  admitted req draftId db draft pickData player ->
  fits pickData = true ->
  POST req draftId db
  = (JsonPick (Store.newRow (valuesOf draftId pickData) db) player,
     afterPick draft draftId pickData db).
Proof.
  intros (Hauth & Huuid & Hdraft & Hstatus & (b & Hbody & Hvalid) & Hplayer & Hfree)
         Hfits.
  destruct (fits_insertable b draftId pickData Hvalid Hfits) as [Hins Hset].
  unfold POST, POST_handler. rewrite Hauth, Huuid.
  cbn [negb run Store.exec]. rewrite Hdraft.
  destruct (DraftStatus_eqb (Draft.status draft) completed) eqn:Hs.
  { destruct (Draft.status draft); simpl in Hs; congruence. }
  rewrite Hbody, Hvalid. cbn [run Store.exec]. rewrite Hplayer.
  cbn [run Store.exec]. rewrite Hfree. cbn [run Store.exec].
  fold (valuesOf draftId pickData). fold (advance pickData). fold complete.
  rewrite (referencesHold_found draftId (userIdOf req) (valuesOf draftId pickData) db
             draft player Hdraft Hplayer eq_refl), Hins.
  cbn [andb run Store.exec]. rewrite Hset. cbn [run Store.exec].
  unfold afterPick.
  destruct (pickNumber pickData >=? Draft.numTeams draft * Draft.rosterSize draft);
    reflexivity.
Qed.

(** A request that is admitted and does not fit ends in the [catch]: at
    the insert, with nothing written, when a value of the row is out of
    range; at the update of the draft, with the row written and the draft
    as it was, when only [pickNumber + 1] is. *)
Lemma POST_overflow req draftId db draft pickData player :
  admitted req draftId db draft pickData player ->
  fits pickData = false ->
  POST req draftId db
  = (POST_failed,
     if Store.insertable (valuesOf draftId pickData)
     then Store.insertPick (valuesOf draftId pickData) db
     else db).
Proof.
  intros (Hauth & Huuid & Hdraft & Hstatus & (b & Hbody & Hvalid) & Hplayer & Hfree)
         Hfits.
  unfold POST, POST_handler. rewrite Hauth, Huuid.
  cbn [negb run Store.exec]. rewrite Hdraft.
  destruct (DraftStatus_eqb (Draft.status draft) completed) eqn:Hs.
  { destruct (Draft.status draft); simpl in Hs; congruence. }
  rewrite Hbody, Hvalid. cbn [run Store.exec]. rewrite Hplayer.
  cbn [run Store.exec]. rewrite Hfree. cbn [run Store.exec].
  fold (valuesOf draftId pickData). fold (advance pickData). fold complete.
  rewrite (referencesHold_found draftId (userIdOf req) (valuesOf draftId pickData) db
             draft player Hdraft Hplayer eq_refl).
  cbn [andb].
  destruct (Store.insertable (valuesOf draftId pickData)) eqn:Hins;
    [|reflexivity].
  cbn [run Store.exec].
  destruct (Store.settable (advance pickData)) eqn:Hset; [|reflexivity].
  exfalso. apply makePickSchema_bounds in Hvalid.
  assert (fits pickData = true) as Hyes; [|congruence].
  apply fits_spec.
  unfold Store.insertable, Store.settable, Store.int4Null in Hins, Hset.
  simpl in Hins, Hset. int4_bounds. lia.
Qed.

(** A request either is admitted, or is answered with an error and leaves
    the store as it was. *)
Lemma POST_cases req draftId db :
  (exists draft pickData player, admitted req draftId db draft pickData player) \/
  (exists error status, POST req draftId db = (JsonError error status, db)).
Proof.
  unfold admitted, POST, POST_handler.
  destruct (unauthorized req) eqn:Hauth; [right; eauto|].
  destruct (isUuid draftId) eqn:Huuid; [|right; simpl; eauto].
  cbn [negb run Store.exec].
  destruct (Store.findDraft draftId (userIdOf req) db) as [draft|] eqn:Hdraft;
    [|right; eauto].
  destruct (DraftStatus_eqb (Draft.status draft) completed) eqn:Hs;
    [right; eauto|].
  destruct (body req) as [b|] eqn:Hbody; [|right; unfold POST_failed; eauto].
  destruct (makePickSchema b) as [pickData|] eqn:Hvalid; [|right; eauto].
  cbn [run Store.exec].
  destruct (Store.findPlayer (playerId pickData) db) as [player|] eqn:Hplayer;
    [|right; eauto].
  cbn [run Store.exec].
  destruct (Store.findPickOfPlayer draftId (playerId pickData) db) eqn:Hfree;
    [right; eauto|].
  left. exists draft, pickData, player. repeat split; auto.
  - intros E. rewrite E in Hs. discriminate.
  - exists b. auto.
Qed.

(** What a successful [POST] tells about the request and the store. *)
Lemma POST_created req draftId db pick player db' :
  POST req draftId db = (JsonPick pick player, db') ->
  exists draft pickData,
    admitted req draftId db draft pickData player /\
    fits pickData = true /\
    pick = Store.newRow (valuesOf draftId pickData) db /\
    db' = afterPick draft draftId pickData db.
Proof.
  intros HP. destruct (POST_cases req draftId db)
    as [(draft & pickData & player' & Hadm) | (error & status & Herr)].
  - destruct (fits pickData) eqn:Hfits.
    + rewrite (POST_admitted _ _ _ _ _ _ Hadm Hfits) in HP. inversion HP; subst.
      exists draft, pickData. auto.
    + rewrite (POST_overflow _ _ _ _ _ _ Hadm Hfits) in HP. discriminate.
  - rewrite Herr in HP. discriminate.
Qed.

Lemma draftPicks_afterPick draft draftId pickData db :
  Store.draftPicks (afterPick draft draftId pickData db)
  = (Store.draftPicks db ++ [Store.newRow (valuesOf draftId pickData) db])%list.
Proof.
  unfold afterPick.
  destruct (pickNumber pickData >=? Draft.numTeams draft * Draft.rosterSize draft);
    reflexivity.
Qed.

Lemma nextPickId_afterPick draft draftId pickData db :
  Store.nextPickId (afterPick draft draftId pickData db) = S (Store.nextPickId db).
Proof.
  unfold afterPick.
  destruct (pickNumber pickData >=? Draft.numTeams draft * Draft.rosterSize draft);
    reflexivity.
Qed.

(** The draft row after a pick: the pick's round, the pick number plus
    one, and [completed] from the last pick on, [in_progress] before. *)
Lemma findDraft_afterPick draft0 draft draftId userId pickData db :
  Store.findDraft draftId userId db = Some draft ->
  exists draft',
    Store.findDraft draftId userId (afterPick draft0 draftId pickData db) = Some draft' /\
    Draft.currentPick draft' = Some (pickNumber pickData + 1) /\
    Draft.currentRound draft' = Some (round pickData) /\
    Draft.status draft'
    = (if pickNumber pickData >=? Draft.numTeams draft0 * Draft.rosterSize draft0
       then completed else in_progress) /\
    Draft.numTeams draft' = Draft.numTeams draft /\
    Draft.rosterSize draft' = Draft.rosterSize draft /\
    Draft.draftType draft' = Draft.draftType draft /\
    Draft.draftPosition draft' = Draft.draftPosition draft.
Proof.
  intros Hd. unfold afterPick.
  destruct (pickNumber pickData >=? Draft.numTeams draft0 * Draft.rosterSize draft0).
  - rewrite !findDraft_updateDraft.
    change (Store.findDraft draftId userId
              (Store.insertPick (valuesOf draftId pickData) db))
      with (Store.findDraft draftId userId db).
    rewrite Hd. simpl. eexists. split; [reflexivity|]. simpl. repeat split.
  - rewrite findDraft_updateDraft.
    change (Store.findDraft draftId userId
              (Store.insertPick (valuesOf draftId pickData) db))
      with (Store.findDraft draftId userId db).
    rewrite Hd. simpl. eexists. split; [reflexivity|]. simpl. repeat split.
Qed.

Lemma pickTyped_settable lastPick :
  Store.pickTyped lastPick = true -> Store.settable (rewind lastPick) = true.
Proof.
  unfold Store.pickTyped, Store.settable, Store.int4Null. simpl.
  rewrite !andb_true_iff. tauto.
Qed.

(** An undo that is allowed goes through, the numbers of the row it
    removes being such as a row can hold. *)
Lemma DELETE_undoable req draftId db draft lastPick :
  undoable req draftId db draft lastPick ->
  Store.settable (rewind lastPick) = true ->
  DELETE req draftId db
  = (JsonUndone (DraftPick.id lastPick), afterUndo draftId lastPick db).
Proof.
  intros (Hauth & Huuid & Hdraft & Hlast & Huser) Hset.
  unfold DELETE, DELETE_handler. rewrite Hauth, Huuid.
  cbn [negb run Store.exec]. rewrite Hdraft.
  cbn [run Store.exec]. rewrite Hlast. rewrite Huser.
  cbn [negb run Store.exec]. fold (rewind lastPick). rewrite Hset. reflexivity.
Qed.

(** On a store that is not typed the update after the delete can fail. *)
Lemma DELETE_untyped req draftId db draft lastPick :
  undoable req draftId db draft lastPick ->
  Store.settable (rewind lastPick) = false ->
  DELETE req draftId db
  = (DELETE_failed, Store.deletePick (DraftPick.id lastPick) db).
Proof.
  intros (Hauth & Huuid & Hdraft & Hlast & Huser) Hset.
  unfold DELETE, DELETE_handler. rewrite Hauth, Huuid.
  cbn [negb run Store.exec]. rewrite Hdraft.
  cbn [run Store.exec]. rewrite Hlast. rewrite Huser.
  cbn [negb run Store.exec]. fold (rewind lastPick). rewrite Hset. reflexivity.
Qed.

(** An undo is allowed, or refused for want of picks, or refused because
    the last pick is not a user pick, or stopped before it looks. *)
Lemma DELETE_cases req draftId db :
  (exists draft lastPick, undoable req draftId db draft lastPick) \/
  (exists draft,
      Store.findDraft draftId (userIdOf req) db = Some draft /\
      Store.picksOf draftId db = [] /\
      DELETE req draftId db = (JsonError "No picks to undo" 400, db)) \/
  (exists draft lastPick,
      Store.findDraft draftId (userIdOf req) db = Some draft /\
      Store.lastPick (Store.picksOf draftId db) = Some lastPick /\
      Js.truthy (DraftPick.isUserPick lastPick) = false /\
      DELETE req draftId db = (JsonError "Can only undo your own picks" 403, db)) \/
  ((unauthorized req = true \/ isUuid draftId = false \/
    Store.findDraft draftId (userIdOf req) db = None) /\
   exists error status, DELETE req draftId db = (JsonError error status, db)).
Proof.
  unfold undoable, DELETE, DELETE_handler.
  destruct (unauthorized req) eqn:Hauth; [right; right; right; eauto 6|].
  destruct (isUuid draftId) eqn:Huuid; [|right; right; right; simpl; eauto 6].
  cbn [negb run Store.exec].
  destruct (Store.findDraft draftId (userIdOf req) db) as [draft|] eqn:Hdraft;
    [|right; right; right; eauto 7].
  cbn [run Store.exec].
  destruct (Store.lastPick (Store.picksOf draftId db)) as [lastPick|] eqn:Hlast.
  - destruct (Js.truthy (DraftPick.isUserPick lastPick)) eqn:Huser; simpl.
    + left. exists draft, lastPick. auto.
    + right. right. left. exists draft, lastPick. auto.
  - right. left. exists draft. apply lastPick_none in Hlast. auto.
Qed.

End RouteFacts.

Section RouteAnswers.
Import Route.

(** The errors [POST] can answer with. *)
Lemma POST_errors req draftId db error status db' :
  POST req draftId db = (JsonError error status, db') ->
  In (error, status)
     [("Unauthorized", 401); ("Invalid draft ID", 400); ("Draft not found", 404);
      ("Draft is already completed", 400); ("Failed to make draft pick", 500);
      ("Invalid request", 400); ("Player not found", 404);
      ("Player already drafted", 400)].
Proof.
  destruct (POST_cases req draftId db)
    as [(draft & pickData & player & Hadm) | _].
  { destruct (fits pickData) eqn:Hfits.
    - rewrite (POST_admitted _ _ _ _ _ _ Hadm Hfits). discriminate.
    - rewrite (POST_overflow _ _ _ _ _ _ Hadm Hfits).
      intros [= <- <- _]. simpl. tauto. }
  unfold POST, POST_handler.
  destruct (unauthorized req); [intros [= <- <- _]; simpl; tauto|].
  destruct (isUuid draftId); [|intros [= <- <- _]; simpl; tauto].
  cbn [negb run Store.exec].
  destruct (Store.findDraft draftId (userIdOf req) db) as [draft|];
    [|intros [= <- <- _]; simpl; tauto].
  destruct (DraftStatus_eqb (Draft.status draft) completed);
    [intros [= <- <- _]; simpl; tauto|].
  destruct (body req) as [b|]; [|intros [= <- <- _]; simpl; tauto].
  destruct (makePickSchema b) as [pickData|]; [|intros [= <- <- _]; simpl; tauto].
  cbn [run Store.exec].
  destruct (Store.findPlayer (playerId pickData) db) as [player|];
    [|intros [= <- <- _]; simpl; tauto].
  cbn [run Store.exec].
  destruct (Store.findPickOfPlayer draftId (playerId pickData) db);
    [intros [= <- <- _]; simpl; tauto|].
  cbn [run Store.exec].
  destruct (Store.referencesHold _ db && Store.insertable _)%bool;
    [|intros [= <- <- _]; simpl; tauto].
  cbn [run Store.exec].
  destruct (Store.settable _); [|intros [= <- <- _]; simpl; tauto].
  cbn [run Store.exec].
  destruct (pickNumber pickData >=? Draft.numTeams draft * Draft.rosterSize draft);
    cbn [run Store.exec Store.settable Store.int4Null Store.set_currentRound
         Store.set_currentPick andb]; discriminate.
Qed.

Lemma DELETE_undone req draftId db pickId db' :
  DELETE req draftId db = (JsonUndone pickId, db') ->
  exists draft lastPick,
    undoable req draftId db draft lastPick /\
    Store.settable (rewind lastPick) = true /\
    pickId = DraftPick.id lastPick /\
    db' = afterUndo draftId lastPick db.
Proof.
  intros HD. destruct (DELETE_cases req draftId db)
    as [(draft & lastPick & Hok) | [(draft & _ & _ & Herr)
        | [(draft & lastPick & _ & _ & _ & Herr) | (_ & error & status & Herr)]]];
    try (rewrite Herr in HD; discriminate).
  destruct (Store.settable (rewind lastPick)) eqn:Hset.
  - rewrite (DELETE_undoable _ _ _ _ _ Hok Hset) in HD. inversion HD; subst.
    exists draft, lastPick. auto.
  - rewrite (DELETE_untyped _ _ _ _ _ Hok Hset) in HD. discriminate.
Qed.

(** The draft row after an undo: the undone pick's round and number, and
    [setup] exactly for pick 1. *)
Lemma findDraft_afterUndo draft draftId userId lastPick db :
  Store.findDraft draftId userId db = Some draft ->
  exists draft',
    Store.findDraft draftId userId (afterUndo draftId lastPick db) = Some draft' /\
    Draft.currentPick draft' = Some (DraftPick.pickNumber lastPick) /\
    Draft.currentRound draft' = Some (DraftPick.round lastPick) /\
    Draft.status draft'
    = (if DraftPick.pickNumber lastPick =? 1 then setup else in_progress).
Proof.
  intros Hd. unfold afterUndo. rewrite findDraft_updateDraft.
  change (Store.findDraft draftId userId
            (Store.deletePick (DraftPick.id lastPick) db))
    with (Store.findDraft draftId userId db).
  rewrite Hd. simpl. eexists. split; [reflexivity|]. simpl. repeat split.
Qed.

Lemma picksOf_afterPick draft draftId pickData db :
  Store.picksOf draftId (afterPick draft draftId pickData db)
  = (Store.picksOf draftId db ++ [Store.newRow (valuesOf draftId pickData) db])%list.
Proof.
  unfold Store.picksOf. rewrite draftPicks_afterPick, List.filter_app.
  simpl. now rewrite String.eqb_refl.
Qed.

Lemma findPickOfPlayer_afterPick draft draftId pickData db :
  Store.findPickOfPlayer draftId (playerId pickData)
    (afterPick draft draftId pickData db) <> None.
Proof.
  unfold Store.findPickOfPlayer. rewrite draftPicks_afterPick. intros Hnone.
  eapply find_none in Hnone.
  2: { apply in_or_app. right. left. reflexivity. }
  simpl in Hnone. rewrite !String.eqb_refl in Hnone. discriminate.
Qed.

Lemma find_in_some {X} (f : X -> bool) (l : list X) x :
  In x l -> f x = true -> exists y, List.find f l = Some y.
Proof.
  intros Hin Hf. destruct (List.find f l) as [y|] eqn:Hfind; [eauto|].
  rewrite (find_none _ _ Hfind x Hin) in Hf. discriminate.
Qed.

(** The handler does not look at the team number: with any two team
    numbers the schema admits, the answer has the same status. *)
Lemma POST_status_teamNumber req draftId db t t' :
  1 <= t <= 20 -> 1 <= t' <= 20 ->
  httpStatus (fst (POST (withTeamNumber t req) draftId db))
  = httpStatus (fst (POST (withTeamNumber t' req) draftId db)).
Proof.
  intros Ht Ht'.
  assert (forall u, 1 <= u <= 20 ->
            (1 <=? u) = true /\ (u <=? 20) = true /\ Store.int4 u = true) as Hin.
  { intros u Hu. rewrite int4_spec, !Z.leb_le. lia. }
  destruct (Hin t Ht) as (H1 & H2 & H3). destruct (Hin t' Ht') as (H1' & H2' & H3').
  unfold POST, POST_handler.
  change (unauthorized (withTeamNumber t req)) with (unauthorized req).
  change (unauthorized (withTeamNumber t' req)) with (unauthorized req).
  change (userIdOf (withTeamNumber t req)) with (userIdOf req).
  change (userIdOf (withTeamNumber t' req)) with (userIdOf req).
  destruct (unauthorized req); [reflexivity|].
  destruct (isUuid draftId); [|reflexivity].
  cbn [negb run Store.exec].
  destruct (Store.findDraft draftId (userIdOf req) db) as [draft|]; [|reflexivity].
  destruct (DraftStatus_eqb (Draft.status draft) completed); [reflexivity|].
  cbn [body withTeamNumber]. destruct (body req) as [b|]; [|reflexivity].
  cbn [option_map]. unfold makePickSchema.
  cbn [body_playerId body_teamNumber body_round body_pickNumber body_pickInRound
       body_isUserPick].
  rewrite H1, H2, H1', H2'.
  destruct (isUuid (body_playerId b) && true && true && (1 <=? body_round b)
            && (1 <=? body_pickNumber b) && (1 <=? body_pickInRound b))%bool;
    [|reflexivity].
  cbn [run Store.exec playerId].
  destruct (Store.findPlayer (body_playerId b) db) as [player|]; [|reflexivity].
  cbn [run Store.exec].
  destruct (Store.findPickOfPlayer draftId (body_playerId b) db); [reflexivity|].
  cbn [run Store.exec teamNumber round pickNumber pickInRound isUserPick].
  unfold Store.referencesHold, Store.insertable.
  cbn [Store.new_draftId Store.new_playerId Store.new_teamNumber Store.new_round
       Store.new_pickNumber Store.new_pickInRound].
  rewrite H3, H3'.
  destruct (existsb (fun d => String.eqb (Draft.id d) draftId) (Store.drafts db)
            && existsb (fun p => String.eqb (Player.id p) (body_playerId b))
                       (Store.players db)
            && (true && Store.int4 (body_round b) && Store.int4 (body_pickNumber b)
                && Store.int4 (body_pickInRound b)))%bool; [|reflexivity].
  cbn [run Store.exec].
  destruct (Store.settable _); [|reflexivity].
  cbn [run Store.exec].
  destruct (body_pickNumber b >=? Draft.numTeams draft * Draft.rosterSize draft);
    reflexivity.
Qed.

Lemma makePickSchema_playerId b pickData :
  makePickSchema b = Some pickData -> playerId pickData = body_playerId b.
Proof.
  unfold makePickSchema. destruct (_ && _)%bool; [|discriminate].
  intros [= <-]. reflexivity.
Qed.

End RouteAnswers.

(* ===================================================================== *)
(** * The pick routes against the turn engine of the specification *)
(* ===================================================================== *)

(** C1 (as the code has it) — [POST] has no turn check.  A request that
    passes the checks of the handler (an existing, not completed draft of
    the caller, a valid body, a known player not yet picked in the draft)
    and whose numbers fit the 32-bit columns they are written to is
    answered 201 whatever team number it gives: the row is stored with
    that team number and the draft's current pick becomes the pick number
    plus one.  The status of the answer is the same for all team numbers
    from 1 to 20 the request could carry, so it does not depend on whose
    turn it is; and [POST] answers no errors but the eight listed, none of
    them about the turn. *)
Theorem makePick_has_no_turn_check
    (req : Route.Request) (draftId : string) (db : Store.t) :
  (forall draft pickData player,
     Route.admitted req draftId db draft pickData player ->
     Route.fits pickData = true ->
     exists row db' draft',
       Route.POST req draftId db = (Route.JsonPick row player, db') /\
       DraftPick.teamNumber row = Route.teamNumber pickData /\
       DraftPick.pickNumber row = Route.pickNumber pickData /\
       Store.draftPicks db' = (Store.draftPicks db ++ [row])%list /\
       Store.findDraft draftId (Route.userIdOf req) db' = Some draft' /\
       Draft.currentPick draft' = Some (Route.pickNumber pickData + 1)) /\
  (forall t t', 1 <= t <= 20 -> 1 <= t' <= 20 ->
     Route.httpStatus (fst (Route.POST (Route.withTeamNumber t req) draftId db))
     = Route.httpStatus (fst (Route.POST (Route.withTeamNumber t' req) draftId db))) /\
  (forall error status db',
     Route.POST req draftId db = (Route.JsonError error status, db') ->
     In (error, status)
        [("Unauthorized", 401); ("Invalid draft ID", 400); ("Draft not found", 404);
         ("Draft is already completed", 400); ("Failed to make draft pick", 500);
         ("Invalid request", 400); ("Player not found", 404);
         ("Player already drafted", 400)]).
Proof.
  split; [|split].
  - intros draft pickData player Hadm Hfits.
    pose proof Hadm as (_ & _ & Hdraft & _).
    destruct (findDraft_afterPick draft draft draftId (Route.userIdOf req)
                pickData db Hdraft) as (draft' & Hd' & Hcp & _).
    exists (Store.newRow (Route.valuesOf draftId pickData) db),
      (Route.afterPick draft draftId pickData db), draft'.
    split; [apply POST_admitted; assumption|].
    split; [reflexivity|]. split; [reflexivity|].
    split; [apply draftPicks_afterPick|]. auto.
  - apply POST_status_teamNumber.
  - apply POST_errors.
Qed.

Lemma makePick_has_no_turn_check_witness :
  let req := League.pickRequest League.playerA 4 1 1 1 true in
  Route.spec_seat snake 4 1 = Some 1 /\
  Route.withTeamNumber 1 req = League.pickRequest League.playerA 1 1 1 1 true /\
  exists draft pickData player,
    Route.admitted req League.draftId League.start draft pickData player /\
    Route.fits pickData = true /\
    Route.teamNumber pickData = 4 /\
    exists row db' draft',
      Route.POST req League.draftId League.start = (Route.JsonPick row player, db') /\
      DraftPick.teamNumber row = 4 /\
      DraftPick.pickNumber row = 1 /\
      Store.draftPicks db' = (Store.draftPicks League.start ++ [row])%list /\
      Store.findDraft League.draftId (Route.userIdOf req) db' = Some draft' /\
      Draft.currentPick draft' = Some (1 + 1).
Proof.
  intros req. split; [reflexivity|]. split; [reflexivity|].
  exists League.fresh,
    (Route.mkPickData League.playerA 4 1 1 1 true),
    (League.nba League.playerA "Ann Able" "PG" 1).
  assert (Route.admitted req League.draftId League.start League.fresh
            (Route.mkPickData League.playerA 4 1 1 1 true)
            (League.nba League.playerA "Ann Able" "PG" 1)) as Hadm.
  { repeat split; try reflexivity; try discriminate.
    eexists. split; reflexivity. }
  split; [exact Hadm|]. split; [reflexivity|]. split; [reflexivity|].
  exact (proj1 (makePick_has_no_turn_check req League.draftId League.start)
           _ _ _ Hadm eq_refl).
Defined.

(** C1 as stated fails: in a fresh four-team snake draft pick 1 belongs to
    seat 1, yet the pick submitted for seat 4 is answered 201, its row is
    stored and the current pick moves from 1 to 2. *)
Lemma out_of_turn_pick_is_recorded :
  let req := League.pickRequest League.playerA 4 1 1 1 true in
  let '(resp, db') := Route.POST req League.draftId League.start in
  Draft.draftType League.fresh = snake /\
  Route.spec_seat snake (Draft.numTeams League.fresh) 1 = Some 1 /\
  Route.httpStatus resp = 201 /\
  Route.errorKind resp = None /\
  Store.draftPicks League.start = [] /\
  List.map DraftPick.teamNumber (Store.draftPicks db') = [4] /\
  (League.draftIn League.start ≫= Draft.currentPick) = Some 1 /\
  (League.draftIn db' ≫= Draft.currentPick) = Some 2.
Proof. vm_compute. repeat split. Qed.

(** C2 (as the code has it) — a successful [POST] sets the current pick to
    the submitted pick number plus one, whatever it was before, so it goes
    up by exactly one when the request was for the current pick; a
    successful [DELETE] sets it to the pick number of the undone pick, so
    it goes down by exactly one when it stood one above that number. *)
Theorem currentPick_follows_pickNumber
    (req : Route.Request) (draftId : string) (db db' : Store.t) :
  (forall pick player,
     Route.POST req draftId db = (Route.JsonPick pick player, db') ->
     exists draft draft',
       Store.findDraft draftId (Route.userIdOf req) db = Some draft /\
       Store.findDraft draftId (Route.userIdOf req) db' = Some draft' /\
       Draft.currentPick draft' = Some (DraftPick.pickNumber pick + 1) /\
       (forall current, Draft.currentPick draft = Some current ->
          DraftPick.pickNumber pick = current ->
          Draft.currentPick draft' = Some (current + 1))) /\
  (forall pickId,
     Route.DELETE req draftId db = (Route.JsonUndone pickId, db') ->
     exists draft draft' lastPick,
       Store.findDraft draftId (Route.userIdOf req) db = Some draft /\
       Store.lastPick (Store.picksOf draftId db) = Some lastPick /\
       Store.findDraft draftId (Route.userIdOf req) db' = Some draft' /\
       Draft.currentPick draft' = Some (DraftPick.pickNumber lastPick) /\
       (forall current, Draft.currentPick draft = Some current ->
          current = DraftPick.pickNumber lastPick + 1 ->
          Draft.currentPick draft' = Some (current - 1))).
Proof.
  split.
  - intros pick player HP.
    apply POST_created in HP as (draft & pickData & Hadm & _ & -> & ->).
    pose proof Hadm as (_ & _ & Hdraft & _).
    destruct (findDraft_afterPick draft draft draftId (Route.userIdOf req)
                pickData db Hdraft) as (draft' & Hd' & Hcp & _).
    exists draft, draft'. repeat split; auto.
    intros current _ <-. exact Hcp.
  - intros pickId HD.
    apply DELETE_undone in HD as (draft & lastPick & Hok & _ & -> & ->).
    pose proof Hok as (_ & _ & Hdraft & Hlast & _).
    destruct (findDraft_afterUndo draft draftId (Route.userIdOf req)
                lastPick db Hdraft) as (draft' & Hd' & Hcp & _).
    exists draft, draft', lastPick. repeat split; auto.
    intros current _ ->. rewrite Hcp. f_equal. lia.
Qed.

Lemma currentPick_follows_pickNumber_witness :
  let req := League.pickRequest League.playerA 1 1 1 1 false in
  let db' := snd (Route.POST req League.draftId League.start) in
  (exists pick player,
     Route.POST req League.draftId League.start = (Route.JsonPick pick player, db')) /\
  exists draft draft',
    Store.findDraft League.draftId League.owner League.start = Some draft /\
    Store.findDraft League.draftId League.owner db' = Some draft' /\
    Draft.currentPick draft = Some 1 /\
    Draft.currentPick draft' = Some (1 + 1).
Proof.
  intros req db'.
  assert (Route.POST req League.draftId League.start
          = (Route.JsonPick
               (Store.newRow
                  (Route.valuesOf League.draftId
                     (Route.mkPickData League.playerA 1 1 1 1 false)) League.start)
               (League.nba League.playerA "Ann Able" "PG" 1), db')) as HP
    by reflexivity.
  split; [eauto|].
  destruct (proj1 (currentPick_follows_pickNumber req League.draftId League.start db')
              _ _ HP) as (draft & draft' & Hd & Hd' & _ & Hstep).
  exists draft, draft'. split; [exact Hd|]. split; [exact Hd'|].
  change (Some League.fresh = Some draft) in Hd. injection Hd as <-.
  split; [reflexivity|]. apply Hstep; reflexivity.
Defined.

(** C2 as stated fails: with the draft at pick 1, a request for pick 3 is
    answered 201 and the current pick jumps to 4. *)
Lemma pick_ahead_of_turn_is_recorded :
  let req := League.pickRequest League.playerC 3 1 3 3 false in
  let '(resp, db') := Route.POST req League.draftId League.start in
  (League.draftIn League.start ≫= Draft.currentPick) = Some 1 /\
  Route.httpStatus resp = 201 /\
  List.map DraftPick.pickNumber (Store.draftPicks db') = [3] /\
  (League.draftIn db' ≫= Draft.currentPick) = Some 4 /\
  (League.draftIn db' ≫= Draft.currentPick) <> Some (1 + 1).
Proof. vm_compute. repeat split. discriminate. Qed.

Lemma filter_drop_newest (rows : list DraftPick.t) (row : DraftPick.t) :
  Forall (fun p => (DraftPick.id p < DraftPick.id row)%nat) rows ->
  List.filter (fun p => negb (Nat.eqb (DraftPick.id p) (DraftPick.id row)))
              (rows ++ [row])
  = rows.
Proof.
  intros Hk. rewrite List.filter_app. simpl. rewrite Nat.eqb_refl. simpl.
  rewrite List.app_nil_r. apply forallb_filter_id.
  apply forallb_forall. rewrite List.Forall_forall in Hk.
  intros p Hp. specialize (Hk p Hp). apply negb_true_iff, Nat.eqb_neq. lia.
Qed.

(** C4 (as the code has it) — an undo right after a successful pick that
    was flagged as the user's and carries the greatest pick number of the
    draft removes the stored row again, sets the current pick and round to
    the pick's own number and round (the values before the pick when the
    request named them), and leaves the status [setup] exactly when the
    pick was number 1, [in_progress] otherwise. *)
Theorem undo_after_pick
    (req undo : Route.Request) (draftId : string) (db db1 : Store.t)
    (pick : DraftPick.t) (player : Player.t) :
  Store.keysBelowNext db ->
  Route.POST req draftId db = (Route.JsonPick pick player, db1) ->
  DraftPick.isUserPick pick = Some true ->
  Forall (fun r => DraftPick.pickNumber r < DraftPick.pickNumber pick)
         (Store.picksOf draftId db) ->
  Route.unauthorized undo = false ->
  Route.userIdOf undo = Route.userIdOf req ->
  exists db2 draft2,
    Route.DELETE undo draftId db1 = (Route.JsonUndone (DraftPick.id pick), db2) /\
    Store.draftPicks db2 = Store.draftPicks db /\
    Store.findDraft draftId (Route.userIdOf req) db2 = Some draft2 /\
    Draft.currentPick draft2 = Some (DraftPick.pickNumber pick) /\
    Draft.currentRound draft2 = Some (DraftPick.round pick) /\
    (Draft.status draft2 = setup <-> DraftPick.pickNumber pick = 1) /\
    (Draft.status draft2 = in_progress <-> DraftPick.pickNumber pick <> 1) /\
    (forall draft, Store.findDraft draftId (Route.userIdOf req) db = Some draft ->
       (Draft.currentPick draft = Some (DraftPick.pickNumber pick) ->
        Draft.currentPick draft2 = Draft.currentPick draft) /\
       (Draft.currentRound draft = Some (DraftPick.round pick) ->
        Draft.currentRound draft2 = Draft.currentRound draft)).
Proof.
  intros Hkeys HP Huser Hnewest Hauth Hsame.
  apply POST_created in HP as (draft & pickData & Hadm & Hfits & -> & ->).
  pose proof Hadm as (_ & Huuid & Hdraft & _ & (b & _ & Hvalid) & _).
  set (row := Store.newRow (Route.valuesOf draftId pickData) db) in *.
  assert (Store.settable (Route.rewind row) = true) as Hset.
  { apply pickTyped_settable. unfold Store.pickTyped, row. simpl.
    exact (proj1 (fits_insertable b draftId pickData Hvalid Hfits)). }
  destruct (findDraft_afterPick draft draft draftId (Route.userIdOf req)
              pickData db Hdraft) as (draft1 & Hd1 & _).
  assert (Route.undoable undo draftId (Route.afterPick draft draftId pickData db)
            draft1 row) as Hok.
  { repeat split; auto.
    - rewrite Hsame. exact Hd1.
    - rewrite picksOf_afterPick. apply lastPick_newest. exact Hnewest.
    - rewrite Huser. reflexivity. }
  destruct (findDraft_afterUndo draft1 draftId (Route.userIdOf req) row
              (Route.afterPick draft draftId pickData db) Hd1)
    as (draft2 & Hd2 & Hcp & Hcr & Hst).
  exists (Route.afterUndo draftId row (Route.afterPick draft draftId pickData db)),
    draft2.
  split; [exact (DELETE_undoable _ _ _ draft1 _ Hok Hset)|].
  split.
  { unfold Route.afterUndo, Store.updateDraft, Store.deletePick.
    cbn [Store.draftPicks]. rewrite draftPicks_afterPick.
    apply filter_drop_newest. exact Hkeys. }
  split; [exact Hd2|]. split; [exact Hcp|]. split; [exact Hcr|].
  split; [|split].
  - rewrite Hst. destruct (Z.eqb_spec (DraftPick.pickNumber row) 1); split;
      congruence.
  - rewrite Hst. destruct (Z.eqb_spec (DraftPick.pickNumber row) 1); split;
      congruence.
  - intros draft0 _. split; congruence.
Qed.

Lemma undo_after_pick_witness :
  let req := League.pickRequest League.playerE 4 2 5 1 true in
  let db1 := snd (Route.POST req League.draftId League.afterRoundOne) in
  Store.keysBelowNext League.afterRoundOne /\
  exists pick player,
    Route.POST req League.draftId League.afterRoundOne
    = (Route.JsonPick pick player, db1) /\
    DraftPick.isUserPick pick = Some true /\
    Forall (fun r => DraftPick.pickNumber r < DraftPick.pickNumber pick)
           (Store.picksOf League.draftId League.afterRoundOne) /\
    exists db2 draft2,
      Route.DELETE League.undoRequest League.draftId db1
      = (Route.JsonUndone (DraftPick.id pick), db2) /\
      Store.draftPicks db2 = Store.draftPicks League.afterRoundOne /\
      Store.findDraft League.draftId League.owner db2 = Some draft2 /\
      Draft.currentPick draft2 = Some 5.
Proof.
  intros req db1.
  assert (Store.keysBelowNext League.afterRoundOne) as Hkeys.
  { unfold Store.keysBelowNext. vm_compute. repeat constructor. }
  split; [exact Hkeys|].
  set (pick := Store.newRow
                 (Route.valuesOf League.draftId
                    (Route.mkPickData League.playerE 4 2 5 1 true))
                 League.afterRoundOne).
  exists pick, (League.nba League.playerE "Ed Eads" "C" 5).
  assert (Route.POST req League.draftId League.afterRoundOne
          = (Route.JsonPick pick (League.nba League.playerE "Ed Eads" "C" 5), db1))
    as HP by (vm_compute; reflexivity).
  assert (Forall (fun r => DraftPick.pickNumber r < DraftPick.pickNumber pick)
            (Store.picksOf League.draftId League.afterRoundOne)) as Hnewest.
  { vm_compute. repeat constructor. }
  split; [exact HP|]. split; [reflexivity|]. split; [exact Hnewest|].
  destruct (undo_after_pick req League.undoRequest League.draftId
              League.afterRoundOne db1 pick _ Hkeys HP eq_refl Hnewest
              eq_refl eq_refl)
    as (db2 & draft2 & HD & Hrows & Hd2 & Hcp & _).
  exists db2, draft2. auto.
Defined.

(** C4 as stated fails, in two ways.  At a round boundary: after the four
    picks of round 1 the draft stands at round 1, pick 5; the user's pick 5
    (round 2) followed by its undo leaves the draft at round 2, not 1.  And
    for a pick of another seat: the undo is refused, so the row stays and
    the current pick is not restored. *)
Lemma undo_does_not_restore :
  (let req := League.pickRequest League.playerE 4 2 5 1 true in
   let '(resp1, db1) := Route.POST req League.draftId League.afterRoundOne in
   let '(resp2, db2) := Route.DELETE League.undoRequest League.draftId db1 in
   Route.httpStatus resp1 = 201 /\
   Route.httpStatus resp2 = 200 /\
   (League.draftIn League.afterRoundOne ≫= Draft.currentRound) = Some 1 /\
   (League.draftIn League.afterRoundOne ≫= Draft.currentPick) = Some 5 /\
   (League.draftIn db2 ≫= Draft.currentPick) = Some 5 /\
   (League.draftIn db2 ≫= Draft.currentRound) = Some 2) /\
  (let req := League.pickRequest League.playerA 1 1 1 1 false in
   let '(resp1, db1) := Route.POST req League.draftId League.start in
   let '(resp2, db2) := Route.DELETE League.undoRequest League.draftId db1 in
   Route.httpStatus resp1 = 201 /\
   resp2 = Route.JsonError "Can only undo your own picks" 403 /\
   (League.draftIn League.start ≫= Draft.currentPick) = Some 1 /\
   (League.draftIn db2 ≫= Draft.currentPick) = Some 2 /\
   length (Store.draftPicks db2) = 1%nat).
Proof. vm_compute. repeat split. Qed.

(** C5 (as the code has it) — for the owner of a draft, an undo is
    answered "No picks to undo" (400) when the draft has no pick, and
    otherwise looks at a pick with the greatest pick number: it is answered
    "Can only undo your own picks" (403) when that pick is not flagged as
    the user's, both times with the store untouched, and it goes through
    when the pick is flagged, whatever its team number (the rows of the
    store holding 32-bit integers, as the rows of the tables do).  An undo
    that goes through had such a flagged last pick. *)
Theorem undo_checks_the_flag_only
    (req : Route.Request) (draftId : string) (db : Store.t) (draft : Draft.t) :
  Route.unauthorized req = false ->
  Route.isUuid draftId = true ->
  Store.findDraft draftId (Route.userIdOf req) db = Some draft ->
  (Store.picksOf draftId db = [] ->
   Route.DELETE req draftId db = (Route.JsonError "No picks to undo" 400, db) /\
   Route.errorKind (fst (Route.DELETE req draftId db)) = Some Route.NoPicksToUndo) /\
  (forall lastPick,
     Store.lastPick (Store.picksOf draftId db) = Some lastPick ->
     In lastPick (Store.picksOf draftId db) /\
     Forall (fun r => DraftPick.pickNumber r <= DraftPick.pickNumber lastPick)
            (Store.picksOf draftId db) /\
     (Js.truthy (DraftPick.isUserPick lastPick) = false ->
      Route.DELETE req draftId db
      = (Route.JsonError "Can only undo your own picks" 403, db) /\
      Route.errorKind (fst (Route.DELETE req draftId db)) = Some Route.ForbiddenUndo) /\
     (Js.truthy (DraftPick.isUserPick lastPick) = true ->
      Store.typed db = true ->
      Route.DELETE req draftId db
      = (Route.JsonUndone (DraftPick.id lastPick),
         Route.afterUndo draftId lastPick db))) /\
  (forall pickId db',
     Route.DELETE req draftId db = (Route.JsonUndone pickId, db') ->
     exists lastPick,
       Store.lastPick (Store.picksOf draftId db) = Some lastPick /\
       DraftPick.id lastPick = pickId /\
       Js.truthy (DraftPick.isUserPick lastPick) = true).
Proof.
  intros Hauth Huuid Hdraft. split; [|split].
  - intros Hempty.
    assert (Route.DELETE req draftId db
            = (Route.JsonError "No picks to undo" 400, db)) as HD.
    { unfold Route.DELETE, Route.DELETE_handler. rewrite Hauth, Huuid.
      cbn [negb Route.run Store.exec]. rewrite Hdraft.
      cbn [Route.run Store.exec]. rewrite Hempty. reflexivity. }
    split; [exact HD|]. rewrite HD. reflexivity.
  - intros lastPick Hlast.
    destruct (lastPick_greatest _ _ Hlast) as [Hin Hmax].
    split; [exact Hin|]. split; [exact Hmax|]. split.
    + intros Hflag.
      assert (Route.DELETE req draftId db
              = (Route.JsonError "Can only undo your own picks" 403, db)) as HD.
      { unfold Route.DELETE, Route.DELETE_handler. rewrite Hauth, Huuid.
        cbn [negb Route.run Store.exec]. rewrite Hdraft.
        cbn [Route.run Store.exec]. rewrite Hlast, Hflag. reflexivity. }
      split; [exact HD|]. rewrite HD. reflexivity.
    + intros Hflag Htyped.
      apply (DELETE_undoable req draftId db draft lastPick).
      * repeat split; assumption.
      * apply pickTyped_settable.
        exact (typed_lastPick draftId db lastPick Htyped Hlast).
  - intros pickId db' HD.
    apply DELETE_undone in HD as (draft' & lastPick & Hok & _ & -> & _).
    destruct Hok as (_ & _ & _ & Hlast & Hflag).
    exists lastPick. auto.
Qed.

Lemma undo_checks_the_flag_only_witness :
  let db := snd (Route.POST (League.pickRequest League.playerA 1 1 1 1 true)
                            League.draftId League.start) in
  Route.unauthorized League.undoRequest = false /\
  Route.isUuid League.draftId = true /\
  (exists draft, Store.findDraft League.draftId League.owner db = Some draft) /\
  Store.typed db = true /\
  exists lastPick,
    Store.lastPick (Store.picksOf League.draftId db) = Some lastPick /\
    DraftPick.teamNumber lastPick = 1 /\
    Route.DELETE League.undoRequest League.draftId db
    = (Route.JsonUndone (DraftPick.id lastPick),
       Route.afterUndo League.draftId lastPick db).
Proof.
  intros db.
  destruct (Store.findDraft League.draftId League.owner db) as [draft|] eqn:Hdraft;
    [|vm_compute in Hdraft; discriminate].
  destruct (Store.lastPick (Store.picksOf League.draftId db)) as [lastPick|] eqn:Hlast;
    [|vm_compute in Hlast; discriminate].
  split; [reflexivity|]. split; [reflexivity|]. split; [eauto|].
  split; [reflexivity|].
  exists lastPick. split; [reflexivity|].
  assert (lastPick = {| DraftPick.id := 0; DraftPick.draftId := League.draftId;
                        DraftPick.playerId := League.playerA;
                        DraftPick.teamNumber := 1; DraftPick.round := 1;
                        DraftPick.pickNumber := 1; DraftPick.pickInRound := 1;
                        DraftPick.isUserPick := Some true |}) as E.
  { vm_compute in Hlast. injection Hlast as <-. reflexivity. }
  split; [rewrite E; reflexivity|].
  apply (proj1 (proj2 (undo_checks_the_flag_only League.undoRequest League.draftId
                         db draft eq_refl eq_refl Hdraft)) lastPick Hlast).
  - rewrite E. reflexivity.
  - reflexivity.
Defined.

(** C5 as stated fails: the user sits at seat 4; a pick recorded for seat 1
    with the user flag set is undone on the user's request. *)
Lemma undo_of_another_seat_goes_through :
  let req := League.pickRequest League.playerA 1 1 1 1 true in
  let '(resp1, db1) := Route.POST req League.draftId League.start in
  let '(resp2, db2) := Route.DELETE League.undoRequest League.draftId db1 in
  (League.draftIn League.start ≫= (fun d => Some (Draft.draftPosition d))) = Some 4 /\
  option_map DraftPick.teamNumber (Store.lastPick (Store.picksOf League.draftId db1))
  = Some 1 /\
  Route.httpStatus resp1 = 201 /\
  resp2 = Route.JsonUndone 0 /\
  Store.draftPicks db2 = [].
Proof. vm_compute. repeat split. Qed.

Lemma findPlayer_afterPick draft draftId pickData db playerId :
  Store.findPlayer playerId (Route.afterPick draft draftId pickData db)
  = Store.findPlayer playerId db.
Proof.
  unfold Route.afterPick.
  destruct (Route.pickNumber pickData >=? Draft.numTeams draft * Draft.rosterSize draft);
    reflexivity.
Qed.

(** C9 (as the code has it) — handled one after the other, a pick request
    for a player who has a pick recorded in the draft, whichever row that
    is, is answered with an error and leaves the store untouched; when it
    gets as far as the check, the answer is "Player already drafted"
    (400).  The pick number is not checked: a request that passes the
    checks and fits is accepted whatever pick numbers the draft already
    holds, so the rows of the draft with that pick number are one more
    than before. *)
Theorem second_pick_of_player_is_refused
    (req : Route.Request) (draftId : string) (db : Store.t) :
  (forall b row,
     Route.body req = Some b ->
     In row (Store.draftPicks db) ->
     DraftPick.draftId row = draftId ->
     DraftPick.playerId row = Route.body_playerId b ->
     (exists error status,
        Route.POST req draftId db = (Route.JsonError error status, db)) /\
     (forall draft pickData player,
        Route.unauthorized req = false ->
        Route.isUuid draftId = true ->
        Store.findDraft draftId (Route.userIdOf req) db = Some draft ->
        Draft.status draft <> completed ->
        Route.makePickSchema b = Some pickData ->
        Store.findPlayer (Route.playerId pickData) db = Some player ->
        Route.POST req draftId db
        = (Route.JsonError "Player already drafted" 400, db))) /\
  (forall draft pickData player,
     Route.admitted req draftId db draft pickData player ->
     Route.fits pickData = true ->
     let sameNumber (s : Store.t) :=
       List.filter (fun r => DraftPick.pickNumber r =? Route.pickNumber pickData)
                   (Store.picksOf draftId s) in
     exists row db',
       Route.POST req draftId db = (Route.JsonPick row player, db') /\
       DraftPick.pickNumber row = Route.pickNumber pickData /\
       Store.picksOf draftId db' = (Store.picksOf draftId db ++ [row])%list /\
       length (sameNumber db') = S (length (sameNumber db))).
Proof.
  split.
  - intros b row Hb Hin Hrow Hsame.
    assert (exists found,
              Store.findPickOfPlayer draftId (Route.body_playerId b) db = Some found)
      as (found & Hfound).
    { apply (find_in_some _ _ row Hin). rewrite Hrow, Hsame, !String.eqb_refl.
      reflexivity. }
    split.
    + destruct (POST_cases req draftId db)
        as [(draft & pickData & player & Hadm) | Herr]; [|exact Herr].
      exfalso. destruct Hadm as (_ & _ & _ & _ & (b' & Hb' & Hv) & _ & Hfree).
      rewrite Hb in Hb'. injection Hb' as <-.
      rewrite (makePickSchema_playerId _ _ Hv), Hfound in Hfree. discriminate.
    + intros draft pickData player Hauth Huuid Hdraft Hstatus Hv Hplayer.
      unfold Route.POST, Route.POST_handler. rewrite Hauth, Huuid.
      cbn [negb Route.run Store.exec]. rewrite Hdraft.
      destruct (DraftStatus_eqb (Draft.status draft) completed) eqn:Hs.
      { destruct (Draft.status draft); simpl in Hs; congruence. }
      rewrite Hb, Hv. cbn [Route.run Store.exec]. rewrite Hplayer.
      cbn [Route.run Store.exec].
      rewrite (makePickSchema_playerId _ _ Hv), Hfound. reflexivity.
  - intros draft pickData player Hadm Hfits sameNumber.
    exists (Store.newRow (Route.valuesOf draftId pickData) db),
      (Route.afterPick draft draftId pickData db).
    split; [apply POST_admitted; assumption|].
    split; [reflexivity|]. split; [apply picksOf_afterPick|].
    unfold sameNumber. rewrite picksOf_afterPick, List.filter_app, length_app.
    simpl. rewrite Z.eqb_refl. simpl. lia.
Qed.

Lemma second_pick_of_player_is_refused_witness :
  let db := League.after [League.pickRequest League.playerA 1 1 1 1 false;
                          League.pickRequest League.playerB 2 1 2 2 false]
                         League.start in
  let again := League.pickRequest League.playerA 3 1 3 3 false in
  List.map DraftPick.playerId (Store.draftPicks db) = [League.playerA; League.playerB] /\
  Route.POST again League.draftId db
  = (Route.JsonError "Player already drafted" 400, db).
Proof.
  intros db again. split; [reflexivity|].
  destruct (Store.findDraft League.draftId (Route.userIdOf again) db)
    as [draft|] eqn:Hdraft; [|vm_compute in Hdraft; discriminate].
  destruct (Store.draftPicks db) as [|row rows] eqn:Hrows;
    [vm_compute in Hrows; discriminate|].
  assert (DraftPick.draftId row = League.draftId
          /\ DraftPick.playerId row = League.playerA) as [Hd Hp].
  { vm_compute in Hrows. injection Hrows as <- _. split; reflexivity. }
  refine (proj2 (proj1 (second_pick_of_player_is_refused again League.draftId db)
                   _ row eq_refl _ Hd Hp)
            draft (Route.mkPickData League.playerA 3 1 3 3 false)
            (League.nba League.playerA "Ann Able" "PG" 1)
            eq_refl eq_refl Hdraft _ eq_refl eq_refl).
  - rewrite Hrows. left. reflexivity.
  - vm_compute in Hdraft. injection Hdraft as <-. discriminate.
Defined.

(** C9 as stated fails.  Two requests for the same player and the same
    pick number, the second running its checks while the first waits
    between its check and its insert, are both answered 201 and both rows
    are stored.  And two requests for the same pick number but different
    players succeed even one after the other. *)
Lemma concurrent_picks_both_succeed :
  (let req1 := League.pickRequest League.playerA 1 1 1 1 false in
   let req2 := League.pickRequest League.playerA 1 1 1 1 false in
   let schedule :=
     [Route.First; Route.First; Route.First;
      Route.Second; Route.Second; Route.Second; Route.Second; Route.Second;
      Route.First; Route.First] in
   let '(h1, h2, db') :=
     Route.interleave schedule (Route.POST_handler req1 League.draftId)
                      (Route.POST_handler req2 League.draftId) League.start in
   exists pick1 pick2 player,
     h1 = Route.Answer (Route.JsonPick pick1 player) /\
     h2 = Route.Answer (Route.JsonPick pick2 player) /\
     Store.draftPicks db' = [pick2; pick1] /\
     DraftPick.draftId pick1 = DraftPick.draftId pick2 /\
     DraftPick.playerId pick1 = DraftPick.playerId pick2 /\
     DraftPick.pickNumber pick1 = DraftPick.pickNumber pick2) /\
  (let req1 := League.pickRequest League.playerA 1 1 1 1 false in
   let req2 := League.pickRequest League.playerB 2 1 1 1 false in
   let '(resp1, db1) := Route.POST req1 League.draftId League.start in
   let '(resp2, db2) := Route.POST req2 League.draftId db1 in
   Route.httpStatus resp1 = 201 /\
   Route.httpStatus resp2 = 201 /\
   List.map DraftPick.pickNumber (Store.draftPicks db2) = [1; 1]).
Proof.
  split.
  - vm_compute. do 3 eexists. repeat split.
  - vm_compute. repeat split.
Qed.

(** A handler run in one go is the same handler stepped with nothing in
    between: the serial schedules are among the interleavings. *)
Lemma run_by_steps (failed : Route.Response) (h : Route.Handler) (db : Store.t) :
  exists n,
    Nat.iter n (fun c => Route.step failed (fst c) (snd c)) (h, db)
    = (Route.Answer (fst (Route.run failed h db)), snd (Route.run failed h db)).
Proof.
  revert db. induction h as [r| |R q k IH]; intros db.
  - exists 0%nat. reflexivity.
  - exists 1%nat. reflexivity.
  - simpl Route.run. destruct (Store.exec q db) as [[r|] db'] eqn:Hexec.
    + destruct (IH r db') as (n & Hn). exists (S n).
      rewrite Nat.iter_succ_r. simpl. rewrite Hexec. exact Hn.
    + exists 1%nat. simpl. rewrite Hexec. reflexivity.
Qed.

(* ===================================================================== *)
(** * Further facts: the board and the draft room page *)
(* ===================================================================== *)

Lemma upfrom_app lo (a b : nat) :
  Board.upfrom lo (a + b) = (Board.upfrom lo a ++ Board.upfrom (lo + Z.of_nat a) b)%list.
Proof.
  revert lo. induction a as [|a IH]; intros lo.
  - cbn [Nat.add Z.of_nat]. rewrite Z.add_0_r. reflexivity.
  - replace (S a + b)%nat with (S (a + b)) by lia.
    rewrite !upfrom_succ_head, IH.
    replace (lo + Z.of_nat (S a)) with (lo + 1 + Z.of_nat a) by lia. reflexivity.
Qed.

Lemma boardRound_picks numTeams round :
  List.map Board.pick (Board.boardRound numTeams round)
  = Board.upfrom ((round - 1) * numTeams + 1) (Z.to_nat numTeams).
Proof.
  unfold Board.boardRound, Board.loop1, Board.upfrom.
  rewrite !List.map_map. apply List.map_ext. intros i. simpl. lia.
Qed.

(** The board lists the picks [1, 2, ..., numTeams * numRounds] in this
    order: no pick number is missing and none comes twice. *)
Theorem board_picks_in_order (numTeams numRounds : Z) :
  0 <= numTeams -> 0 <= numRounds ->
  List.map Board.pick (Board.buildBoard numTeams numRounds)
  = Board.loop1 (numTeams * numRounds).
Proof.
  intros Hn Hr. unfold Board.buildBoard, Board.loop1.
  rewrite Z2Nat.inj_mul by lia. rewrite Nat.mul_comm.
  generalize (Z.to_nat numRounds) as R. intros R.
  induction R as [|R IH]; [reflexivity|].
  rewrite upfrom_succ_last, List.flat_map_app, List.map_app, IH.
  simpl List.flat_map. rewrite List.app_nil_r, boardRound_picks.
  replace (S R * Z.to_nat numTeams)%nat
    with (R * Z.to_nat numTeams + Z.to_nat numTeams)%nat by lia.
  rewrite upfrom_app. do 2 f_equal. lia.
Qed.

Lemma board_picks_in_order_witness :
  0 <= 12 /\ 0 <= 16 /\
  List.map Board.pick Board.draftBoard = Board.loop1 192.
Proof.
  split; [lia|]. split; [lia|].
  exact (board_picks_in_order 12 16 ltac:(lia) ltac:(lia)).
Defined.




Lemma dispatch_pick_frozen st e :
  Board.isUserTurn (DraftRoom.draftBoard st) Board.userTeamIndex
                   (DraftRoom.currentPick st) = false ->
  Board.isUserTurn Board.draftBoard Board.userTeamIndex
                   (DraftRoom.currentPick st) = false ->
  let st' := DraftRoom.dispatch st e in
  DraftRoom.currentPick st' = DraftRoom.currentPick st /\
  DraftRoom.players st' = DraftRoom.players st /\
  DraftRoom.userRoster st' = DraftRoom.userRoster st /\
  (DraftRoom.draftBoard st' = DraftRoom.draftBoard st \/
   DraftRoom.draftBoard st' = Board.draftBoard).
Proof.
  intros Hnow Hmounted st'. unfold st'. destruct e; simpl; auto.
  unfold DraftRoom.handleDraftPlayer, DraftRoom.isUserTurn. rewrite Hnow. simpl. auto.
Qed.

(** While the pick on the clock belongs to another seat, on the board in
    place and on the board the mount effect installs, nothing the user or
    the timer does changes the current pick, the player list or the roster:
    only a click in turn advances the draft, and no event plays the other
    seats' picks.  The page starts in such a state (pick 1 belongs to
    seat 1, the user is seat 6). *)
Theorem draft_room_waits_forever
    (st : DraftRoom.State) (events : list DraftRoom.Event) :
  Board.isUserTurn (DraftRoom.draftBoard st) Board.userTeamIndex
                   (DraftRoom.currentPick st) = false ->
  Board.isUserTurn Board.draftBoard Board.userTeamIndex
                   (DraftRoom.currentPick st) = false ->
  let st' := DraftRoom.play events st in
  DraftRoom.currentPick st' = DraftRoom.currentPick st /\
  DraftRoom.players st' = DraftRoom.players st /\
  DraftRoom.userRoster st' = DraftRoom.userRoster st /\
  DraftRoom.isUserTurn st' = false.
Proof.
  revert st. induction events as [|e events IH]; intros st Hnow Hmounted; simpl.
  - repeat split. exact Hnow.
  - destruct (dispatch_pick_frozen st e Hnow Hmounted) as (Hcp & Hpl & Hro & Hboard).
    assert (Board.isUserTurn (DraftRoom.draftBoard (DraftRoom.dispatch st e))
              Board.userTeamIndex
              (DraftRoom.currentPick (DraftRoom.dispatch st e)) = false) as Hnow'.
    { rewrite Hcp. destruct Hboard as [-> | ->]; assumption. }
    assert (Board.isUserTurn Board.draftBoard Board.userTeamIndex
              (DraftRoom.currentPick (DraftRoom.dispatch st e)) = false) as Hmounted'.
    { rewrite Hcp. exact Hmounted. }
    destruct (IH _ Hnow' Hmounted') as (H1 & H2 & H3 & H4).
    unfold DraftRoom.play in *. simpl in *.
    rewrite H1, H2, H3, Hcp, Hpl, Hro. auto.
Qed.

Lemma draft_room_waits_forever_witness :
  let events := [DraftRoom.Mount; DraftRoom.Tick;
                 DraftRoom.Click (DraftRoom.mkPlayer "1" "Christian McCaffrey"
                                    "RB" "SF" 1 285 false)] in
  Board.isUserTurn (DraftRoom.draftBoard DraftRoom.initial) Board.userTeamIndex
                   (DraftRoom.currentPick DraftRoom.initial) = false /\
  Board.isUserTurn Board.draftBoard Board.userTeamIndex
                   (DraftRoom.currentPick DraftRoom.initial) = false /\
  DraftRoom.currentPick (DraftRoom.play events DraftRoom.initial) = 1 /\
  DraftRoom.userRoster (DraftRoom.play events DraftRoom.initial) = [].
Proof.
  intros events.
  assert (Board.isUserTurn (DraftRoom.draftBoard DraftRoom.initial) Board.userTeamIndex
            (DraftRoom.currentPick DraftRoom.initial) = false) as H1 by reflexivity.
  assert (Board.isUserTurn Board.draftBoard Board.userTeamIndex
            (DraftRoom.currentPick DraftRoom.initial) = false) as H2
    by (vm_compute; reflexivity).
  pose proof (draft_room_waits_forever DraftRoom.initial events H1 H2)
    as (Hcp & _ & Hro & _).
  split; [exact H1|]. split; [exact H2|]. split; [exact Hcp | exact Hro].
Defined.

Lemma two_digits z :
  0 <= z < 60 ->
  DraftRoom.padStart2 (Js.showZ z) = Js.showZ (z / 10) +:+ Js.showZ (z mod 10).
Proof.
  intros Hz. rewrite <- (Z2Nat.id z) by lia.
  assert (Z.to_nat z < 60)%nat as Hn by lia.
  generalize dependent (Z.to_nat z). clear z Hz. intros n Hn.
  do 60 (destruct n as [|n]; [vm_compute; reflexivity|]). lia.
Qed.

Lemma formatTime_digits seconds :
  0 <= seconds ->
  exists tens units,
    0 <= tens <= 5 /\ 0 <= units <= 9 /\
    seconds = 60 * (seconds / 60) + 10 * tens + units /\
    DraftRoom.formatTime seconds
    = Js.showZ (seconds / 60) +:+ ":" +:+ (Js.showZ tens +:+ Js.showZ units).
Proof.
  intros Hs.
  pose proof (Z.mod_pos_bound seconds 60 ltac:(lia)) as Hm.
  pose proof (Z.div_mod seconds 60 ltac:(lia)) as Hdm.
  pose proof (Z.mod_pos_bound (seconds mod 60) 10 ltac:(lia)) as Hu.
  pose proof (Z.div_mod (seconds mod 60) 10 ltac:(lia)) as Hdu.
  exists ((seconds mod 60) / 10), ((seconds mod 60) mod 10).
  split; [split; [apply Z.div_pos; lia | apply Z.lt_succ_r, Z.div_lt_upper_bound; lia]|].
  split; [lia|]. split; [lia|].
  unfold DraftRoom.formatTime. rewrite Z.rem_mod_nonneg by lia.
  rewrite two_digits by lia. reflexivity.
Qed.

Lemma dispatch_clock st e :
  0 <= DraftRoom.timeRemaining st <= 90 ->
  0 <= DraftRoom.timeRemaining (DraftRoom.dispatch st e) <= 90.
Proof.
  intros Ht. destruct e; simpl; try exact Ht.
  - unfold DraftRoom.countdown.
    destruct (Z.gtb_spec (DraftRoom.timeRemaining st) 0); lia.
  - unfold DraftRoom.handleDraftPlayer.
    destruct (negb (DraftRoom.isUserTurn st)); simpl; lia.
Qed.

(** Whatever happens on the page, the clock stays between 0 and 90
    seconds, and it is shown as minutes, a colon and exactly two digits of
    seconds that add up to the time left. *)
Theorem draft_room_clock (st : DraftRoom.State) (events : list DraftRoom.Event) :
  0 <= DraftRoom.timeRemaining st <= 90 ->
  let left := DraftRoom.timeRemaining (DraftRoom.play events st) in
  0 <= left <= 90 /\
  exists tens units,
    0 <= tens <= 5 /\ 0 <= units <= 9 /\
    left = 60 * (left / 60) + 10 * tens + units /\
    DraftRoom.formatTime left
    = Js.showZ (left / 60) +:+ ":" +:+ (Js.showZ tens +:+ Js.showZ units).
Proof.
  intros Ht left.
  assert (0 <= left <= 90) as Hleft.
  { unfold left, DraftRoom.play. clear left. revert st Ht.
    induction events as [|e events IH]; intros st Ht; simpl; [exact Ht|].
    apply IH, dispatch_clock, Ht. }
  split; [exact Hleft|]. apply formatTime_digits. lia.
Qed.

Lemma draft_room_clock_witness :
  0 <= DraftRoom.timeRemaining DraftRoom.initial <= 90 /\
  0 <= DraftRoom.timeRemaining
         (DraftRoom.play [DraftRoom.Tick; DraftRoom.Tick] DraftRoom.initial) <= 90.
Proof.
  assert (0 <= DraftRoom.timeRemaining DraftRoom.initial <= 90) as H
    by (simpl; lia).
  split; [exact H|].
  exact (proj1 (draft_room_clock DraftRoom.initial
                  [DraftRoom.Tick; DraftRoom.Tick] H)).
Defined.

Example formatTime_samples :
  List.map DraftRoom.formatTime [90; 61; 9; 0] = ["1:30"; "1:01"; "0:09"; "0:00"].
Proof. vm_compute. reflexivity. Qed.

(* ===================================================================== *)
(** * Further facts: the logger's redaction *)
(* ===================================================================== *)

Lemma Json_objects_ind (P : Logger.Json -> Prop) :
  (forall v, (forall fields, v <> Logger.JObj fields) -> P v) ->
  (forall fields, Forall (fun kv => P (snd kv)) fields -> P (Logger.JObj fields)) ->
  forall v, P v.
Proof.
  intros Hother Hobj. fix IH 1. intros v.
  destruct v as [ | b | n | s | items | fields];
    try (apply Hother; intros fields' E; discriminate E).
  apply Hobj. induction fields as [|[key v] fields IHf]; constructor.
  - apply IH.
  - exact IHf.
Qed.

Lemma redact_nil sensitive : Logger.redactWith sensitive [] = [].
Proof. reflexivity. Qed.

(** One turn of the loop of [redactSensitiveData]. *)
Lemma redact_cons sensitive key v rest :
  Logger.redactWith sensitive ((key, v) :: rest)
  = if Logger.isProto key then Logger.redactWith sensitive rest
    else (key,
          if sensitive key then Logger.REDACTED
          else match v with
               | Logger.JObj fields => Logger.JObj (Logger.redactWith sensitive fields)
               | _ => v
               end) :: Logger.redactWith sensitive rest.
Proof.
  unfold Logger.redactWith. simpl.
  destruct (Logger.isProto key); [reflexivity|].
  destruct (sensitive key); [reflexivity|].
  destruct v; reflexivity.
Qed.

Lemma redact_keys sensitive data :
  List.map fst (Logger.redactWith sensitive data)
  = List.filter (fun key => negb (Logger.isProto key)) (List.map fst data).
Proof.
  induction data as [|[key v] data IH]; [reflexivity|].
  rewrite redact_cons. simpl.
  destruct (Logger.isProto key); simpl; now rewrite IH.
Qed.

Lemma in_redact sensitive data key x :
  In (key, x) (Logger.redactWith sensitive data) ->
  Logger.isProto key = false /\
  exists v, In (key, v) data /\
    x = if sensitive key then Logger.REDACTED
        else match v with
             | Logger.JObj fields => Logger.JObj (Logger.redactWith sensitive fields)
             | _ => v
             end.
Proof.
  induction data as [|[key0 v0] data IH]; [intros []|].
  rewrite redact_cons.
  destruct (Logger.isProto key0) eqn:Hproto.
  - intros Hin. destruct (IH Hin) as (Hk & v & Hv & Hx).
    split; [exact Hk|]. exists v. split; [right; exact Hv|exact Hx].
  - intros [E|Hin].
    + inversion E; subst. split; [exact Hproto|].
      exists v0. split; [left; reflexivity|reflexivity].
    + destruct (IH Hin) as (Hk & v & Hv & Hx).
      split; [exact Hk|]. exists v. split; [right; exact Hv|exact Hx].
Qed.

Lemma redact_in (sensitive : string -> bool) data key v :
  In (key, v) data -> Logger.isProto key = false ->
  In (key,
      if sensitive key then Logger.REDACTED
      else match v with
           | Logger.JObj fields => Logger.JObj (Logger.redactWith sensitive fields)
           | _ => v
           end) (Logger.redactWith sensitive data).
Proof.
  intros Hin Hproto. induction data as [|[key0 v0] data IH]; [destruct Hin|].
  rewrite redact_cons. destruct Hin as [E|Hin].
  - inversion E; subst. rewrite Hproto. left. reflexivity.
  - destruct (Logger.isProto key0); [|right]; apply IH; exact Hin.
Qed.

(** What holds in the redacted record comes from an entry of the record
    that is not under the key ["__proto__"]. *)
Lemma holds_redact sensitive :
  forall v fields, v = Logger.JObj fields ->
    forall key value,
      Logger.Holds (Logger.redactWith sensitive fields) key value ->
      Logger.isProto key = false /\
      (sensitive key = true -> value = Logger.REDACTED).
Proof.
  intros v. induction v as [v Hv | fields IH] using Json_objects_ind.
  - intros fields E. destruct (Hv fields E).
  - intros fields' [= <-] key value Hholds.
    inversion Hholds as [d k x Hin | d outer inner k x Hin Hinner]; subst.
    + apply in_redact in Hin as (Hproto & v & _ & ->).
      split; [exact Hproto|]. intros ->. reflexivity.
    + apply in_redact in Hin as (_ & v & Hv & E).
      destruct (sensitive outer); [discriminate E|].
      rewrite List.Forall_forall in IH. specialize (IH _ Hv). simpl in IH.
      destruct v as [ | | | | | f]; try discriminate E.
      injection E as ->. exact (IH f eq_refl key value Hinner).
Qed.

(** Whatever keys count as sensitive: the redacted record has the keys of
    the record in their order, but for the key ["__proto__"], which the
    assignment in the loop does not store; no entry of the result, at any
    depth, is under that key; a sensitive key carries "[REDACTED]"
    wherever it sits, at the top or in an object nested at any depth; and
    an array under a key that is neither sensitive nor ["__proto__"] is
    passed through whole, whatever it holds. *)
Theorem redaction_hides_sensitive_keys
    (sensitive : string -> bool) (data : list (string * Logger.Json)) :
  let redacted := Logger.redactWith sensitive data in
  List.map fst redacted
  = List.filter (fun key => negb (String.eqb key "__proto__")) (List.map fst data) /\
  (forall key value, Logger.Holds redacted key value -> key <> "__proto__") /\
  (forall key value,
     Logger.Holds redacted key value -> sensitive key = true ->
     value = Logger.REDACTED) /\
  (forall key items,
     In (key, Logger.JArr items) data -> sensitive key = false ->
     key <> "__proto__" ->
     In (key, Logger.JArr items) redacted).
Proof.
  intros redacted. split; [apply redact_keys|]. split; [|split].
  - intros key value Hholds ->.
    destruct (holds_redact sensitive (Logger.JObj data) data eq_refl _ _ Hholds)
      as [Hproto _]. discriminate Hproto.
  - intros key value Hholds.
    exact (proj2 (holds_redact sensitive (Logger.JObj data) data eq_refl _ _ Hholds)).
  - intros key items Hin Hsens Hproto.
    apply (redact_in sensitive) in Hin.
    + rewrite Hsens in Hin. exact Hin.
    + apply String.eqb_neq. exact Hproto.
Qed.

Lemma redaction_hides_sensitive_keys_witness :
  let data :=
    [("userId", Logger.JStr "u1");
     ("request", Logger.JObj [("Authorization", Logger.JStr "Bearer abc");
                              ("__proto__", Logger.JObj [("path", Logger.JStr "/")]);
                              ("path", Logger.JStr "/api/drafts")])] in
  Logger.redactSensitiveData data
  = [("userId", Logger.JStr "u1");
     ("request", Logger.JObj [("Authorization", Logger.REDACTED);
                              ("path", Logger.JStr "/api/drafts")])] /\
  Logger.isSensitive "Authorization" = true /\
  (forall value,
     Logger.Holds (Logger.redactSensitiveData data) "Authorization" value ->
     value = Logger.REDACTED).
Proof.
  intros data.
  assert (Logger.isSensitive "Authorization" = true) as Hsens by reflexivity.
  split; [reflexivity|]. split; [exact Hsens|].
  intros value Hholds.
  exact (proj1 (proj2 (proj2 (redaction_hides_sensitive_keys Logger.isSensitive data)))
           "Authorization" value Hholds Hsens).
Defined.

(** Redacting a record that has been redacted changes nothing more. *)
Theorem redaction_idempotent (data : list (string * Logger.Json)) :
  Logger.redactSensitiveData (Logger.redactSensitiveData data)
  = Logger.redactSensitiveData data.
Proof.
  unfold Logger.redactSensitiveData.
  assert (forall v fields, v = Logger.JObj fields ->
            Logger.redactWith Logger.isSensitive
              (Logger.redactWith Logger.isSensitive fields)
            = Logger.redactWith Logger.isSensitive fields) as Hall.
  { intros v. induction v as [v Hv | fields IH] using Json_objects_ind.
    - intros fields E. destruct (Hv fields E).
    - intros fields' [= <-].
      induction fields as [|[key v] fields IHf]; [reflexivity|].
      inversion IH as [|? ? Hv Hrest]; subst. simpl in Hv.
      rewrite redact_cons. destruct (Logger.isProto key) eqn:Hproto;
        [exact (IHf Hrest)|].
      rewrite redact_cons, Hproto, (IHf Hrest). f_equal. f_equal.
      destruct (Logger.isSensitive key); [reflexivity|].
      destruct v as [ | | | | | f]; try reflexivity.
      now rewrite (Hv f eq_refl). }
  exact (Hall (Logger.JObj data) data eq_refl).
Qed.

(* ===================================================================== *)
(** * Further facts: the pick routes *)
(* ===================================================================== *)

(** A refusal, an answer other than 500, comes before any write. *)
Lemma POST_refused_unchanged req draftId db error status db' :
  Route.POST req draftId db = (Route.JsonError error status, db') ->
  status <> 500 -> db' = db.
Proof.
  intros HP Hstatus. destruct (POST_cases req draftId db)
    as [(draft & pickData & player & Hadm) | (e & s & Herr)].
  - destruct (Route.fits pickData) eqn:Hfits.
    + rewrite (POST_admitted _ _ _ _ _ _ Hadm Hfits) in HP. discriminate.
    + rewrite (POST_overflow _ _ _ _ _ _ Hadm Hfits) in HP.
      injection HP as _ <- _. congruence.
  - rewrite Herr in HP. congruence.
Qed.

(** The one way a row is written without the answer 201: every value of
    the row fits, and the pick number is the greatest a column holds, so
    that the update of [current_pick] is refused after the insert. *)
Lemma POST_half_written req draftId db draft pickData player :
  Route.admitted req draftId db draft pickData player ->
  Route.fits pickData = false ->
  Store.insertable (Route.valuesOf draftId pickData) = true ->
  Route.pickNumber pickData = 2147483647.
Proof.
  intros (_ & _ & _ & _ & (b & _ & Hvalid) & _) Hfits Hins.
  apply makePickSchema_bounds in Hvalid.
  destruct (Z.eq_dec (Route.pickNumber pickData) 2147483647) as [E|Hne];
    [exact E|].
  exfalso. assert (Route.fits pickData = true) as Hyes; [|congruence].
  unfold Store.insertable in Hins. simpl in Hins.
  apply fits_spec.
  repeat match goal with
         | H : (_ && _)%bool = true |- _ => apply andb_true_iff in H; destruct H
         | H : Store.int4 _ = true |- _ => apply int4_spec in H
         end.
  lia.
Qed.

Lemma POST_failed_cases req draftId db error db' :
  Route.POST req draftId db = (Route.JsonError error 500, db') ->
  db' = db \/
  exists draft pickData player,
    Route.admitted req draftId db draft pickData player /\
    Route.pickNumber pickData = 2147483647 /\
    db' = Store.insertPick (Route.valuesOf draftId pickData) db.
Proof.
  intros HP. destruct (POST_cases req draftId db)
    as [(draft & pickData & player & Hadm) | (e & s & Herr)].
  - destruct (Route.fits pickData) eqn:Hfits.
    + rewrite (POST_admitted _ _ _ _ _ _ Hadm Hfits) in HP. discriminate.
    + rewrite (POST_overflow _ _ _ _ _ _ Hadm Hfits) in HP.
      injection HP as _ <-.
      destruct (Store.insertable (Route.valuesOf draftId pickData)) eqn:Hins;
        [|left; reflexivity].
      right. exists draft, pickData, player. split; [exact Hadm|].
      split; [|reflexivity].
      exact (POST_half_written _ _ _ _ _ _ Hadm Hfits Hins).
  - rewrite Herr in HP. left. congruence.
Qed.

Lemma DELETE_refused_unchanged req draftId db error status db' :
  Route.DELETE req draftId db = (Route.JsonError error status, db') ->
  status <> 500 \/ Store.typed db = true -> db' = db.
Proof.
  intros HD Hwhy. destruct (DELETE_cases req draftId db)
    as [(draft & lastPick & Hok) | [(draft & _ & _ & Herr)
        | [(draft & lastPick & _ & _ & _ & Herr) | (_ & e & s & Herr)]]];
    try (rewrite Herr in HD; congruence).
  destruct (Store.settable (Route.rewind lastPick)) eqn:Hset.
  - rewrite (DELETE_undoable _ _ _ _ _ Hok Hset) in HD. discriminate.
  - rewrite (DELETE_untyped _ _ _ _ _ Hok Hset) in HD.
    injection HD as _ <- _. destruct Hwhy as [Hne|Htyped]; [congruence|].
    destruct Hok as (_ & _ & _ & Hlast & _).
    rewrite (pickTyped_settable _ (typed_lastPick _ _ _ Htyped Hlast)) in Hset.
    discriminate.
Qed.

Lemma POST_shape req draftId db :
  (exists pick player, fst (Route.POST req draftId db) = Route.JsonPick pick player) \/
  (exists error status, fst (Route.POST req draftId db) = Route.JsonError error status).
Proof.
  destruct (POST_cases req draftId db)
    as [(draft & pickData & player & Hadm) | (e & s & Herr)].
  - destruct (Route.fits pickData) eqn:Hfits.
    + rewrite (POST_admitted _ _ _ _ _ _ Hadm Hfits). left. eauto.
    + rewrite (POST_overflow _ _ _ _ _ _ Hadm Hfits). right.
      unfold Route.POST_failed. eauto.
  - rewrite Herr. right. eauto.
Qed.

Lemma DELETE_shape req draftId db :
  (exists pickId, fst (Route.DELETE req draftId db) = Route.JsonUndone pickId) \/
  (exists error status, fst (Route.DELETE req draftId db) = Route.JsonError error status).
Proof.
  destruct (DELETE_cases req draftId db)
    as [(draft & lastPick & Hok) | [(draft & _ & _ & Herr)
        | [(draft & lastPick & _ & _ & _ & Herr) | (_ & e & s & Herr)]]];
    try (rewrite Herr; right; eauto).
  destruct (Store.settable (Route.rewind lastPick)) eqn:Hset.
  - rewrite (DELETE_undoable _ _ _ _ _ Hok Hset). left. eauto.
  - rewrite (DELETE_untyped _ _ _ _ _ Hok Hset). right.
    unfold Route.DELETE_failed. eauto.
Qed.

(** A pick request or an undo that is refused (answered with an error
    other than 500) leaves the three tables exactly as they were.  The
    handlers open no transaction, and a failure (500) of [POST] can leave
    one write behind: the inserted pick, with the draft not advanced; this
    happens for the pick number 2147483647, whose successor does not fit
    [current_pick], and for no other request.  An undo that fails on a
    typed store leaves nothing behind.  The two routes answer nothing but
    their success or an error. *)
Theorem refused_requests_change_nothing
    (req : Route.Request) (draftId : string) (db : Store.t) :
  (forall error status db',
     Route.POST req draftId db = (Route.JsonError error status, db') ->
     status <> 500 -> db' = db) /\
  (forall error db',
     Route.POST req draftId db = (Route.JsonError error 500, db') ->
     db' = db \/
     exists draft pickData player,
       Route.admitted req draftId db draft pickData player /\
       Route.pickNumber pickData = 2147483647 /\
       db' = Store.insertPick (Route.valuesOf draftId pickData) db) /\
  (forall draft pickData player,
     Route.admitted req draftId db draft pickData player ->
     Route.pickNumber pickData = 2147483647 ->
     Route.round pickData <= 2147483647 ->
     Route.pickInRound pickData <= 2147483647 ->
     Route.POST req draftId db
     = (Route.JsonError "Failed to make draft pick" 500,
        Store.insertPick (Route.valuesOf draftId pickData) db)) /\
  (forall error status db',
     Route.DELETE req draftId db = (Route.JsonError error status, db') ->
     status <> 500 \/ Store.typed db = true -> db' = db) /\
  ((exists pick player, fst (Route.POST req draftId db) = Route.JsonPick pick player) \/
   (exists error status, fst (Route.POST req draftId db) = Route.JsonError error status)) /\
  ((exists pickId, fst (Route.DELETE req draftId db) = Route.JsonUndone pickId) \/
   (exists error status, fst (Route.DELETE req draftId db) = Route.JsonError error status)).
Proof.
  split; [apply POST_refused_unchanged|]. split; [apply POST_failed_cases|].
  split.
  { intros draft pickData player Hadm Hlast Hround Hin.
    pose proof Hadm as (_ & _ & _ & _ & (b & _ & Hvalid) & _).
    apply makePickSchema_bounds in Hvalid.
    assert (Route.fits pickData = false) as Hfits.
    { destruct (Route.fits pickData) eqn:Hfits; [|reflexivity].
      apply fits_spec in Hfits. lia. }
    rewrite (POST_overflow _ _ _ _ _ _ Hadm Hfits).
    assert (Store.insertable (Route.valuesOf draftId pickData) = true) as ->;
      [|reflexivity].
    unfold Store.insertable. simpl. rewrite !andb_true_iff, !int4_spec. lia. }
  split; [apply DELETE_refused_unchanged|].
  split; [apply POST_shape | apply DELETE_shape].
Qed.

Lemma refused_requests_change_nothing_witness :
  let req := League.pickRequest League.playerA 1 1 1 1 false in
  let db := snd (Route.POST req League.draftId League.start) in
  let last := League.pickRequest League.playerB 2 1 2147483647 2 false in
  (Route.POST req League.draftId db
   = (Route.JsonError "Player already drafted" 400, db) /\
   snd (Route.POST req League.draftId db) = db) /\
  (exists draft pickData player,
     Route.admitted last League.draftId db draft pickData player /\
     Route.pickNumber pickData = 2147483647) /\
  fst (Route.POST last League.draftId db)
  = Route.JsonError "Failed to make draft pick" 500 /\
  List.map DraftPick.pickNumber
    (Store.draftPicks (snd (Route.POST last League.draftId db))) = [1; 2147483647] /\
  League.draftIn (snd (Route.POST last League.draftId db)) = League.draftIn db.
Proof.
  intros req db last.
  pose proof (refused_requests_change_nothing req League.draftId db)
    as (Hrefused & _).
  pose proof (refused_requests_change_nothing last League.draftId db)
    as (_ & _ & Hhalf & _).
  split.
  { assert (Route.POST req League.draftId db
            = (Route.JsonError "Player already drafted" 400,
               snd (Route.POST req League.draftId db))) as HP
      by (vm_compute; reflexivity).
    assert (400 <> 500) as Hne by discriminate.
    pose proof (Hrefused _ _ _ HP Hne) as Hsame.
    split; [rewrite HP; f_equal; exact Hsame | exact Hsame]. }
  destruct (Store.findDraft League.draftId League.owner db) as [draft|] eqn:Hdraft;
    [|vm_compute in Hdraft; discriminate].
  assert (Route.admitted last League.draftId db draft
            (Route.mkPickData League.playerB 2 1 2147483647 2 false)
            (League.nba League.playerB "Bob Baker" "SG" 2)) as Hadm.
  { repeat split; try reflexivity; try assumption.
    - vm_compute in Hdraft. injection Hdraft as <-. discriminate.
    - eexists. split; reflexivity. }
  split; [do 3 eexists; split; [exact Hadm|reflexivity]|].
  assert (1 <= 2147483647) as H1 by lia.
  assert (2 <= 2147483647) as H2 by lia.
  rewrite (Hhalf _ _ _ Hadm eq_refl H1 H2).
  split; [reflexivity|]. split; reflexivity.
Defined.

Lemma findDraft_updateDraft_other draftId other userId set db :
  other <> draftId ->
  Store.findDraft other userId (Store.updateDraft draftId set db)
  = Store.findDraft other userId db.
Proof.
  intros Hne. unfold Store.findDraft, Store.updateDraft. simpl.
  induction (Store.drafts db) as [|d ds IH]; simpl; [reflexivity|].
  destruct (String.eqb_spec (Draft.id d) draftId) as [E|Hd]; simpl.
  - destruct (String.eqb_spec (Draft.id d) other) as [E'|_]; [congruence|].
    simpl. exact IH.
  - rewrite IH. reflexivity.
Qed.

Lemma findDraft_afterPick_other draft draftId pickData db other userId :
  other <> draftId ->
  Store.findDraft other userId (Route.afterPick draft draftId pickData db)
  = Store.findDraft other userId db.
Proof.
  intros Hne. unfold Route.afterPick.
  destruct (Route.pickNumber pickData >=? Draft.numTeams draft * Draft.rosterSize draft);
    rewrite ?findDraft_updateDraft_other by exact Hne; reflexivity.
Qed.

Lemma players_afterPick draft draftId pickData db :
  Store.players (Route.afterPick draft draftId pickData db) = Store.players db.
Proof.
  unfold Route.afterPick.
  destruct (Route.pickNumber pickData >=? Draft.numTeams draft * Draft.rosterSize draft);
    reflexivity.
Qed.

(** A pick request, accepted or not, stays within its draft: the drafts
    with another id read as before, the player table is as before, and the
    pick table is the old one with at most one row added at the end, no
    stored pick being removed or rewritten. *)
Theorem pick_request_stays_in_its_draft
    (req : Route.Request) (draftId : string) (db : Store.t) :
  let db' := snd (Route.POST req draftId db) in
  (forall other userId, other <> draftId ->
     Store.findDraft other userId db' = Store.findDraft other userId db) /\
  Store.players db' = Store.players db /\
  (Store.draftPicks db' = Store.draftPicks db \/
   exists row, Store.draftPicks db' = (Store.draftPicks db ++ [row])%list /\
               DraftPick.draftId row = draftId) /\
  (forall other, other <> draftId ->
     Store.picksOf other db' = Store.picksOf other db).
Proof.
  intros db'. unfold db'.
  destruct (POST_cases req draftId db)
    as [(draft & pickData & player & Hadm) | (e & s & Herr)].
  - destruct (Route.fits pickData) eqn:Hfits.
    + rewrite (POST_admitted _ _ _ _ _ _ Hadm Hfits). simpl.
      split; [|split; [|split]].
      * intros other userId Hne. apply findDraft_afterPick_other. exact Hne.
      * apply players_afterPick.
      * right. eexists. split; [apply draftPicks_afterPick|reflexivity].
      * intros other Hne. unfold Store.picksOf.
        rewrite draftPicks_afterPick, List.filter_app. simpl.
        destruct (String.eqb_spec draftId other); [congruence|].
        apply List.app_nil_r.
    + rewrite (POST_overflow _ _ _ _ _ _ Hadm Hfits). simpl.
      destruct (Store.insertable (Route.valuesOf draftId pickData)); [|auto].
      split; [|split; [|split]].
      * reflexivity.
      * reflexivity.
      * right. eexists. split; reflexivity.
      * intros other Hne. unfold Store.picksOf. simpl.
        rewrite List.filter_app. simpl.
        destruct (String.eqb_spec draftId other); [congruence|].
        apply List.app_nil_r.
  - rewrite Herr. simpl. auto.
Qed.

(** A player free in the draft is in no stored (draft, player) pair. *)
Lemma pairs_afterPick_fresh draftId pickData db :
  Store.findPickOfPlayer draftId (Route.playerId pickData) db = None ->
  ~ In (draftId, Route.playerId pickData)
       (List.map (fun p => (DraftPick.draftId p, DraftPick.playerId p))
                 (Store.draftPicks db)).
Proof.
  intros Hfree Hin. apply in_map_iff in Hin as (p & E & Hp).
  unfold Store.findPickOfPlayer in Hfree.
  eapply find_none in Hfree; [|exact Hp]. simpl in Hfree.
  inversion E as [[E1 E2]]. rewrite E1, E2, !String.eqb_refl in Hfree.
  discriminate.
Qed.

(** Handled one after the other, pick requests and undos keep the rule
    that a player is picked at most once in a draft: if no two stored picks
    share draft and player, none do after a further request of either
    kind, whatever it asks for. *)
Theorem one_pick_per_player_is_kept
    (req : Route.Request) (draftId : string) (db : Store.t) :
  let pairs (s : Store.t) :=
    List.map (fun p => (DraftPick.draftId p, DraftPick.playerId p))
             (Store.draftPicks s) in
  List.NoDup (pairs db) ->
  List.NoDup (pairs (snd (Route.POST req draftId db))) /\
  List.NoDup (pairs (snd (Route.DELETE req draftId db))).
Proof.
  intros pairs Hnd. split.
  - destruct (POST_cases req draftId db)
      as [(draft & pickData & player & Hadm) | (e & s & Herr)].
    + assert (List.NoDup (pairs (Store.insertPick (Route.valuesOf draftId pickData) db)))
        as Hins.
      { unfold pairs. simpl. rewrite List.map_app. simpl.
        eapply Permutation_NoDup; [apply Permutation_cons_append|].
        constructor; [|exact Hnd].
        destruct Hadm as (_ & _ & _ & _ & _ & _ & Hfree).
        exact (pairs_afterPick_fresh draftId pickData db Hfree). }
      destruct (Route.fits pickData) eqn:Hfits.
      * rewrite (POST_admitted _ _ _ _ _ _ Hadm Hfits). simpl. unfold pairs.
        rewrite draftPicks_afterPick. exact Hins.
      * rewrite (POST_overflow _ _ _ _ _ _ Hadm Hfits). simpl.
        destruct (Store.insertable (Route.valuesOf draftId pickData));
          [exact Hins|exact Hnd].
    + rewrite Herr. exact Hnd.
  - destruct (DELETE_cases req draftId db)
      as [(draft & lastPick & Hok) | [(draft & _ & _ & Herr)
          | [(draft & lastPick & _ & _ & _ & Herr) | (_ & e & s & Herr)]]];
      try (rewrite Herr; exact Hnd).
    assert (List.NoDup (pairs (Route.afterUndo draftId lastPick db))) as Hundo;
      [|destruct (Store.settable (Route.rewind lastPick)) eqn:Hset;
        [rewrite (DELETE_undoable _ _ _ _ _ Hok Hset)
        |rewrite (DELETE_untyped _ _ _ _ _ Hok Hset)]; exact Hundo].
    unfold pairs. simpl.
    clear - Hnd. unfold pairs in Hnd.
    induction (Store.draftPicks db) as [|p ps IH]; simpl; [constructor|].
    inversion Hnd as [|? ? Hnotin Hnd']; subst.
    destruct (negb (DraftPick.id p =? DraftPick.id lastPick)%nat); simpl.
    + constructor; [|apply IH; exact Hnd'].
      intros Hin. apply Hnotin. apply in_map_iff in Hin as (q & E & Hq).
      apply filter_In in Hq as [Hq _]. apply in_map_iff. eauto.
    + apply IH. exact Hnd'.
Qed.

Lemma one_pick_per_player_is_kept_witness :
  let pairs (s : Store.t) :=
    List.map (fun p => (DraftPick.draftId p, DraftPick.playerId p))
             (Store.draftPicks s) in
  let req := League.pickRequest League.playerE 4 2 5 1 true in
  List.NoDup (pairs League.afterRoundOne) /\
  List.NoDup (pairs (snd (Route.POST req League.draftId League.afterRoundOne))).
Proof.
  intros pairs req.
  assert (List.NoDup (pairs League.afterRoundOne)) as Hnd.
  { vm_compute. repeat constructor; simpl; intuition discriminate. }
  split; [exact Hnd|].
  exact (proj1 (one_pick_per_player_is_kept req League.draftId
                  League.afterRoundOne Hnd)).
Defined.

(** A pick request that passes the checks and fits gets through and
    leaves the draft [completed] exactly when its pick number reaches
    [numTeams * rosterSize] (the draft's values when the request came
    in), and [in_progress] otherwise; once completed, every further pick
    request of the owner is answered "Draft is already completed" (400)
    and changes nothing. *)
Theorem last_pick_completes_the_draft
    (req : Route.Request) (draftId : string) (db : Store.t)
    (draft : Draft.t) (pickData : Route.PickData) (player : Player.t) :
  Route.admitted req draftId db draft pickData player ->
  Route.fits pickData = true ->
  let db' := snd (Route.POST req draftId db) in
  let total := Draft.numTeams draft * Draft.rosterSize draft in
  exists pick draft',
    fst (Route.POST req draftId db) = Route.JsonPick pick player /\
    Store.findDraft draftId (Route.userIdOf req) db' = Some draft' /\
    (Draft.status draft' = completed <-> Route.pickNumber pickData >= total) /\
    (Draft.status draft' = in_progress <-> Route.pickNumber pickData < total) /\
    (Route.pickNumber pickData >= total ->
     forall next, Route.unauthorized next = false ->
                  Route.userIdOf next = Route.userIdOf req ->
                  Route.POST next draftId db'
                  = (Route.JsonError "Draft is already completed" 400, db')).
Proof.
  intros Hadm Hfits db' total. unfold db'.
  rewrite (POST_admitted _ _ _ _ _ _ Hadm Hfits). simpl.
  pose proof Hadm as (_ & Huuid & Hdraft & _).
  destruct (findDraft_afterPick draft draft draftId (Route.userIdOf req)
              pickData db Hdraft) as (draft' & Hd' & _ & _ & Hst & _).
  fold total in Hst.
  eexists. exists draft'. split; [reflexivity|]. split; [exact Hd'|].
  destruct (Z.geb_spec (Route.pickNumber pickData) total) as [Hge|Hlt].
  - split; [rewrite Hst; split; [lia|reflexivity]|].
    split; [rewrite Hst; split; [discriminate|lia]|].
    intros _ next Hauth Hsame.
    unfold Route.POST, Route.POST_handler. rewrite Hauth, Huuid.
    cbn [negb Route.run Store.exec]. rewrite Hsame, Hd', Hst. reflexivity.
  - split; [rewrite Hst; split; [discriminate|lia]|].
    split; [rewrite Hst; split; [lia|reflexivity]|]. lia.
Qed.

Lemma last_pick_completes_the_draft_witness :
  let req := League.pickRequest League.playerA 1 5 20 4 false in
  let db' := snd (Route.POST req League.draftId League.start) in
  (exists draft pickData player,
     Route.admitted req League.draftId League.start draft pickData player /\
     Route.fits pickData = true /\
     Route.pickNumber pickData >= Draft.numTeams draft * Draft.rosterSize draft) /\
  (League.draftIn db' ≫= (fun d => Some (Draft.status d))) = Some completed /\
  Route.POST (League.pickRequest League.playerB 2 1 2 2 false) League.draftId db'
  = (Route.JsonError "Draft is already completed" 400, db').
Proof.
  intros req db'.
  assert (Route.admitted req League.draftId League.start League.fresh
            (Route.mkPickData League.playerA 1 5 20 4 false)
            (League.nba League.playerA "Ann Able" "PG" 1)) as Hadm.
  { repeat split; try reflexivity; try discriminate.
    eexists. split; reflexivity. }
  split; [do 3 eexists; split; [exact Hadm|split; [reflexivity|simpl; lia]]|].
  destruct (last_pick_completes_the_draft _ _ _ _ _ _ Hadm eq_refl)
    as (pick & draft' & _ & Hd' & Hdone & _ & Hnext).
  split.
  - unfold League.draftIn. fold db'.
    change (Store.findDraft League.draftId League.owner db' = Some draft') in Hd'.
    rewrite Hd'. simpl. f_equal. apply Hdone. simpl. lia.
  - apply Hnext; [simpl; lia|reflexivity|reflexivity].
Defined.

(** Neither [completed] nor [abandoned] holds a draft: an undo does not
    look at the status, so on a completed or abandoned draft it goes
    through like on any other (the store being typed) and leaves the
    draft in [setup] or [in_progress]; and a pick is refused only on a
    completed draft, so on an abandoned one a request that passes the
    checks and fits goes through and leaves the draft [in_progress] or
    [completed]. *)
Theorem completed_and_abandoned_are_not_final
    (req : Route.Request) (draftId : string) (db : Store.t) (draft : Draft.t) :
  (forall lastPick,
     Route.undoable req draftId db draft lastPick ->
     Store.typed db = true ->
     exists draft',
       fst (Route.DELETE req draftId db) = Route.JsonUndone (DraftPick.id lastPick) /\
       Store.findDraft draftId (Route.userIdOf req)
         (snd (Route.DELETE req draftId db)) = Some draft' /\
       (Draft.status draft' = setup \/ Draft.status draft' = in_progress)) /\
  (forall pickData player,
     Route.admitted req draftId db draft pickData player ->
     Route.fits pickData = true ->
     exists pick draft',
       fst (Route.POST req draftId db) = Route.JsonPick pick player /\
       Store.findDraft draftId (Route.userIdOf req)
         (snd (Route.POST req draftId db)) = Some draft' /\
       (Draft.status draft' = in_progress \/ Draft.status draft' = completed)).
Proof.
  split.
  - intros lastPick Hok Htyped.
    pose proof Hok as (_ & _ & Hdraft & Hlast & _).
    rewrite (DELETE_undoable _ _ _ _ _ Hok
               (pickTyped_settable _ (typed_lastPick _ _ _ Htyped Hlast))).
    simpl.
    destruct (findDraft_afterUndo draft draftId (Route.userIdOf req) lastPick db
                Hdraft) as (draft' & Hd' & _ & _ & Hst).
    exists draft'. split; [reflexivity|]. split; [exact Hd'|]. rewrite Hst.
    destruct (DraftPick.pickNumber lastPick =? 1); auto.
  - intros pickData player Hadm Hfits.
    rewrite (POST_admitted _ _ _ _ _ _ Hadm Hfits). simpl.
    pose proof Hadm as (_ & _ & Hdraft & _).
    destruct (findDraft_afterPick draft draft draftId (Route.userIdOf req)
                pickData db Hdraft) as (draft' & Hd' & _ & _ & Hst & _).
    eexists. exists draft'. split; [reflexivity|]. split; [exact Hd'|].
    rewrite Hst. destruct (Route.pickNumber pickData >=? _); auto.
Qed.

Lemma completed_and_abandoned_are_not_final_witness :
  let done := snd (Route.POST (League.pickRequest League.playerA 4 5 20 4 true)
                              League.draftId League.start) in
  (exists draft lastPick,
     Route.undoable League.undoRequest League.draftId done draft lastPick /\
     Store.typed done = true /\
     Draft.status draft = completed) /\
  exists draft',
    Store.findDraft League.draftId League.owner
      (snd (Route.DELETE League.undoRequest League.draftId done)) = Some draft' /\
    (Draft.status draft' = setup \/ Draft.status draft' = in_progress).
Proof.
  intros done.
  destruct (Store.findDraft League.draftId League.owner done) as [draft|] eqn:Hdraft;
    [|vm_compute in Hdraft; discriminate].
  destruct (Store.lastPick (Store.picksOf League.draftId done)) as [lastPick|] eqn:Hlast;
    [|vm_compute in Hlast; discriminate].
  assert (Route.undoable League.undoRequest League.draftId done draft lastPick) as Hok.
  { repeat split; try reflexivity; try assumption.
    vm_compute in Hlast. injection Hlast as <-. reflexivity. }
  assert (Store.typed done = true) as Htyped by reflexivity.
  split.
  - exists draft, lastPick. split; [exact Hok|]. split; [exact Htyped|].
    vm_compute in Hdraft. injection Hdraft as <-. reflexivity.
  - destruct (proj1 (completed_and_abandoned_are_not_final
                       League.undoRequest League.draftId done draft)
                lastPick Hok Htyped) as (draft' & _ & Hd' & Hst).
    exists draft'. split; [exact Hd'|exact Hst].
Defined.

Lemma find_none_all {X} (f : X -> bool) (l : list X) :
  (forall x, In x l -> f x = false) -> List.find f l = None.
Proof.
  induction l as [|a l IH]; intros H; simpl; [reflexivity|].
  rewrite (H a) by (left; reflexivity). apply IH. intros x Hx. apply H. now right.
Qed.

Lemma findDraft_of_another draftId userId db :
  (forall d, In d (Store.drafts db) -> Draft.id d = draftId -> Draft.userId d <> userId) ->
  Store.findDraft draftId userId db = None.
Proof.
  intros Hother. apply find_none_all. intros d Hd.
  destruct (String.eqb_spec (Draft.id d) draftId) as [E|]; [|reflexivity].
  destruct (String.eqb_spec (Draft.userId d) userId) as [E'|]; [|reflexivity].
  exfalso. exact (Hother d Hd E E').
Qed.

(** A signed-in user who asks for a draft that is someone else's (or does
    not exist) is told "Draft not found" (404) by every route of the draft
    and of its picks, as if the draft did not exist, and nothing is
    written. *)
Theorem another_users_draft_is_not_found
    (req : Route.Request) (draftId : string) (db : Store.t)
    (body : option DraftsRoute.UpdateBody) :
  Route.unauthorized req = false ->
  Route.isUuid draftId = true ->
  (forall d, In d (Store.drafts db) -> Draft.id d = draftId ->
             Draft.userId d <> Route.userIdOf req) ->
  DraftsRoute.GET req draftId db = DraftsRoute.JsonError "Draft not found" 404 /\
  DraftsRoute.PATCH req body draftId db
  = (DraftsRoute.JsonError "Draft not found" 404, db) /\
  DraftsRoute.DELETE req draftId db
  = (DraftsRoute.JsonError "Draft not found" 404, db) /\
  DraftsRoute.GET_picks req draftId db = DraftsRoute.JsonError "Draft not found" 404 /\
  Route.POST req draftId db = (Route.JsonError "Draft not found" 404, db) /\
  Route.DELETE req draftId db = (Route.JsonError "Draft not found" 404, db).
Proof.
  intros Hauth Huuid Hother.
  pose proof (findDraft_of_another draftId (Route.userIdOf req) db Hother) as Hnone.
  unfold DraftsRoute.GET, DraftsRoute.PATCH, DraftsRoute.DELETE,
    DraftsRoute.GET_picks, Route.POST, Route.POST_handler,
    Route.DELETE, Route.DELETE_handler.
  rewrite Hauth, Huuid. cbn [negb Route.run Store.exec]. rewrite Hnone.
  repeat split.
Qed.

Lemma another_users_draft_is_not_found_witness :
  let stranger := Route.mkRequest (Some "user-2") None in
  Route.unauthorized stranger = false /\
  Route.isUuid League.draftId = true /\
  (forall d, In d (Store.drafts League.start) -> Draft.id d = League.draftId ->
             Draft.userId d <> Route.userIdOf stranger) /\
  DraftsRoute.DELETE stranger League.draftId League.start
  = (DraftsRoute.JsonError "Draft not found" 404, League.start).
Proof.
  intros stranger.
  assert (forall d, In d (Store.drafts League.start) -> Draft.id d = League.draftId ->
                    Draft.userId d <> Route.userIdOf stranger) as Hother.
  { intros d [<-|[]] _. discriminate. }
  split; [reflexivity|]. split; [reflexivity|]. split; [exact Hother|].
  exact (proj1 (proj2 (proj2 (another_users_draft_is_not_found stranger
                                League.draftId League.start None
                                eq_refl eq_refl Hother)))).
Defined.

(* ===================================================================== *)
(** * Further facts: the draft resource routes *)
(* ===================================================================== *)

Lemma findDraft_updateOwned draftId userId b db :
  Store.findDraft draftId userId (DraftsRoute.updateOwned draftId userId b db)
  = option_map (DraftsRoute.applyUpdate b) (Store.findDraft draftId userId db).
Proof.
  unfold Store.findDraft, DraftsRoute.updateOwned, DraftsRoute.owned. simpl.
  induction (Store.drafts db) as [|d ds IH]; simpl; [reflexivity|].
  destruct (String.eqb (Draft.id d) draftId && String.eqb (Draft.userId d) userId)%bool
    eqn:Hown; simpl; rewrite Hown; [reflexivity|exact IH].
Qed.

Lemma findDraft_updateOwned_other draftId userId b db other userId' :
  other <> draftId ->
  Store.findDraft other userId' (DraftsRoute.updateOwned draftId userId b db)
  = Store.findDraft other userId' db.
Proof.
  intros Hne. unfold Store.findDraft, DraftsRoute.updateOwned, DraftsRoute.owned. simpl.
  induction (Store.drafts db) as [|d ds IH]; simpl; [reflexivity|].
  destruct (String.eqb_spec (Draft.id d) draftId) as [E|Hd]; simpl.
  - destruct (String.eqb (Draft.userId d) userId); simpl;
      (destruct (String.eqb_spec (Draft.id d) other) as [E'|_]; [congruence|]);
      simpl; exact IH.
  - rewrite IH. reflexivity.
Qed.

(** An update that is answered with the draft has written a draft whose
    seat lies within its number of teams, taking the stored value for
    whichever of the two the request left out; it touches no pick, no
    player and no draft with another id, and keeps the draft's id, owner,
    sport and type.  An update answered with an error writes nothing. *)
Theorem update_keeps_the_seat_within_the_teams
    (req : Route.Request) (body : option DraftsRoute.UpdateBody)
    (draftId : string) (db : Store.t) :
  (forall updated db',
     DraftsRoute.PATCH req body draftId db = (DraftsRoute.JsonDraft updated, db') ->
     Draft.draftPosition updated <= Draft.numTeams updated /\
     Store.findDraft draftId (Route.userIdOf req) db' = Some updated /\
     (exists existing,
        Store.findDraft draftId (Route.userIdOf req) db = Some existing /\
        Draft.id updated = Draft.id existing /\
        Draft.userId updated = Draft.userId existing /\
        Draft.sport updated = Draft.sport existing /\
        Draft.draftType updated = Draft.draftType existing) /\
     Store.draftPicks db' = Store.draftPicks db /\
     Store.players db' = Store.players db /\
     (forall other userId, other <> draftId ->
        Store.findDraft other userId db' = Store.findDraft other userId db)) /\
  (forall error status db',
     DraftsRoute.PATCH req body draftId db
     = (DraftsRoute.JsonError error status, db') -> db' = db).
Proof.
  unfold DraftsRoute.PATCH.
  destruct (Route.unauthorized req); [split; intros; congruence|].
  destruct (Route.isUuid draftId); simpl; [|split; intros; congruence].
  destruct (Store.findDraft draftId (Route.userIdOf req) db) as [existing|] eqn:Hd;
    [|split; intros; congruence].
  destruct body as [b|]; [|split; intros; congruence].
  destruct (DraftsRoute.updateDraftSchema b); simpl; [|split; intros; congruence].
  destruct (Z.gtb_spec (default (Draft.draftPosition existing) (DraftsRoute.draftPosition b))
                       (default (Draft.numTeams existing) (DraftsRoute.numTeams b)))
    as [Hgt|Hle]; [split; intros; congruence|].
  destruct (DraftsRoute.noValues b); [split; intros; congruence|].
  destruct (negb _); [split; intros; congruence|].
  split; [|intros; congruence].
  intros updated db' [= <- <-]. split; [exact Hle|].
  split; [rewrite findDraft_updateOwned, Hd; reflexivity|].
  split; [exists existing; repeat split|].
  split; [reflexivity|]. split; [reflexivity|].
  intros other userId Hne. apply findDraft_updateOwned_other. exact Hne.
Qed.

Lemma update_keeps_the_seat_within_the_teams_witness :
  let grow := DraftsRoute.mkUpdate None (Some 10) (Some 7) None None None None None None in
  let shrink := DraftsRoute.mkUpdate None (Some 6) (Some 7) None None None None None None in
  (exists updated db',
     DraftsRoute.PATCH League.undoRequest (Some grow) League.draftId League.start
     = (DraftsRoute.JsonDraft updated, db') /\
     Draft.draftPosition updated = 7 /\ Draft.numTeams updated = 10 /\
     Draft.draftPosition updated <= Draft.numTeams updated) /\
  DraftsRoute.PATCH League.undoRequest (Some shrink) League.draftId League.start
  = (DraftsRoute.JsonError "Draft position cannot exceed number of teams" 400,
     League.start).
Proof.
  intros grow shrink. split; [|reflexivity].
  destruct (DraftsRoute.PATCH League.undoRequest (Some grow) League.draftId League.start)
    as [resp db'] eqn:HP.
  assert (exists updated, resp = DraftsRoute.JsonDraft updated /\
                          Draft.draftPosition updated = 7 /\
                          Draft.numTeams updated = 10) as (updated & -> & H7 & H10).
  { vm_compute in HP. injection HP as <- _. eexists. repeat split. }
  exists updated, db'. split; [reflexivity|]. split; [exact H7|]. split; [exact H10|].
  exact (proj1 (proj1 (update_keeps_the_seat_within_the_teams
                         League.undoRequest (Some grow) League.draftId League.start)
                  updated db' HP)).
Defined.

(** Deleting a draft takes its picks with it and nothing else: afterwards
    the owner no longer finds the draft, no pick refers to it, the picks of
    all other drafts and the players are as before; a delete answered with
    an error removes nothing. *)
Theorem delete_takes_the_picks_along
    (req : Route.Request) (draftId : string) (db : Store.t) :
  (forall deletedId db',
     DraftsRoute.DELETE req draftId db = (DraftsRoute.JsonDeleted deletedId, db') ->
     deletedId = draftId /\
     Store.findDraft draftId (Route.userIdOf req) db' = None /\
     Store.picksOf draftId db' = [] /\
     (forall other, other <> draftId ->
        Store.picksOf other db' = Store.picksOf other db) /\
     (forall other userId, other <> draftId ->
        Store.findDraft other userId db' = Store.findDraft other userId db) /\
     Store.players db' = Store.players db) /\
  (forall error status db',
     DraftsRoute.DELETE req draftId db
     = (DraftsRoute.JsonError error status, db') -> db' = db).
Proof.
  unfold DraftsRoute.DELETE.
  destruct (Route.unauthorized req); [split; intros; congruence|].
  destruct (Route.isUuid draftId); simpl; [|split; intros; congruence].
  destruct (Store.findDraft draftId (Route.userIdOf req) db) as [existing|] eqn:Hd;
    [|split; intros; congruence].
  split; [|intros; congruence].
  intros deletedId db' [= <- <-]. split; [reflexivity|]. split; [|split; [|split; [|split]]].
  - apply find_none_all. intros d Hin. simpl in Hin.
    apply filter_In in Hin as [_ Hnot]. apply negb_true_iff in Hnot. exact Hnot.
  - unfold Store.picksOf, DraftsRoute.deleteOwned. simpl.
    induction (Store.draftPicks db) as [|p ps IH]; simpl; [reflexivity|].
    destruct (String.eqb (DraftPick.draftId p) draftId) eqn:E; simpl; [exact IH|].
    rewrite E. exact IH.
  - intros other Hne. unfold Store.picksOf, DraftsRoute.deleteOwned. simpl.
    induction (Store.draftPicks db) as [|p ps IH]; simpl; [reflexivity|].
    destruct (String.eqb_spec (DraftPick.draftId p) draftId) as [E|Hp]; simpl.
    + destruct (String.eqb_spec (DraftPick.draftId p) other) as [E'|_]; [congruence|].
      exact IH.
    + rewrite IH. reflexivity.
  - intros other userId Hne. unfold Store.findDraft, DraftsRoute.deleteOwned. simpl.
    induction (Store.drafts db) as [|d ds IH]; simpl; [reflexivity|].
    unfold DraftsRoute.owned at 1.
    destruct (String.eqb_spec (Draft.id d) draftId) as [E|Hdne]; simpl.
    + destruct (String.eqb (Draft.userId d) (Route.userIdOf req)); simpl.
      * destruct (String.eqb_spec (Draft.id d) other) as [E'|_]; [congruence|].
        simpl. exact IH.
      * destruct (String.eqb_spec (Draft.id d) other) as [E'|_]; [congruence|].
        simpl. exact IH.
    + rewrite IH. reflexivity.
  - reflexivity.
Qed.

Lemma delete_takes_the_picks_along_witness :
  let db' := snd (DraftsRoute.DELETE League.undoRequest League.draftId
                                     League.afterRoundOne) in
  DraftsRoute.DELETE League.undoRequest League.draftId League.afterRoundOne
  = (DraftsRoute.JsonDeleted League.draftId, db') /\
  length (Store.picksOf League.draftId League.afterRoundOne) = 4%nat /\
  Store.picksOf League.draftId db' = [].
Proof.
  intros db'.
  assert (DraftsRoute.DELETE League.undoRequest League.draftId League.afterRoundOne
          = (DraftsRoute.JsonDeleted League.draftId, db')) as HD
    by (vm_compute; reflexivity).
  split; [exact HD|]. split; [vm_compute; reflexivity|].
  exact (proj1 (proj2 (proj2 (proj1 (delete_takes_the_picks_along
                                       League.undoRequest League.draftId
                                       League.afterRoundOne) _ _ HD)))).
Defined.

Lemma filter_unique_key (players : list Player.t) (playerId : string) :
  List.NoDup (List.map Player.id players) ->
  List.filter (fun p => String.eqb (Player.id p) playerId) players
  = match List.find (fun p => String.eqb (Player.id p) playerId) players with
    | Some p => [p]
    | None => []
    end.
Proof.
  induction players as [|p ps IH]; simpl; [reflexivity|].
  intros Hnd. inversion Hnd as [|? ? Hnotin Hnd']; subst.
  destruct (String.eqb_spec (Player.id p) playerId) as [E|Hne].
  - f_equal. rewrite IH by exact Hnd'.
    destruct (List.find _ ps) as [q|] eqn:Hq; [|reflexivity].
    exfalso. apply Hnotin. apply find_some in Hq as [Hin Hid].
    apply String.eqb_eq in Hid. apply in_map_iff. exists q. split; [congruence|exact Hin].
  - apply IH. exact Hnd'.
Qed.

Lemma joinPlayer_unique db pick :
  DraftsRoute.playerKeysUnique db ->
  DraftsRoute.joinPlayer (Store.players db) pick
  = [(pick, Store.findPlayer (DraftPick.playerId pick) db)].
Proof.
  intros Hnd. unfold DraftsRoute.joinPlayer, Store.findPlayer.
  rewrite (filter_unique_key _ _ Hnd).
  destruct (List.find _ (Store.players db)); reflexivity.
Qed.

Lemma flat_map_singletons {X Y} (f : X -> Y) (g : X -> list Y) (l : list X) :
  (forall x, g x = [f x]) -> List.flat_map g l = List.map f l.
Proof.
  intros Hg. induction l as [|x l IH]; simpl; [reflexivity|].
  now rewrite Hg, IH.
Qed.

(** The picks listing comes in ascending pick number; with player ids
    being keys, it has exactly the stored picks of the draft, each once,
    and each with the player its [playerId] names ([null] when there is
    none). *)
Theorem picks_listing_is_ordered_and_complete
    (req : Route.Request) (draftId : string) (db : Store.t)
    (rows : list (DraftPick.t * option Player.t)) :
  DraftsRoute.GET_picks req draftId db = DraftsRoute.JsonPicks rows ->
  StronglySorted
    (fun a b => DraftPick.pickNumber (fst a) <= DraftPick.pickNumber (fst b)) rows /\
  (DraftsRoute.playerKeysUnique db ->
   Permutation (List.map fst rows) (Store.picksOf draftId db) /\
   (forall pick player, In (pick, player) rows ->
      player = Store.findPlayer (DraftPick.playerId pick) db)).
Proof.
  unfold DraftsRoute.GET_picks.
  destruct (Route.unauthorized req); [discriminate|].
  destruct (Route.isUuid draftId); simpl; [|discriminate].
  destruct (Store.findDraft draftId (Route.userIdOf req) db); [|discriminate].
  intros [= <-]. unfold DraftsRoute.picksWithPlayers. split.
  - apply (sort_sorted DraftsRoute.byPickNumber
             (fun r => DraftPick.pickNumber (fst r))). reflexivity.
  - intros Hkeys.
    rewrite (flat_map_singletons
               (fun pick => (pick, Store.findPlayer (DraftPick.playerId pick) db))
               _ _ (fun pick => joinPlayer_unique db pick Hkeys)).
    split.
    + rewrite (Permutation_map fst (sort_perm DraftsRoute.byPickNumber _)).
      rewrite List.map_map. simpl. rewrite List.map_id. reflexivity.
    + intros pick player Hin.
      apply (Permutation_in _ (sort_perm DraftsRoute.byPickNumber _)) in Hin.
      apply in_map_iff in Hin as (p & E & _). inversion E; subst. reflexivity.
Qed.

Lemma picks_listing_is_ordered_and_complete_witness :
  let scrambled :=
    League.after [League.pickRequest League.playerC 3 1 3 3 false;
                  League.pickRequest League.playerA 1 1 1 1 false;
                  League.pickRequest League.playerB 2 1 2 2 false] League.start in
  exists rows,
    DraftsRoute.GET_picks League.undoRequest League.draftId scrambled
    = DraftsRoute.JsonPicks rows /\
    List.map (fun r => DraftPick.pickNumber (fst r)) rows = [1; 2; 3] /\
    StronglySorted
      (fun a b => DraftPick.pickNumber (fst a) <= DraftPick.pickNumber (fst b)) rows.
Proof.
  intros scrambled.
  destruct (DraftsRoute.GET_picks League.undoRequest League.draftId scrambled)
    as [ | | | rows] eqn:HG; try (vm_compute in HG; discriminate).
  exists rows. split; [reflexivity|]. split.
  - vm_compute in HG. injection HG as <-. reflexivity.
  - exact (proj1 (picks_listing_is_ordered_and_complete
                    League.undoRequest League.draftId scrambled rows HG)).
Defined.

(* ===================================================================== *)
(** * Further facts: the recommendation engine *)
(* ===================================================================== *)

(** A recommendation stands for the player [p]. *)
Lemma resolveRec_from_pool available acc rec :
  (forall r, In r acc -> exists p, In p available /\ Recs.playerId r = Player.id p
                                 /\ Recs.playerName r = Player.fullName p
                                 /\ Recs.team r = Player.team p) ->
  forall r, In r (Recs.resolveRec available acc rec) ->
            exists p, In p available /\ Recs.playerId r = Player.id p
                      /\ Recs.playerName r = Player.fullName p
                      /\ Recs.team r = Player.team p.
Proof.
  intros Hacc r. unfold Recs.resolveRec, Recs.resolveRecWith.
  destruct (List.find (Recs.nameMatches rec) available) as [player|] eqn:Hfind;
    [|apply Hacc].
  intros Hin. apply in_app_or in Hin as [Hin|[<-|[]]]; [apply Hacc; exact Hin|].
  apply find_some in Hfind as [Hp _]. exists player. simpl. auto.
Qed.

Lemma fold_resolveRec_from_pool available recs acc :
  (forall r, In r acc -> exists p, In p available /\ Recs.playerId r = Player.id p
                                 /\ Recs.playerName r = Player.fullName p
                                 /\ Recs.team r = Player.team p) ->
  forall r, In r (fold_left (Recs.resolveRec available) recs acc) ->
            exists p, In p available /\ Recs.playerId r = Player.id p
                      /\ Recs.playerName r = Player.fullName p
                      /\ Recs.team r = Player.team p.
Proof.
  revert acc. induction recs as [|rec recs IH]; intros acc Hacc; simpl; [exact Hacc|].
  apply IH. apply resolveRec_from_pool. exact Hacc.
Qed.

Lemma in_topFive context p :
  In p (Recs.topFive context) -> In p (Recs.availablePlayers context).
Proof.
  unfold Recs.topFive, Js.slice0. intros Hin.
  apply in_firstn_in, in_sortedByAdp in Hin. tauto.
Qed.

Lemma length_mapi_from {X Y} (f : X -> Z -> Y) i l :
  length (Js.mapi_from f i l) = length l.
Proof.
  revert i. induction l as [|x l IH]; intros i; simpl; [reflexivity|]. now rewrite IH.
Qed.

Lemma in_mapi_from {X Y} (f : X -> Z -> Y) i l y :
  In y (Js.mapi_from f i l) -> exists x j, In x l /\ y = f x j.
Proof.
  revert i. induction l as [|x l IH]; intros i; simpl; [intros []|].
  intros [<-|Hin]; [eauto|].
  destruct (IH _ Hin) as (x' & j & Hx & E). eauto.
Qed.

Lemma generate_from_pool
    (run : Recs.ProviderRun) (context : Recs.DraftContext) :
  let recs := Recs.recommendations (Recs.generateRecommendations run context) in
  (length recs <= 5)%nat /\
  (forall r, In r recs ->
     exists p, In p (Recs.availablePlayers context) /\
               Recs.playerId r = Player.id p /\
               Recs.playerName r = Player.fullName p /\
               Recs.team r = Player.team p).
Proof.
  assert (let recs := Recs.recommendations (Recs.getFallbackRecommendations context) in
          (length recs <= 5)%nat /\
          (forall r, In r recs ->
             exists p, In p (Recs.availablePlayers context) /\
                       Recs.playerId r = Player.id p /\
                       Recs.playerName r = Player.fullName p /\
                       Recs.team r = Player.team p)) as Hfall.
  { unfold Recs.getFallbackRecommendations, Js.mapi. cbn [Recs.recommendations].
    fold (Recs.topFive context). split.
    - rewrite length_mapi_from. unfold Recs.topFive, Js.slice0. apply firstn_le_length.
    - intros r Hin. apply in_mapi_from in Hin as (p & j & Hp & ->).
      exists p. split; [apply in_topFive; exact Hp|]. simpl. auto. }
  destruct run as [ | | decoded]; try exact Hfall.
  unfold Recs.generateRecommendations; cbn [Recs.generateRecommendationsWith]. unfold Recs.parseAIResponse, Recs.parseAIResponseWith.
  destruct decoded as [parsed|]; cbn [Recs.recommendations].
  - split; [unfold Js.slice0; apply firstn_le_length|].
    intros r Hin. apply in_firstn_in in Hin.
    set (resolved := fold_left (Recs.resolveRecWith Recs.nameMatches (Recs.availablePlayers context))
                       (default [] (Recs.parsed_recommendations parsed)) []) in *.
    assert (forall r, In r resolved ->
              exists p, In p (Recs.availablePlayers context) /\
                        Recs.playerId r = Player.id p /\
                        Recs.playerName r = Player.fullName p /\
                        Recs.team r = Player.team p) as Hres.
    { apply fold_resolveRec_from_pool. intros ? []. }
    destruct (length resolved =? 0)%nat; [|apply Hres; exact Hin].
    rewrite fold_push in Hin. apply in_app_or in Hin as [Hin|Hin];
      [apply Hres; exact Hin|].
    apply in_map_iff in Hin as (p & <- & Hp). exists p.
    split; [apply in_topFive; exact Hp|]. simpl. auto.
  - fold (Recs.topFive context). split.
    + rewrite length_map. unfold Recs.topFive, Js.slice0. apply firstn_le_length.
    + intros r Hin. apply in_map_iff in Hin as (p & <- & Hp). exists p.
      split; [apply in_topFive; exact Hp|]. simpl. auto.
Qed.

(** However the provider behaves, the engine returns at most five
    recommendations, and each of them is for a player of the available
    pool, with that player's id, name and team: a name the provider made
    up, or that of a player not available, never comes back. *)
Theorem recommendations_come_from_the_pool
    (run : Recs.ProviderRun) (context : Recs.DraftContext) :
  let recs := Recs.recommendations (Recs.generateRecommendations run context) in
  (length recs <= 5)%nat /\
  (forall r, In r recs ->
     exists p, In p (Recs.availablePlayers context) /\
               Recs.playerId r = Player.id p /\
               Recs.playerName r = Player.fullName p /\
               Recs.team r = Player.team p).
Proof. exact (generate_from_pool run context). Qed.




(** The ranking every fallback and the prompt start from is a rearrangement
    of the available players that have an ADP, and players with the same
    sort key keep the order they have in the pool: the ranking depends on
    nothing but the pool. *)
Theorem adp_ranking_is_stable (players : list Player.t) :
  Permutation (Recs.sortedByAdp players) (List.filter Recs.hasAdp players) /\
  (forall key,
     List.filter (fun p => Recs.adpKey p =? key) (Recs.sortedByAdp players)
     = List.filter (fun p => Recs.adpKey p =? key) (List.filter Recs.hasAdp players)).
Proof.
  split; [apply sortedByAdp_perm|].
  intros key. apply (sort_stable Recs.byAdp Recs.adpKey byAdp_key).
Qed.

(* ===================================================================== *)
(** * Further facts: the rate limiter *)
(* ===================================================================== *)

Lemma check_fresh config identifier now (store : gmap string RateLimit.Entry) :
  RateLimit.expired (store !! RateLimit.keyOf config identifier) now = true ->
  RateLimit.checkRateLimit config identifier now store
  = ({| RateLimit.success := true;
        RateLimit.remaining := RateLimit.maxRequests config - 1;
        RateLimit.retryAfter := None |},
     <[RateLimit.keyOf config identifier :=
         {| RateLimit.count := 1;
            RateLimit.resetTime := now + RateLimit.windowMs config |}]> store).
Proof.
  unfold RateLimit.checkRateLimit, RateLimit.expired.
  destruct (store !! RateLimit.keyOf config identifier) as [e|]; [|reflexivity].
  intros ->. reflexivity.
Qed.

Lemma check_live config identifier now (store : gmap string RateLimit.Entry) e :
  store !! RateLimit.keyOf config identifier = Some e ->
  now <= RateLimit.resetTime e ->
  RateLimit.checkRateLimit config identifier now store
  = if RateLimit.count e >=? RateLimit.maxRequests config
    then ({| RateLimit.success := false; RateLimit.remaining := 0;
             RateLimit.retryAfter :=
               Some (RateLimit.ceilSeconds (RateLimit.resetTime e - now)) |},
          store)
    else ({| RateLimit.success := true;
             RateLimit.remaining :=
               RateLimit.maxRequests config - (RateLimit.count e + 1);
             RateLimit.retryAfter := None |},
          <[RateLimit.keyOf config identifier :=
              {| RateLimit.count := RateLimit.count e + 1;
                 RateLimit.resetTime := RateLimit.resetTime e |}]> store).
Proof.
  intros Hlook Hlive. unfold RateLimit.checkRateLimit. rewrite Hlook.
  destruct (Z.ltb_spec (RateLimit.resetTime e) now); [lia|]. reflexivity.
Qed.

Lemma calls_live config identifier times (store : gmap string RateLimit.Entry) e :
  store !! RateLimit.keyOf config identifier = Some e ->
  Forall (fun t => t <= RateLimit.resetTime e) times ->
  fst (RateLimit.calls config identifier times store)
  = List.map (fun i => RateLimit.count e + Z.of_nat i <? RateLimit.maxRequests config)
             (seq 0 (length times)).
Proof.
  revert store e. induction times as [|now times IH]; intros store e Hlook Hlive;
    [reflexivity|].
  inversion Hlive as [|? ? Hnow Hrest]; subst.
  cbn [RateLimit.calls]. rewrite (check_live _ _ _ _ _ Hlook Hnow).
  destruct (Z.geb_spec (RateLimit.count e) (RateLimit.maxRequests config)) as [Hge|Hlt].
  - destruct (RateLimit.calls config identifier times store) as [rs store''] eqn:Hcalls.
    cbn [fst RateLimit.success length seq List.map].
    f_equal; [symmetry; apply Z.ltb_ge; lia|].
    rewrite <- seq_shift, List.map_map.
    pose proof (IH store e Hlook Hrest) as Hrs. rewrite Hcalls in Hrs. simpl in Hrs.
    rewrite Hrs. apply List.map_ext. intros i.
    destruct (Z.ltb_spec (RateLimit.count e + Z.of_nat i) (RateLimit.maxRequests config));
      destruct (Z.ltb_spec (RateLimit.count e + Z.of_nat (S i))
                           (RateLimit.maxRequests config)); try reflexivity; lia.
  - set (e' := {| RateLimit.count := RateLimit.count e + 1;
                  RateLimit.resetTime := RateLimit.resetTime e |}).
    set (store' := <[RateLimit.keyOf config identifier := e']> store).
    destruct (RateLimit.calls config identifier times store') as [rs store''] eqn:Hcalls.
    cbn [fst RateLimit.success length seq List.map].
    f_equal; [symmetry; apply Z.ltb_lt; lia|].
    rewrite <- seq_shift, List.map_map.
    assert (store' !! RateLimit.keyOf config identifier = Some e') as Hlook'
      by apply lookup_insert_eq.
    pose proof (IH store' e' Hlook' Hrest) as Hrs. rewrite Hcalls in Hrs. simpl in Hrs.
    rewrite Hrs. apply List.map_ext. intros i. f_equal. lia.
Qed.

(** A burst: when no window is running for an identifier, of [n] calls
    that come before the window the first one opens is over, the first
    [max(1, maxRequests)] are let through and all the others are refused. *)
Theorem burst_is_capped
    (config : RateLimit.Config) (identifier : string) (first : Z) (rest : list Z)
    (store : gmap string RateLimit.Entry) :
  RateLimit.expired (store !! RateLimit.keyOf config identifier) first = true ->
  Forall (fun t => t <= first + RateLimit.windowMs config) rest ->
  fst (RateLimit.calls config identifier (first :: rest) store)
  = List.map (fun i => Z.of_nat i <? Z.max 1 (RateLimit.maxRequests config))
             (seq 0 (S (length rest))).
Proof.
  intros Hfresh Hrest. cbn [RateLimit.calls].
  rewrite (check_fresh _ _ _ _ Hfresh).
  set (e := {| RateLimit.count := 1;
               RateLimit.resetTime := first + RateLimit.windowMs config |}).
  set (store' := <[RateLimit.keyOf config identifier := e]> store).
  destruct (RateLimit.calls config identifier rest store') as [rs store''] eqn:Hcalls.
  cbn [fst RateLimit.success seq List.map].
  f_equal; [symmetry; apply Z.ltb_lt; lia|].
  rewrite <- seq_shift, List.map_map.
  assert (store' !! RateLimit.keyOf config identifier = Some e) as Hlook
    by apply lookup_insert_eq.
  pose proof (calls_live config identifier rest store' e Hlook Hrest) as Hrs.
  rewrite Hcalls in Hrs. simpl in Hrs. rewrite Hrs.
  apply List.map_ext. intros i.
  destruct (Z.ltb_spec (1 + Z.of_nat i) (RateLimit.maxRequests config));
    destruct (Z.ltb_spec (Z.of_nat (S i)) (Z.max 1 (RateLimit.maxRequests config)));
    try reflexivity; lia.
Qed.

Lemma burst_is_capped_witness :
  let limiter := RateLimit.mkConfig 60000 3 (Some "ai") in
  RateLimit.expired ((∅ : gmap string RateLimit.Entry)
                       !! RateLimit.keyOf limiter "user-1") 1000 = true /\
  Forall (fun t => t <= 1000 + RateLimit.windowMs limiter) [2000; 3000; 4000; 61000] /\
  fst (RateLimit.calls limiter "user-1" [1000; 2000; 3000; 4000; 61000] ∅)
  = [true; true; true; false; false].
Proof.
  intros limiter.
  assert (RateLimit.expired ((∅ : gmap string RateLimit.Entry)
                               !! RateLimit.keyOf limiter "user-1") 1000 = true) as H1
    by reflexivity.
  assert (Forall (fun t => t <= 1000 + RateLimit.windowMs limiter)
                 [2000; 3000; 4000; 61000]) as H2
    by (repeat constructor; simpl; lia).
  split; [exact H1|]. split; [exact H2|].
  exact (burst_is_capped limiter "user-1" 1000 [2000; 3000; 4000; 61000] ∅ H1 H2).
Defined.

(** A refused call writes nothing and tells how long to wait, rounded up
    to whole seconds; a call after the window is over is let through and
    opens a new window, while a call at the very millisecond the window
    ends still falls in the old one and is refused with a wait of 0. *)
Theorem refusal_and_retry
    (config : RateLimit.Config) (identifier : string) (now : Z)
    (store : gmap string RateLimit.Entry) (e : RateLimit.Entry) :
  store !! RateLimit.keyOf config identifier = Some e ->
  now <= RateLimit.resetTime e ->
  RateLimit.count e >= RateLimit.maxRequests config ->
  (exists wait,
     RateLimit.checkRateLimit config identifier now store
     = ({| RateLimit.success := false; RateLimit.remaining := 0;
           RateLimit.retryAfter := Some wait |}, store) /\
     0 <= wait /\
     1000 * (wait - 1) < RateLimit.resetTime e - now <= 1000 * wait) /\
  (forall later, RateLimit.resetTime e < later ->
     RateLimit.checkRateLimit config identifier later store
     = ({| RateLimit.success := true;
           RateLimit.remaining := RateLimit.maxRequests config - 1;
           RateLimit.retryAfter := None |},
        <[RateLimit.keyOf config identifier :=
            {| RateLimit.count := 1;
               RateLimit.resetTime := later + RateLimit.windowMs config |}]> store)) /\
  RateLimit.checkRateLimit config identifier (RateLimit.resetTime e) store
  = ({| RateLimit.success := false; RateLimit.remaining := 0;
        RateLimit.retryAfter := Some 0 |}, store).
Proof.
  intros Hlook Hlive Hfull.
  assert ((RateLimit.count e >=? RateLimit.maxRequests config) = true) as Hge
    by (apply Z.geb_le; lia).
  split; [|split].
  - exists (RateLimit.ceilSeconds (RateLimit.resetTime e - now)).
    rewrite (check_live _ _ _ _ _ Hlook Hlive), Hge. split; [reflexivity|].
    unfold RateLimit.ceilSeconds.
    pose proof (Z.div_mod (RateLimit.resetTime e - now + 999) 1000 ltac:(lia)).
    pose proof (Z.mod_pos_bound (RateLimit.resetTime e - now + 999) 1000 ltac:(lia)).
    lia.
  - intros later Hlater. apply check_fresh. unfold RateLimit.expired.
    rewrite Hlook. apply Z.ltb_lt. exact Hlater.
  - rewrite (check_live _ _ _ _ _ Hlook (Z.le_refl _)), Hge.
    rewrite Z.sub_diag. reflexivity.
Qed.

Lemma refusal_and_retry_witness :
  let limiter := RateLimit.mkConfig 60000 1 (Some "ai") in
  let store := snd (RateLimit.checkRateLimit limiter "user-1" 1000 ∅) in
  (exists e, store !! RateLimit.keyOf limiter "user-1" = Some e /\
             1500 <= RateLimit.resetTime e /\
             RateLimit.count e >= RateLimit.maxRequests limiter) /\
  exists wait,
    RateLimit.checkRateLimit limiter "user-1" 1500 store
    = ({| RateLimit.success := false; RateLimit.remaining := 0;
          RateLimit.retryAfter := Some wait |}, store) /\
    0 <= wait.
Proof.
  intros limiter store.
  set (e := {| RateLimit.count := 1; RateLimit.resetTime := 61000 |}).
  assert (store !! RateLimit.keyOf limiter "user-1" = Some e) as Hlook
    by apply lookup_insert_eq.
  assert (1500 <= RateLimit.resetTime e) as Hlive by (simpl; lia).
  assert (RateLimit.count e >= RateLimit.maxRequests limiter) as Hfull by (simpl; lia).
  split; [exists e; auto|].
  destruct (proj1 (refusal_and_retry limiter "user-1" 1500 store e Hlook Hlive Hfull))
    as (wait & Hcheck & Hwait & _).
  exists wait. auto.
Defined.

Lemma string_app_inv_head (p a b : string) : p +:+ a = p +:+ b -> a = b.
Proof.
  induction p as [|c p IH]; simpl; [auto|]. intros [= E]. apply IH. exact E.
Qed.

Lemma keyOf_inj config a b :
  RateLimit.keyOf config a = RateLimit.keyOf config b -> a = b.
Proof.
  unfold RateLimit.keyOf. destruct (RateLimit.keyPrefix config) as [[|c p]|]; auto.
  intros E. apply string_app_inv_head in E. injection E as E. exact E.
Qed.

Lemma check_reads_its_key config identifier now
    (store1 store2 : gmap string RateLimit.Entry) :
  store1 !! RateLimit.keyOf config identifier
  = store2 !! RateLimit.keyOf config identifier ->
  fst (RateLimit.checkRateLimit config identifier now store1)
  = fst (RateLimit.checkRateLimit config identifier now store2).
Proof.
  intros E. unfold RateLimit.checkRateLimit. rewrite E.
  destruct (store2 !! RateLimit.keyOf config identifier) as [e|]; [|reflexivity].
  destruct (RateLimit.resetTime e <? now); [reflexivity|].
  destruct (RateLimit.count e >=? RateLimit.maxRequests config); reflexivity.
Qed.

Lemma check_writes_its_key config identifier now
    (store : gmap string RateLimit.Entry) key :
  key <> RateLimit.keyOf config identifier ->
  snd (RateLimit.checkRateLimit config identifier now store) !! key = store !! key.
Proof.
  intros Hne. unfold RateLimit.checkRateLimit.
  destruct (store !! RateLimit.keyOf config identifier) as [e|]; simpl.
  - destruct (RateLimit.resetTime e <? now); simpl;
      [apply lookup_insert_ne; congruence|].
    destruct (RateLimit.count e >=? RateLimit.maxRequests config); simpl;
      [reflexivity|apply lookup_insert_ne; congruence].
  - apply lookup_insert_ne. congruence.
Qed.

(** Under one limiter each identifier has its own budget: what one
    identifier does, let through or refused, changes neither the stored
    window of another nor the outcome of the other's next call. *)
Theorem budgets_are_per_identifier
    (config : RateLimit.Config) (one other : string) (t1 t2 : Z)
    (store : gmap string RateLimit.Entry) :
  one <> other ->
  let store' := snd (RateLimit.checkRateLimit config one t1 store) in
  store' !! RateLimit.keyOf config other = store !! RateLimit.keyOf config other /\
  fst (RateLimit.checkRateLimit config other t2 store')
  = fst (RateLimit.checkRateLimit config other t2 store).
Proof.
  intros Hne store'.
  assert (store' !! RateLimit.keyOf config other
          = store !! RateLimit.keyOf config other) as Hsame.
  { apply check_writes_its_key. intros E. apply keyOf_inj in E. congruence. }
  split; [exact Hsame|]. apply check_reads_its_key. exact Hsame.
Qed.

Lemma budgets_are_per_identifier_witness :
  let limiter := RateLimit.mkConfig 60000 1 (Some "ai") in
  let store := snd (RateLimit.checkRateLimit limiter "user-1" 1000 ∅) in
  "user-1" <> "user-2" /\
  fst (RateLimit.checkRateLimit limiter "user-2" 1500 store)
  = fst (RateLimit.checkRateLimit limiter "user-2" 1500 ∅).
Proof.
  intros limiter store.
  assert ("user-1" <> "user-2") as Hne by discriminate.
  split; [exact Hne|].
  exact (proj2 (budgets_are_per_identifier limiter "user-1" "user-2" 1000 1500 ∅ Hne)).
Defined.

(** The throwing limiter and the reporting one are the same limiter: on
    the same call they leave the same map, and the first throws exactly
    when the second reports failure, with the same number of seconds. *)
Theorem limiter_variants_agree
    (config : RateLimit.Config) (identifier : string) (now : Z)
    (store : gmap string RateLimit.Entry) :
  snd (RateLimit.createRateLimit config identifier now store)
  = snd (RateLimit.checkRateLimit config identifier now store) /\
  match fst (RateLimit.createRateLimit config identifier now store) with
  | None =>
      RateLimit.success (fst (RateLimit.checkRateLimit config identifier now store))
      = true
  | Some thrown =>
      RateLimit.success (fst (RateLimit.checkRateLimit config identifier now store))
      = false /\
      RateLimit.retryAfter (fst (RateLimit.checkRateLimit config identifier now store))
      = Some (RateLimit.error_retryAfter thrown)
  end.
Proof.
  unfold RateLimit.createRateLimit, RateLimit.checkRateLimit.
  destruct (store !! RateLimit.keyOf config identifier) as [e|]; [|split; reflexivity].
  destruct (RateLimit.resetTime e <? now); [split; reflexivity|].
  destruct (RateLimit.count e >=? RateLimit.maxRequests config); split;
    try reflexivity.
  split; reflexivity.
Qed.

(** The periodic cleanup is invisible to callers: a call made right after
    a cleanup has the outcome it would have had without it. *)
Theorem cleanup_changes_no_outcome
    (config : RateLimit.Config) (identifier : string) (now : Z)
    (store : gmap string RateLimit.Entry) :
  fst (RateLimit.checkRateLimit config identifier now (RateLimit.cleanup now store))
  = fst (RateLimit.checkRateLimit config identifier now store) /\
  fst (RateLimit.createRateLimit config identifier now (RateLimit.cleanup now store))
  = fst (RateLimit.createRateLimit config identifier now store).
Proof.
  set (key := RateLimit.keyOf config identifier).
  assert (match store !! key with
          | Some e => if RateLimit.resetTime e <? now
                      then RateLimit.cleanup now store !! key = None
                      else RateLimit.cleanup now store !! key = Some e
          | None => RateLimit.cleanup now store !! key = None
          end) as Hclean.
  { unfold RateLimit.cleanup. destruct (store !! key) as [e|] eqn:Hlook.
    - destruct (Z.ltb_spec (RateLimit.resetTime e) now) as [Hlt|Hge].
      + apply map_lookup_filter_None. right. intros x Hx. simpl.
        rewrite Hlook in Hx. injection Hx as <-. intros Hnot. apply Hnot. exact Hlt.
      + apply map_lookup_filter_Some. split; [exact Hlook|]. simpl. lia.
    - apply map_lookup_filter_None. left. exact Hlook. }
  unfold RateLimit.checkRateLimit, RateLimit.createRateLimit. fold key.
  destruct (store !! key) as [e|] eqn:Hlook.
  - destruct (RateLimit.resetTime e <? now) eqn:Hexp.
    + rewrite Hclean. split; reflexivity.
    + rewrite Hclean, Hexp. split;
        destruct (RateLimit.count e >=? RateLimit.maxRequests config); reflexivity.
  - rewrite Hclean. split; reflexivity.
Qed.

(* ===================================================================== *)
(** * Further facts: plan checks *)
(* ===================================================================== *)

(** Creating a draft is allowed exactly when the usage summary shows
    drafts remaining (any number, or -1 for no limit); a refusal carries
    its reason and happens only at or above a limit other than -1. *)
Theorem draft_access_matches_usage (plan : Subscription.UserPlan) (used : Z) :
  let access := Subscription.checkDraftAccess plan used in
  let summary := Subscription.usage plan used in
  (Subscription.allowed access = true <-> Subscription.draftsRemaining summary <> 0) /\
  (Subscription.allowed access = false ->
   Subscription.reason access <> None /\
   Subscription.draftsPerMonth plan <> -1 /\
   used >= Subscription.draftsPerMonth plan) /\
  Subscription.draftsUsedThisMonth access = Subscription.draftsThisMonth summary /\
  Subscription.draftsLimit access = Subscription.usage_draftsLimit summary.
Proof.
  unfold Subscription.checkDraftAccess, Subscription.usage. simpl.
  destruct (Z.eqb_spec (Subscription.draftsPerMonth plan) (-1)) as [E|Hne]; simpl.
  - repeat split; try discriminate; auto.
  - destruct (Z.geb_spec used (Subscription.draftsPerMonth plan)) as [Hge|Hlt]; simpl.
    + repeat split; try discriminate; try lia; auto.
    + repeat split; try discriminate; try lia; auto.
Qed.

(* ===================================================================== *)
(** * Further facts: the recommendations route *)
(* ===================================================================== *)

Lemma joinPlayer_keeps_pick players pick :
  exists player, In (pick, player) (DraftsRoute.joinPlayer players pick).
Proof.
  unfold DraftsRoute.joinPlayer.
  destruct (List.filter _ players) as [|p ps]; [exists None; left; reflexivity|].
  exists (Some p). left. reflexivity.
Qed.

Lemma drafted_ids_cover draftId db pick :
  In pick (Store.picksOf draftId db) ->
  In (DraftPick.playerId pick)
     (RecsRoute.draftedPlayerIds (RecsRoute.picksWithPlayers draftId db)).
Proof.
  intros Hin. unfold RecsRoute.draftedPlayerIds, RecsRoute.picksWithPlayers.
  destruct (joinPlayer_keeps_pick (Store.players db) pick) as (player & Hrow).
  apply in_map_iff. exists (pick, player). split; [reflexivity|].
  apply in_flat_map. exists pick. auto.
Qed.

Lemma route_pool draft draftId db p :
  In p (Recs.availablePlayers (RecsRoute.buildContext draft draftId db)) ->
  In p (Store.players db) /\
  Player.sport p = Draft.sport draft /\
  (forall pick, In pick (Store.picksOf draftId db) ->
                DraftPick.playerId pick <> Player.id p).
Proof.
  unfold RecsRoute.buildContext, RecsRoute.availablePlayers. simpl.
  intros Hin. apply filter_In in Hin as [Hp Hok].
  apply andb_true_iff in Hok as [Hsport Hfree]. split; [exact Hp|]. split.
  - destruct (Player.sport p), (Draft.sport draft); simpl in Hsport; congruence.
  - intros pick Hpick E. apply negb_true_iff in Hfree.
    assert (existsb (String.eqb (Player.id p))
              (RecsRoute.draftedPlayerIds (RecsRoute.picksWithPlayers draftId db))
            = true) as Ht; [|congruence].
    apply existsb_exists. exists (DraftPick.playerId pick).
    split; [apply drafted_ids_cover; exact Hpick|]. rewrite E. apply String.eqb_refl.
Qed.

(** What the route recommends is draftable: however the provider behaves,
    each of the at most five recommendations names a stored player of the
    draft's sport that no pick of the draft has taken. *)
Theorem route_recommends_only_undrafted_players
    (req : Route.Request) (draftId : string) (plan : Subscription.UserPlan)
    (now : Z) (run : Recs.ProviderRun) (limits limits' : gmap string RateLimit.Entry)
    (db : Store.t) (result : Recs.RecommendationsResult)
    (currentPick : Z) (rosterSize poolSize : nat) :
  RecsRoute.GET req draftId plan now run limits db
  = (RecsRoute.JsonRecommendations result currentPick rosterSize poolSize, limits') ->
  exists draft,
    Store.findDraft draftId (Route.userIdOf req) db = Some draft /\
    (length (Recs.recommendations result) <= 5)%nat /\
    (forall r, In r (Recs.recommendations result) ->
       exists p, In p (Store.players db) /\
                 Recs.playerId r = Player.id p /\
                 Player.sport p = Draft.sport draft /\
                 (forall pick, In pick (Store.picksOf draftId db) ->
                               DraftPick.playerId pick <> Recs.playerId r)).
Proof.
  unfold RecsRoute.GET.
  destruct (Route.unauthorized req); [discriminate|].
  destruct (Route.isUuid draftId); simpl; [|discriminate].
  destruct (Subscription.ai_allowed (Subscription.checkAIAccess plan)); simpl;
    [|discriminate].
  destruct (RateLimit.createRateLimit RateLimit.aiRateLimit (Route.userIdOf req)
              now limits) as [[thrown|] lim]; [discriminate|].
  destruct (Store.findDraft draftId (Route.userIdOf req) db) as [draft|];
    [|discriminate].
  intros [= <- _ _ _ _]. exists draft. split; [reflexivity|].
  destruct (generate_from_pool run (RecsRoute.buildContext draft draftId db))
    as [Hlen Hpool].
  split; [exact Hlen|]. intros r Hr.
  destruct (Hpool r Hr) as (p & Hp & Hid & _).
  destruct (route_pool draft draftId db p Hp) as (Hstored & Hsport & Hfree).
  exists p. rewrite Hid. auto.
Qed.

Lemma route_recommends_only_undrafted_players_witness :
  let pro := Subscription.mkPlan "pro" "Pro" true (-1) (-1) in
  exists result currentPick rosterSize poolSize limits',
    RecsRoute.GET League.undoRequest League.draftId pro 1000 Recs.NoProvider
                  ∅ League.afterRoundOne
    = (RecsRoute.JsonRecommendations result currentPick rosterSize poolSize, limits') /\
    List.map Recs.playerId (Recs.recommendations result) = [League.playerE] /\
    (forall r, In r (Recs.recommendations result) ->
       forall pick, In pick (Store.picksOf League.draftId League.afterRoundOne) ->
                    DraftPick.playerId pick <> Recs.playerId r).
Proof.
  intros pro.
  destruct (RecsRoute.GET League.undoRequest League.draftId pro 1000 Recs.NoProvider
              ∅ League.afterRoundOne) as [resp limits'] eqn:HG.
  destruct resp as [ | | result currentPick rosterSize poolSize];
    try (vm_compute in HG; discriminate).
  exists result, currentPick, rosterSize, poolSize, limits'.
  split; [reflexivity|]. split.
  - vm_compute in HG. injection HG as <- _ _ _ _. reflexivity.
  - destruct (route_recommends_only_undrafted_players _ _ _ _ _ _ _ _ _ _ _ _ HG)
      as (draft & _ & _ & Hall).
    intros r Hr pick Hpick. destruct (Hall r Hr) as (p & _ & _ & _ & Hfree).
    exact (Hfree pick Hpick).
Defined.



(* ===================================================================== *)
(** * Further facts: the writing routes together *)
(* ===================================================================== *)

Lemma NoDup_map_filter {X Y} (f : X -> Y) (g : X -> bool) (l : list X) :
  List.NoDup (List.map f l) -> List.NoDup (List.map f (List.filter g l)).
Proof.
  induction l as [|x l IH]; simpl; [auto|].
  intros Hnd. inversion Hnd as [|? ? Hnotin Hnd']; subst.
  destruct (g x); simpl; [|apply IH; exact Hnd'].
  constructor; [|apply IH; exact Hnd'].
  intros Hin. apply Hnotin. apply in_map_iff in Hin as (y & E & Hy).
  apply filter_In in Hy as [Hy _]. apply in_map_iff. eauto.
Qed.

Lemma NoDup_map_same {X Y} (f : X -> Y) (l : list X) a b :
  List.NoDup (List.map f l) -> In a l -> In b l -> f a = f b -> a = b.
Proof.
  induction l as [|x l IH]; simpl; [tauto|].
  intros Hnd Ha Hb E. inversion Hnd as [|? ? Hnotin Hnd']; subst.
  destruct Ha as [->|Ha], Hb as [->|Hb]; auto.
  - exfalso. apply Hnotin. rewrite E. apply in_map. exact Hb.
  - exfalso. apply Hnotin. rewrite <- E. apply in_map. exact Ha.
Qed.

Lemma optional_true {A} (rule : A -> bool) field v :
  DraftsRoute.optional rule field = true -> field = Some v -> rule v = true.
Proof. intros H ->. exact H. Qed.

Lemma applySet_configured set d : Api.configured d -> Api.configured (Store.applySet set d).
Proof. intros H. exact H. Qed.

Lemma updateDraft_sound draftId set db :
  Api.sound db -> Api.sound (Store.updateDraft draftId set db).
Proof.
  intros [Hconf Hkeys]. split.
  - unfold Store.updateDraft. simpl. apply Forall_map.
    eapply List.Forall_impl; [|exact Hconf]. intros d Hd.
    destruct (String.eqb (Draft.id d) draftId); [apply applySet_configured|]; exact Hd.
  - unfold DraftsRoute.draftKeysUnique, Store.updateDraft. simpl.
    rewrite List.map_map.
    rewrite (List.map_ext _ Draft.id); [exact Hkeys|].
    intros d. destruct (String.eqb (Draft.id d) draftId); reflexivity.
Qed.

Lemma afterPick_sound draft draftId pickData db :
  Api.sound db -> Api.sound (Route.afterPick draft draftId pickData db).
Proof.
  intros Hs. unfold Route.afterPick.
  assert (Api.sound (Store.insertPick (Route.valuesOf draftId pickData) db)) as Hs1
    by exact Hs.
  destruct (Route.pickNumber pickData >=? Draft.numTeams draft * Draft.rosterSize draft);
    repeat apply updateDraft_sound; exact Hs1.
Qed.

Lemma afterUndo_sound draftId lastPick db :
  Api.sound db -> Api.sound (Route.afterUndo draftId lastPick db).
Proof.
  intros Hs. unfold Route.afterUndo. apply updateDraft_sound. exact Hs.
Qed.

Lemma update_schema_bounds b :
  DraftsRoute.updateDraftSchema b = true ->
  (forall n, DraftsRoute.numTeams b = Some n -> 4 <= n <= 20) /\
  (forall n, DraftsRoute.draftPosition b = Some n -> 1 <= n <= 20) /\
  (forall n, DraftsRoute.rosterSize b = Some n -> 5 <= n <= 25).
Proof.
  unfold DraftsRoute.updateDraftSchema. rewrite !andb_true_iff.
  intros [[[[[_ Hteams] Hpos] Hroster] _] _].
  split; [|split]; intros n E;
    match goal with
    | H : DraftsRoute.optional _ ?f = true, E : ?f = Some _ |- _ =>
        apply (optional_true _ _ _ H) in E
    end; lia.
Qed.

Lemma create_schema_bounds b d :
  CreateRoute.createDraftSchema b = Some d ->
  4 <= CreateRoute.data_numTeams d <= 20 /\
  1 <= CreateRoute.data_draftPosition d <= 20 /\
  5 <= CreateRoute.data_rosterSize d <= 25.
Proof.
  unfold CreateRoute.createDraftSchema.
  destruct (_ && _)%bool eqn:Hok; [|discriminate]. intros [= <-]. simpl.
  rewrite !andb_true_iff in Hok. destruct Hok as [[[_ Hteams] Hpos] Hroster].
  destruct (CreateRoute.numTeams b), (CreateRoute.draftPosition b),
    (CreateRoute.rosterSize b); simpl in *; lia.
Qed.

Lemma PATCH_sound req body draftId db :
  Api.sound db -> Api.sound (snd (DraftsRoute.PATCH req body draftId db)).
Proof.
  intros Hs. unfold DraftsRoute.PATCH.
  destruct (Route.unauthorized req); [exact Hs|].
  destruct (Route.isUuid draftId); simpl; [|exact Hs].
  destruct (Store.findDraft draftId (Route.userIdOf req) db) as [existing|] eqn:Hd;
    [|exact Hs].
  destruct body as [b|]; [|exact Hs].
  destruct (DraftsRoute.updateDraftSchema b) eqn:Hvalid; simpl; [|exact Hs].
  destruct (Z.gtb_spec (default (Draft.draftPosition existing) (DraftsRoute.draftPosition b))
                       (default (Draft.numTeams existing) (DraftsRoute.numTeams b)))
    as [Hgt|Hle]; [exact Hs|].
  destruct (DraftsRoute.noValues b); [exact Hs|].
  destruct (negb _); [exact Hs|]. simpl.
  destruct Hs as [Hconf Hkeys].
  destruct (update_schema_bounds b Hvalid) as (Hteams & Hpos & Hroster).
  pose proof Hd as Hfound. apply find_some in Hfound as [Hin Hown].
  split.
  - unfold DraftsRoute.updateOwned. simpl. apply Forall_map.
    rewrite List.Forall_forall in *. intros d Hdin.
    destruct (DraftsRoute.owned draftId (Route.userIdOf req) d) eqn:Hownd;
      [|apply Hconf; exact Hdin].
    assert (d = existing) as ->.
    { apply (NoDup_map_same Draft.id (Store.drafts db)); auto.
      unfold DraftsRoute.owned in Hownd.
      apply andb_true_iff in Hownd as [E1 _]. apply andb_true_iff in Hown as [E2 _].
      apply String.eqb_eq in E1, E2. congruence. }
    specialize (Hconf existing Hin). destruct Hconf as (H1 & H2 & H3).
    unfold Api.configured, DraftsRoute.applyUpdate. simpl.
    destruct (DraftsRoute.numTeams b) as [n|] eqn:En;
      destruct (DraftsRoute.draftPosition b) as [p|] eqn:Ep;
      destruct (DraftsRoute.rosterSize b) as [r|] eqn:Er; simpl in *;
      try specialize (Hteams _ eq_refl); try specialize (Hpos _ eq_refl);
      try specialize (Hroster _ eq_refl); lia.
  - unfold DraftsRoute.draftKeysUnique, DraftsRoute.updateOwned. simpl.
    rewrite List.map_map.
    rewrite (List.map_ext _ Draft.id); [exact Hkeys|].
    intros d. destruct (DraftsRoute.owned draftId (Route.userIdOf req) d); reflexivity.
Qed.

Lemma DELETE_draft_sound req draftId db :
  Api.sound db -> Api.sound (snd (DraftsRoute.DELETE req draftId db)).
Proof.
  intros Hs. unfold DraftsRoute.DELETE.
  destruct (Route.unauthorized req); [exact Hs|].
  destruct (Route.isUuid draftId); simpl; [|exact Hs].
  destruct (Store.findDraft draftId (Route.userIdOf req) db); [|exact Hs].
  simpl. destruct Hs as [Hconf Hkeys]. split.
  - unfold DraftsRoute.deleteOwned. simpl.
    rewrite List.Forall_forall in *. intros d Hd.
    apply filter_In in Hd as [Hd _]. auto.
  - unfold DraftsRoute.draftKeysUnique, DraftsRoute.deleteOwned. simpl.
    apply NoDup_map_filter. exact Hkeys.
Qed.

Lemma create_sound req body plan used now newId limits db :
  Api.sound db ->
  Api.sound (snd (CreateRoute.POST req body plan used now newId limits db)).
Proof.
  intros Hs. unfold CreateRoute.POST.
  destruct (Route.unauthorized req); [exact Hs|].
  destruct (RateLimit.createRateLimit _ _ _ _) as [[thrown|] limits']; [exact Hs|].
  destruct (negb (Subscription.allowed _)); [exact Hs|].
  destruct body as [b|]; [|exact Hs].
  destruct (CreateRoute.createDraftSchema b) as [d|] eqn:Hvalid; [|exact Hs].
  destruct (Z.gtb_spec (CreateRoute.data_draftPosition d) (CreateRoute.data_numTeams d))
    as [Hgt|Hle]; [exact Hs|].
  destruct (existsb _ (Store.drafts db)) eqn:Htaken; [exact Hs|]. simpl.
  destruct Hs as [Hconf Hkeys].
  destruct (create_schema_bounds b d Hvalid) as (H1 & H2 & H3). split.
  - unfold CreateRoute.insertDraft. simpl. apply Forall_app. split; [exact Hconf|].
    constructor; [|constructor]. unfold Api.configured. simpl. lia.
  - unfold DraftsRoute.draftKeysUnique, CreateRoute.insertDraft. simpl.
    rewrite List.map_app. simpl.
    eapply Permutation_NoDup; [apply Permutation_cons_append|].
    constructor; [|exact Hkeys].
    intros Hin. apply in_map_iff in Hin as (x & E & Hx).
    assert (existsb (fun d0 => String.eqb (Draft.id d0) newId) (Store.drafts db) = true)
      as Ht; [|congruence].
    apply existsb_exists. exists x. split; [exact Hx|]. rewrite E.
    apply String.eqb_refl.
Qed.

Lemma handle_sound state call :
  Api.sound (snd state) -> Api.sound (snd (Api.handle state call)).
Proof.
  destruct state as [limits db]. simpl. intros Hs.
  destruct call as [req body plan used now newId | req body draftId
                    | req draftId | req draftId | req draftId]; simpl.
  - pose proof (create_sound req body plan used now newId limits db Hs) as H.
    destruct (CreateRoute.POST req body plan used now newId limits db) as [[r l] d].
    exact H.
  - apply PATCH_sound. exact Hs.
  - apply DELETE_draft_sound. exact Hs.
  - destruct (POST_cases req draftId db)
      as [(draft & pickData & player & Hadm) | (e & s & Herr)].
    + destruct (Route.fits pickData) eqn:Hfits.
      * rewrite (POST_admitted _ _ _ _ _ _ Hadm Hfits). simpl.
        apply afterPick_sound. exact Hs.
      * rewrite (POST_overflow _ _ _ _ _ _ Hadm Hfits). simpl.
        destruct (Store.insertable _); exact Hs.
    + rewrite Herr. exact Hs.
  - destruct (DELETE_cases req draftId db)
      as [(draft & lastPick & Hok) | [(draft & _ & _ & Herr)
          | [(draft & lastPick & _ & _ & _ & Herr) | (_ & e & s & Herr)]]];
      try (rewrite Herr; exact Hs).
    destruct (Store.settable (Route.rewind lastPick)) eqn:Hset.
    + rewrite (DELETE_undoable _ _ _ _ _ Hok Hset). simpl.
      apply afterUndo_sound. exact Hs.
    + rewrite (DELETE_untyped _ _ _ _ _ Hok Hset). exact Hs.
Qed.

(** Whatever requests the writing routes are sent, in whatever order, the
    stored drafts stay well configured: between 4 and 20 teams, the user's
    seat between 1 and the number of teams, a roster size between 5 and
    25, and no two drafts with the same id.  This holds of every store
    that starts so, the empty one in particular. *)
Theorem drafts_stay_well_configured
    (calls : list Api.Call) (limits : gmap string RateLimit.Entry) (db : Store.t) :
  Api.sound db -> Api.sound (snd (Api.serve calls (limits, db))).
Proof.
  unfold Api.serve. change db with (snd (limits, db)) at 1.
  generalize (limits, db) as state. induction calls as [|call calls IH];
    intros state Hs; simpl; [exact Hs|].
  apply IH. apply handle_sound. exact Hs.
Qed.

Lemma drafts_stay_well_configured_witness :
  let sevenOfTen :=
    CreateRoute.mkCreate None None None (Some 10) (Some 7) None None None in
  let fewerTeams :=
    DraftsRoute.mkUpdate None (Some 6) None None None None None None None in
  let pro := Subscription.mkPlan "pro" "Pro" true (-1) (-1) in
  let calls :=
    [Api.CreateDraft League.undoRequest (Some sevenOfTen) pro 0 1000 League.draftId;
     Api.UpdateDraft League.undoRequest (Some fewerTeams) League.draftId] in
  Api.sound (snd Api.empty) /\
  List.map (fun d => (Draft.numTeams d, Draft.draftPosition d))
           (Store.drafts (snd (Api.serve calls Api.empty))) = [(10, 7)] /\
  Api.sound (snd (Api.serve calls Api.empty)).
Proof.
  intros sevenOfTen fewerTeams pro calls.
  assert (Api.sound (snd Api.empty)) as Hs.
  { split; [constructor|]. unfold DraftsRoute.draftKeysUnique. simpl. constructor. }
  split; [exact Hs|]. split; [vm_compute; reflexivity|].
  exact (drafts_stay_well_configured calls ∅ (snd Api.empty) Hs).
Defined.
